(** * MedMe scheduling service: appointment engine and Postgres store

    A shallow embedding of
    - [types/schedule.ts] and [types/errors.ts] (data model, error classes),
    - [models/AppointmentEntity.ts],
    - [repositories/postgresAppointmentRepository.ts] together with the
      [appointments] table it queries,
    - [services/appointmentService.ts],
    followed by the properties of the scheduling engine.

    Conventions.  A JavaScript [Date] is its epoch value in milliseconds
    (a [Z]).  An optional property ([undefined]) and an SQL [NULL] are both
    [None].  Asynchronous code is sequential here: every [await] is a bind of
    the state-and-exception monad [M]. *)

From Stdlib Require Import ZArith QArith List String Ascii Bool Lia.
From Stdlib Require Import DecimalString Sorted Permutation.
Import ListNotations.

Open Scope string_scope.
Open Scope Z_scope.

(** ** types/schedule.ts *)

Inductive AppointmentType : Type :=
| CONSULTATION | FOLLOW_UP | CHECK_UP | EMERGENCY | VACCINATION | SCREENING
| THERAPY | SURGERY | DIAGNOSTIC | PREVENTIVE | SPECIALIST | ROUTINE.

Inductive AppointmentStatus : Type :=
| SCHEDULED | CONFIRMED | CANCELLED | COMPLETED.

(** JSON values, for the [notes] column (jsonb) and [Record<string, any>]. *)
#[local] Set Warnings "-register-all".
Inductive json : Type :=
| JNull
| JBool (b : bool)
| JNumber (z : Z)
| JString (s : string)
| JArray (l : list json)
| JObject (l : list (string * json)).

#[local] Set Warnings "register-all".

Definition JsonRecord : Type := list (string * json).

Definition Date : Type := Z.

(** [ScheduleRequest], the output type of [ScheduleRequestSchema]. *)
Module ScheduleRequest.
Record t : Type := mk {
  firstName : string;
  lastName : string;
  email : option string;
  phoneNumber : option string;
  startAt : Date;
  endAt : Date;
  type : AppointmentType;
  notes : JsonRecord;
  reason : option string;
  callId : option string
}.
End ScheduleRequest.

(** [Partial<ScheduleRequest>]: every property optional. *)
Module PartialRequest.
Record t : Type := mk {
  firstName : option string;
  lastName : option string;
  email : option string;
  phoneNumber : option string;
  startAt : option Date;
  endAt : option Date;
  type : option AppointmentType;
  notes : option JsonRecord;
  reason : option string;
  callId : option string
}.
End PartialRequest.

(** ** models/AppointmentEntity.ts

    The class [AppointmentEntity]; the interface [Appointment] has the same
    properties and is represented by the same record. *)
Record AppointmentEntity : Type := mkEntity {
  id : option string;
  firstName : string;
  lastName : string;
  email : option string;
  phoneNumber : option string;
  startAt : Date;
  endAt : Date;
  type : AppointmentType;
  status : AppointmentStatus;
  reason : option string;
  calendarEventId : option string;
  createdAt : option Date;
  updatedAt : option Date;
  notes : JsonRecord
}.

(** The constructor's first branch: [data] carries [id], [status] and
    [createdAt], so every property is copied. *)
Definition AppointmentEntity_fromAppointment (data : AppointmentEntity)
  : AppointmentEntity :=
  {| id := id data; firstName := firstName data; lastName := lastName data;
     email := email data; phoneNumber := phoneNumber data;
     startAt := startAt data; endAt := endAt data; type := type data;
     status := status data; reason := reason data;
     calendarEventId := calendarEventId data; createdAt := createdAt data;
     updatedAt := updatedAt data; notes := notes data |}.

(** The constructor's second branch: [data] is a [ScheduleRequest];
    [now] is the value of [new Date()]. *)
Definition AppointmentEntity_fromRequest (data : ScheduleRequest.t) (now : Date)
  : AppointmentEntity :=
  {| id := None;
     firstName := ScheduleRequest.firstName data;
     lastName := ScheduleRequest.lastName data;
     email := ScheduleRequest.email data;
     phoneNumber := ScheduleRequest.phoneNumber data;
     startAt := ScheduleRequest.startAt data;
     endAt := ScheduleRequest.endAt data;
     type := ScheduleRequest.type data;
     status := SCHEDULED;
     reason := ScheduleRequest.reason data;
     calendarEventId := None;
     createdAt := Some now;
     updatedAt := None;
     notes := ScheduleRequest.notes data |}.

Definition set_status (s : AppointmentStatus) (a : AppointmentEntity)
  : AppointmentEntity :=
  {| id := id a; firstName := firstName a; lastName := lastName a;
     email := email a; phoneNumber := phoneNumber a;
     startAt := startAt a; endAt := endAt a; type := type a;
     status := s; reason := reason a;
     calendarEventId := calendarEventId a; createdAt := createdAt a;
     updatedAt := updatedAt a; notes := notes a |}.

Definition set_updatedAt (u : option Date) (a : AppointmentEntity)
  : AppointmentEntity :=
  {| id := id a; firstName := firstName a; lastName := lastName a;
     email := email a; phoneNumber := phoneNumber a;
     startAt := startAt a; endAt := endAt a; type := type a;
     status := status a; reason := reason a;
     calendarEventId := calendarEventId a; createdAt := createdAt a;
     updatedAt := u; notes := notes a |}.

Definition set_calendarEventId (e : option string) (a : AppointmentEntity)
  : AppointmentEntity :=
  {| id := id a; firstName := firstName a; lastName := lastName a;
     email := email a; phoneNumber := phoneNumber a;
     startAt := startAt a; endAt := endAt a; type := type a;
     status := status a; reason := reason a;
     calendarEventId := e; createdAt := createdAt a;
     updatedAt := updatedAt a; notes := notes a |}.

(** ** types/errors.ts and the other values the code throws

    A message is kept as the fragments of its template literal, with
    [toISOString()] of a date left symbolic. *)
Inductive fragment : Type :=
| Lit (s : string)
| IsoString (d : Date).

Definition message : Type := list fragment.

(** Failures of [pool.query]. *)
Inductive PgError : Type :=
| ConnectionError
| StringDataRightTruncation
| CheckViolation (constraint : string)
| UniqueViolation (constraint : string).

Inductive exn : Type :=
| ValidationError (m : message)
| ConflictError (m : message)
| NotFoundError (m : message)
| AppointmentCancellationError (m : message)
| AppointmentReschedulingError (m : message)
| TimeSlotUnavailableError (m : message)
| PastDateError (m : message)
| Error (m : message)              (* [new Error(...)] *)
| TypeError (m : message)          (* property read on [undefined] *)
| DatabaseError (e : PgError)      (* thrown by the [pg] driver *)
| NonError (v : string).           (* a thrown value that is not an [Error] *)

(** [AppError.code]; defined for the subclasses of [AppError] only. *)
Definition code (e : exn) : option string :=
  match e with
  | ValidationError _ => Some "VALIDATION_ERROR"
  | ConflictError _ => Some "CONFLICT_ERROR"
  | NotFoundError _ => Some "NOT_FOUND"
  | AppointmentCancellationError _ => Some "APPOINTMENT_CANCELLATION_ERROR"
  | AppointmentReschedulingError _ => Some "APPOINTMENT_RESCHEDULING_ERROR"
  | TimeSlotUnavailableError _ => Some "TIME_SLOT_UNAVAILABLE"
  | PastDateError _ => Some "PAST_DATE_ERROR"
  | _ => None
  end.

Definition pg_message (e : PgError) : message :=
  match e with
  | ConnectionError => [Lit "Connection terminated unexpectedly"]
  | StringDataRightTruncation =>
      [Lit "value too long for type character varying(150)"]
  | CheckViolation c =>
      [Lit "new row for relation appointments violates check constraint ";
       Lit c]
  | UniqueViolation c =>
      [Lit "duplicate key value violates unique constraint "; Lit c]
  end.

(** [calendarError instanceof Error ? calendarError.message : ...] *)
Definition instanceof_Error (e : exn) : bool :=
  match e with
  | NonError _ => false
  | _ => true
  end.

Definition exn_message (e : exn) : message :=
  match e with
  | ValidationError m | ConflictError m | NotFoundError m
  | AppointmentCancellationError m | AppointmentReschedulingError m
  | TimeSlotUnavailableError m | PastDateError m | Error m | TypeError m => m
  | DatabaseError e => pg_message e
  | NonError _ => []
  end.

(** ** JavaScript truthiness of optional strings *)

Definition is_empty (s : string) : bool :=
  match s with
  | EmptyString => true
  | String _ _ => false
  end.

(** [if (x)], [x && ...] for [x : string | undefined]: present and not empty. *)
Definition truthy (x : option string) : bool :=
  match x with
  | Some s => negb (is_empty s)
  | None => false
  end.

(** [x || null], [x || undefined]. *)
Definition or_null (x : option string) : option string :=
  if truthy x then x else None.

(** [a === b] on [string | undefined]. *)
Definition strict_eq (a b : option string) : bool :=
  match a, b with
  | Some x, Some y => String.eqb x y
  | None, None => true
  | _, _ => false
  end.

(** ** The [appointments] table

    One record per row, columns as in the [CREATE TABLE] statement. *)
Module DbRow.
Record t : Type := mk {
  id : string;                         (* uuid primary key *)
  first_name : string;                 (* varchar(150) not null *)
  last_name : string;                  (* varchar(150) not null *)
  email : option string;               (* text *)
  phone_number : option string;        (* text *)
  start_at : Date;                     (* timestamptz not null *)
  end_at : Date;                       (* timestamptz not null *)
  type : AppointmentType;              (* text not null *)
  status : AppointmentStatus;          (* text not null *)
  notes : JsonRecord;                  (* jsonb not null *)
  reason : option string;              (* text *)
  calendar_event_id : option string;   (* text *)
  created_at : Date;                   (* timestamptz not null *)
  updated_at : option Date             (* timestamptz *)
}.
End DbRow.

(** ** The world the service runs in

    [rows] is the table; [faults] schedules connection failures of the
    pool, one flag per query ([true]: that query throws; an exhausted
    schedule means no failure); [clock] is what [new Date()] and SQL [now()]
    read; [uuid_counter] drives [gen_random_uuid()]; [calls] records, oldest
    first, the calls the service makes on its two collaborators. *)
Inductive Call : Type :=
| Repo_getConflictingAppointments (startAt endAt : Date) (excludeId : option string)
| Repo_create (a : AppointmentEntity)
| Repo_update (id : string) (a : AppointmentEntity)
| Repo_delete (id : string)
| Repo_findById (id : string)
| Repo_getActiveAppointmentsByEmailOrPhone (emailOrPhone : string)
| Cal_createCalendarEvent (a : AppointmentEntity)
| Cal_updateCalendarEvent (eventId : string) (a : AppointmentEntity)
| Cal_deleteCalendarEvent (eventId : string).

Record World : Type := mkWorld {
  rows : list DbRow.t;
  faults : list bool;
  clock : Date;
  uuid_counter : nat;
  calls : list Call
}.

Definition set_rows (rs : list DbRow.t) (w : World) : World :=
  {| rows := rs; faults := faults w; clock := clock w;
     uuid_counter := uuid_counter w; calls := calls w |}.

Definition set_faults (fs : list bool) (w : World) : World :=
  {| rows := rows w; faults := fs; clock := clock w;
     uuid_counter := uuid_counter w; calls := calls w |}.

Definition set_uuid_counter (n : nat) (w : World) : World :=
  {| rows := rows w; faults := faults w; clock := clock w;
     uuid_counter := n; calls := calls w |}.

Definition set_calls (cs : list Call) (w : World) : World :=
  {| rows := rows w; faults := faults w; clock := clock w;
     uuid_counter := uuid_counter w; calls := cs |}.

(** ** State and exception monad *)

Definition M (A : Type) : Type := World -> (exn + A) * World.

Definition ret {A : Type} (a : A) : M A := fun w => (inr a, w).

Definition throw {A : Type} (e : exn) : M A := fun w => (inl e, w).

Definition bind {A B : Type} (m : M A) (k : A -> M B) : M B :=
  fun w =>
    match m w with
    | (inr a, w') => k a w'
    | (inl e, w') => (inl e, w')
    end.

(** [try { m } catch (e) { h e }]: effects of [m] before the throw stay. *)
Definition try_catch {A : Type} (m : M A) (h : exn -> M A) : M A :=
  fun w =>
    match m w with
    | (inr a, w') => (inr a, w')
    | (inl e, w') => h e w'
    end.

Declare Scope monad_scope.
Delimit Scope monad_scope with monad.
Notation "x <- m ;; k" := (bind m (fun x => k))
  (at level 61, m at next level, right associativity) : monad_scope.
Notation "m ;; k" := (bind m (fun _ => k))
  (at level 61, right associativity) : monad_scope.
Open Scope monad_scope.

(** [new Date()] *)
Definition new_Date : M Date := fun w => (inr (clock w), w).

Definition record_call (c : Call) : M unit :=
  fun w => (inr tt, set_calls (calls w ++ [c]) w).

(** ** repositories/interfaces/IAppointmentRepository.ts *)
Module IAppointmentRepository.
Record t : Type := mk {
  create : AppointmentEntity -> M AppointmentEntity;
  update : string -> AppointmentEntity -> M AppointmentEntity;
  delete : string -> M bool;
  findById : string -> M (option AppointmentEntity);
  isAvailable : Date -> Date -> option string -> M bool;
  getConflictingAppointments :
    Date -> Date -> option string -> M (list AppointmentEntity);
  getActiveAppointmentsByEmailOrPhone : string -> M (list AppointmentEntity)
}.
End IAppointmentRepository.

(** ** services/interfaces/ICalendarService.ts

    The calendar is an external collaborator: each of the three operations
    the engine uses either resolves or rejects, as a function of its
    arguments. *)
Module ICalendarService.
Record t : Type := mk {
  createCalendarEvent : AppointmentEntity -> exn + string;
  updateCalendarEvent : string -> AppointmentEntity -> exn + unit;
  deleteCalendarEvent : string -> exn + unit
}.
End ICalendarService.

(** ** repositories/postgresAppointmentRepository.ts *)
Module PostgresAppointmentRepository.

(** Every [pool.query] first needs a working connection. *)
Definition pool_connect : M unit :=
  fun w =>
    match faults w with
    | true :: fs => (inl (DatabaseError ConnectionError), set_faults fs w)
    | false :: fs => (inr tt, set_faults fs w)
    | [] => (inr tt, w)
    end.

Fixpoint all_spaces (s : string) : bool :=
  match s with
  | EmptyString => true
  | String c s' => Ascii.eqb c " "%char && all_spaces s'
  end.

(** Coercion to [varchar(n)]: excess spaces are cut, other excess fails
    (lengths counted on the string as stored here, one character each). *)
Definition varchar (n : nat) (s : string) : option string :=
  if (String.length s <=? n)%nat then Some s
  else if all_spaces (substring n (String.length s - n) s)
       then Some (substring 0 n s)
       else None.

Definition is_none {A : Type} (x : option A) : bool :=
  match x with
  | None => true
  | Some _ => false
  end.

Definition same_slot (start_at end_at : Date) (r : DbRow.t) : bool :=
  (DbRow.start_at r =? start_at) && (DbRow.end_at r =? end_at).

Definition has_id (id : string) (r : DbRow.t) : bool :=
  String.eqb (DbRow.id r) id.

(** [status IN ('scheduled', 'confirmed')] *)
Definition status_in_scheduled_confirmed (s : AppointmentStatus) : bool :=
  match s with
  | SCHEDULED | CONFIRMED => true
  | CANCELLED | COMPLETED => false
  end.

Fixpoint zeros (n : nat) : string :=
  match n with
  | O => ""
  | S n' => String "0"%char (zeros n')
  end.

(** [gen_random_uuid()]: the id handed out when the counter is [n]. *)
Definition gen_random_uuid (n : nat) : string :=
  let digits := NilEmpty.string_of_uint (Nat.to_uint n) in
  "00000000-0000-4000-8000-" ++ zeros (12 - String.length digits) ++ digits.

(** [INSERT INTO appointments (...) VALUES ($1, ..., $11) RETURNING *].
    The CHECK constraints are tested in the order of their names, then the
    unique index on [(start_at, end_at)]. *)
Definition query_insert
    (first_name last_name : string) (email phone_number : option string)
    (start_at end_at : Date) (type : AppointmentType)
    (status : AppointmentStatus) (notes : JsonRecord)
    (reason calendar_event_id : option string) : M (list DbRow.t) :=
  pool_connect ;;
  fun w =>
    match varchar 150 first_name, varchar 150 last_name with
    | Some first_name', Some last_name' =>
        if is_none email && is_none phone_number then
          (inl (DatabaseError (CheckViolation "appointments_contact_required")), w)
        else if negb (start_at <? end_at) then
          (inl (DatabaseError (CheckViolation "appointments_time_range")), w)
        else if existsb (same_slot start_at end_at) (rows w) then
          (inl (DatabaseError (UniqueViolation "appointments_unique_slot")), w)
        else
          let row :=
            {| DbRow.id := gen_random_uuid (uuid_counter w);
               DbRow.first_name := first_name';
               DbRow.last_name := last_name';
               DbRow.email := email;
               DbRow.phone_number := phone_number;
               DbRow.start_at := start_at;
               DbRow.end_at := end_at;
               DbRow.type := type;
               DbRow.status := status;
               DbRow.notes := notes;
               DbRow.reason := reason;
               DbRow.calendar_event_id := calendar_event_id;
               DbRow.created_at := clock w;
               DbRow.updated_at := None |} in
          (inr [row],
           set_uuid_counter (S (uuid_counter w)) (set_rows (rows w ++ [row]) w))
    | _, _ => (inl (DatabaseError StringDataRightTruncation), w)
    end.

(** The [SET] clause of [update]. *)
Definition set_columns
    (start_at end_at : Date) (type : AppointmentType) (notes : JsonRecord)
    (calendar_event_id : option string) (status : AppointmentStatus)
    (updated_at : Date) (r : DbRow.t) : DbRow.t :=
  {| DbRow.id := DbRow.id r;
     DbRow.first_name := DbRow.first_name r;
     DbRow.last_name := DbRow.last_name r;
     DbRow.email := DbRow.email r;
     DbRow.phone_number := DbRow.phone_number r;
     DbRow.start_at := start_at;
     DbRow.end_at := end_at;
     DbRow.type := type;
     DbRow.status := status;
     DbRow.notes := notes;
     DbRow.reason := DbRow.reason r;
     DbRow.calendar_event_id := calendar_event_id;
     DbRow.created_at := DbRow.created_at r;
     DbRow.updated_at := Some updated_at |}.

(** [UPDATE appointments SET start_at = $1, end_at = $2, type = $3,
    notes = $4, calendar_event_id = $5, status = $6, updated_at = $7
    WHERE id = $8 RETURNING *] *)
Definition query_update
    (start_at end_at : Date) (type : AppointmentType) (notes : JsonRecord)
    (calendar_event_id : option string) (status : AppointmentStatus)
    (updated_at : Date) (id : string) : M (list DbRow.t) :=
  pool_connect ;;
  fun w =>
    let set :=
      set_columns start_at end_at type notes calendar_event_id status
                  updated_at in
    match filter (has_id id) (rows w) with
    | [] => (inr [], w)
    | r :: more =>
        if existsb (fun r => is_none (DbRow.email r) && is_none (DbRow.phone_number r))
                   (r :: more) then
          (inl (DatabaseError (CheckViolation "appointments_contact_required")), w)
        else if negb (start_at <? end_at) then
          (inl (DatabaseError (CheckViolation "appointments_time_range")), w)
        else if negb (Nat.eqb (List.length more) 0)
                || existsb (same_slot start_at end_at)
                           (filter (fun r => negb (has_id id r)) (rows w)) then
          (inl (DatabaseError (UniqueViolation "appointments_unique_slot")), w)
        else
          (inr (map set (r :: more)),
           set_rows (map (fun r => if has_id id r then set r else r) (rows w)) w)
    end.

(** [DELETE FROM appointments WHERE id = $1]; the result is [rowCount]. *)
Definition query_delete (id : string) : M nat :=
  pool_connect ;;
  fun w =>
    (inr (List.length (filter (has_id id) (rows w))),
     set_rows (filter (fun r => negb (has_id id r)) (rows w)) w).

(** [SELECT * FROM appointments WHERE <p>] *)
Definition query_select (p : DbRow.t -> bool) : M (list DbRow.t) :=
  pool_connect ;;
  fun w => (inr (filter p (rows w)), w).

(** [ORDER BY start_at]: ascending, rows with equal keys keep their order. *)
Fixpoint insert_by_start_at (r : DbRow.t) (l : list DbRow.t) : list DbRow.t :=
  match l with
  | [] => [r]
  | x :: l' =>
      if DbRow.start_at r <? DbRow.start_at x then r :: x :: l'
      else x :: insert_by_start_at r l'
  end.

Definition order_by_start_at (l : list DbRow.t) : list DbRow.t :=
  fold_right insert_by_start_at [] l.

Definition mapRowToEntity (row : DbRow.t) : AppointmentEntity :=
  AppointmentEntity_fromAppointment
    {| id := Some (DbRow.id row);
       firstName := DbRow.first_name row;
       lastName := DbRow.last_name row;
       email := or_null (DbRow.email row);
       phoneNumber := or_null (DbRow.phone_number row);
       startAt := DbRow.start_at row;
       endAt := DbRow.end_at row;
       type := DbRow.type row;
       notes := DbRow.notes row;
       reason := or_null (DbRow.reason row);
       status := DbRow.status row;
       calendarEventId := or_null (DbRow.calendar_event_id row);
       createdAt := Some (DbRow.created_at row);
       updatedAt := DbRow.updated_at row |}.

(** [this.mapRowToEntity(result.rows[0])]: reading [row.id] of a missing
    first row throws. *)
Definition mapRowToEntity_first (result_rows : list DbRow.t)
  : M AppointmentEntity :=
  match result_rows with
  | row :: _ => ret (mapRowToEntity row)
  | [] => throw (TypeError
                   [Lit "Cannot read properties of undefined (reading 'id')"])
  end.

Definition create (appointment : AppointmentEntity) : M AppointmentEntity :=
  try_catch
    (result_rows <-
       query_insert (firstName appointment) (lastName appointment)
                    (or_null (email appointment))
                    (or_null (phoneNumber appointment))
                    (startAt appointment) (endAt appointment)
                    (type appointment) SCHEDULED (notes appointment)
                    (or_null (reason appointment))
                    (or_null (calendarEventId appointment)) ;;
     mapRowToEntity_first result_rows)
    (fun error => throw error).

Definition findById (id : string) : M (option AppointmentEntity) :=
  result_rows <- query_select (has_id id) ;;
  match result_rows with
  | [] => ret None
  | row :: _ => ret (Some (mapRowToEntity row))
  end.

Definition update (id : string) (appointment : AppointmentEntity)
  : M AppointmentEntity :=
  now <- new_Date ;;
  result_rows <-
    query_update (startAt appointment) (endAt appointment)
                 (type appointment) (notes appointment)
                 (calendarEventId appointment) (status appointment) now id ;;
  mapRowToEntity_first result_rows.

Definition delete (id : string) : M bool :=
  rowCount <- query_delete id ;;
  ret (0 <? rowCount)%nat.

(** [start_at < $1 AND end_at > $2 AND status IN (...)], with [$1 = endAt]
    and [$2 = startAt], and [AND id != $3] when [excludeId] is truthy. *)
Definition conflicts_with (startAt endAt : Date) (excludeId : option string)
    (r : DbRow.t) : bool :=
  (DbRow.start_at r <? endAt) && (DbRow.end_at r >? startAt)
  && status_in_scheduled_confirmed (DbRow.status r)
  && (if truthy excludeId
      then negb (strict_eq (Some (DbRow.id r)) excludeId)
      else true).

Definition getConflictingAppointments
    (startAt endAt : Date) (excludeId : option string)
  : M (list AppointmentEntity) :=
  result_rows <- query_select (conflicts_with startAt endAt excludeId) ;;
  ret (map mapRowToEntity result_rows).

Definition isAvailable (startAt endAt : Date) (excludeId : option string)
  : M bool :=
  conflictingAppointments <-
    getConflictingAppointments startAt endAt excludeId ;;
  ret (Nat.eqb (List.length conflictingAppointments) 0).

(** [(email = $1 OR phone_number = $1) AND status IN (...)] *)
Definition active_with_contact (emailOrPhone : string) (r : DbRow.t) : bool :=
  (strict_eq (DbRow.email r) (Some emailOrPhone)
   || strict_eq (DbRow.phone_number r) (Some emailOrPhone))
  && status_in_scheduled_confirmed (DbRow.status r).

Definition getActiveAppointmentsByEmailOrPhone (emailOrPhone : string)
  : M (list AppointmentEntity) :=
  result_rows <- query_select (active_with_contact emailOrPhone) ;;
  ret (map mapRowToEntity (order_by_start_at result_rows)).

Definition repository : IAppointmentRepository.t :=
  IAppointmentRepository.mk create update delete findById isAvailable
    getConflictingAppointments getActiveAppointmentsByEmailOrPhone.

End PostgresAppointmentRepository.

(** ** services/appointmentService.ts *)
Module AppointmentService.

(** The erased non-null assertion [x!] where the value is handed to a
    [string] parameter; the repository below never returns an entity
    without [id]. *)
Definition non_null (x : option string) : string :=
  match x with
  | Some s => s
  | None => "undefined"
  end.

Definition lift {A : Type} (r : exn + A) : M A := fun w => (r, w).

(** [(data.email && apt.email === data.email) ||
     (data.phoneNumber && apt.phoneNumber === data.phoneNumber)] *)
Definition same_person (email' phoneNumber' : option string)
    (apt : AppointmentEntity) : bool :=
  (truthy email' && strict_eq (email apt) email')
  || (truthy phoneNumber' && strict_eq (phoneNumber apt) phoneNumber').

(** [(appointmentDateTime.getTime() - now.getTime()) / (1000 * 60 * 60)].
    The quotient is kept exact.  Epoch values of valid dates are integers
    below 2^53, the threshold of two hours is an integer number of
    milliseconds and rounding is monotone, so the comparison of the rounded
    double with 2 agrees with the comparison of the exact quotient. *)
Definition hoursUntilAppointment (appointmentDateTime now : Date) : Q :=
  (inject_Z (appointmentDateTime - now) / inject_Z (1000 * 60 * 60))%Q.

Definition Qlt_bool (x y : Q) : bool := negb (Qle_bool y x).

Definition validateAppointmentCanBeCancelled (appointment : AppointmentEntity)
  : M unit :=
  match status appointment with
  | CANCELLED =>
      throw (AppointmentCancellationError
               [Lit "Appointment is already cancelled"])
  | COMPLETED =>
      throw (AppointmentCancellationError
               [Lit "Cannot cancel completed appointments"])
  | _ =>
      let appointmentDateTime := startAt appointment in
      now <- new_Date ;;
      if Qlt_bool (hoursUntilAppointment appointmentDateTime now) 2 then
        throw (AppointmentCancellationError
                 [Lit "Cannot cancel appointments less than 2 hours before start time"])
      else ret tt
  end.

Section Service.

Variable appointmentRepository : IAppointmentRepository.t.
Variable calendarService : ICalendarService.t.

(** Calls through the two injected interfaces; each is recorded. *)
Definition repo_getConflictingAppointments
    (startAt endAt : Date) (excludeId : option string) :=
  record_call (Repo_getConflictingAppointments startAt endAt excludeId) ;;
  IAppointmentRepository.getConflictingAppointments
    appointmentRepository startAt endAt excludeId.

Definition repo_create (a : AppointmentEntity) :=
  record_call (Repo_create a) ;;
  IAppointmentRepository.create appointmentRepository a.

Definition repo_update (id : string) (a : AppointmentEntity) :=
  record_call (Repo_update id a) ;;
  IAppointmentRepository.update appointmentRepository id a.

Definition repo_delete (id : string) :=
  record_call (Repo_delete id) ;;
  IAppointmentRepository.delete appointmentRepository id.

Definition repo_findById (id : string) :=
  record_call (Repo_findById id) ;;
  IAppointmentRepository.findById appointmentRepository id.

Definition repo_getActiveAppointmentsByEmailOrPhone (emailOrPhone : string) :=
  record_call (Repo_getActiveAppointmentsByEmailOrPhone emailOrPhone) ;;
  IAppointmentRepository.getActiveAppointmentsByEmailOrPhone
    appointmentRepository emailOrPhone.

Definition cal_createCalendarEvent (a : AppointmentEntity) : M string :=
  record_call (Cal_createCalendarEvent a) ;;
  lift (ICalendarService.createCalendarEvent calendarService a).

Definition cal_updateCalendarEvent (eventId : string)
    (a : AppointmentEntity) : M unit :=
  record_call (Cal_updateCalendarEvent eventId a) ;;
  lift (ICalendarService.updateCalendarEvent calendarService eventId a).

Definition cal_deleteCalendarEvent (eventId : string) : M unit :=
  record_call (Cal_deleteCalendarEvent eventId) ;;
  lift (ICalendarService.deleteCalendarEvent calendarService eventId).

Definition getActiveAppointmentsByEmailOrPhone (emailOrPhone : string)
  : M (list AppointmentEntity) :=
  repo_getActiveAppointmentsByEmailOrPhone emailOrPhone.

Definition createAppointment (data : ScheduleRequest.t)
  : M AppointmentEntity :=
  let startAt' := ScheduleRequest.startAt data in
  let endAt' := ScheduleRequest.endAt data in
  conflictingAppointments <-
    repo_getConflictingAppointments startAt' endAt' None ;;
  if (0 <? List.length conflictingAppointments)%nat then
    let samePersonConflict :=
      find (same_person (ScheduleRequest.email data)
                        (ScheduleRequest.phoneNumber data))
           conflictingAppointments in
    match samePersonConflict with
    | Some _ =>
        throw (TimeSlotUnavailableError
                 [Lit "You already have an appointment scheduled during this time slot from ";
                  IsoString startAt'; Lit " to "; IsoString endAt'])
    | None =>
        throw (TimeSlotUnavailableError
                 [Lit "Time slot from "; IsoString startAt'; Lit " to ";
                  IsoString endAt'; Lit " is already booked"])
    end
  else
    now <- new_Date ;;
    let appointment := AppointmentEntity_fromRequest data now in
    createdAppointment <- repo_create appointment ;;
    try_catch
      (let appointmentForCalendar := createdAppointment in
       eventId <- cal_createCalendarEvent appointmentForCalendar ;;
       (* createdAppointment.setCalendarEventId(eventId) *)
       now' <- new_Date ;;
       let createdAppointment' :=
         set_updatedAt (Some now')
           (set_calendarEventId (Some eventId) createdAppointment) in
       updatedAppointment <-
         repo_update (non_null (id createdAppointment')) createdAppointment' ;;
       ret updatedAppointment)
      (fun calendarError =>
         try_catch
           (repo_delete (non_null (id createdAppointment)) ;; ret tt)
           (fun deleteError => ret tt) ;;
         throw (Error
                  (Lit "Failed to create calendar event: "
                   :: (if instanceof_Error calendarError
                       then exn_message calendarError
                       else [Lit "Unknown error"])))).

Definition editAppointment (appointmentId : string)
    (data : PartialRequest.t) : M (option AppointmentEntity) :=
  found <- repo_findById appointmentId ;;
  match found with
  | None =>
      throw (NotFoundError
               [Lit "Appointment with ID "; Lit appointmentId;
                Lit " not found"])
  | Some appointment =>
      match PartialRequest.startAt data, PartialRequest.endAt data with
      | Some startAt', Some endAt' =>
          conflictingAppointments <-
            repo_getConflictingAppointments startAt' endAt'
                                            (Some appointmentId) ;;
          if (0 <? List.length conflictingAppointments)%nat then
            let samePersonConflict :=
              find (same_person (email appointment)
                                (phoneNumber appointment))
                   conflictingAppointments in
            match samePersonConflict with
            | Some _ =>
                throw (TimeSlotUnavailableError
                         [Lit "You already have another appointment scheduled during this time slot from ";
                          IsoString startAt'; Lit " to "; IsoString endAt'])
            | None =>
                throw (TimeSlotUnavailableError
                         [Lit "Time slot conflict: The new time slot is already booked."])
            end
          else ret tt
      | _, _ => ret tt
      end ;;
      now <- new_Date ;;
      let updatedAppointmentData :=
        {| id := id appointment;
           firstName := firstName appointment;
           lastName := lastName appointment;
           email := email appointment;
           phoneNumber := phoneNumber appointment;
           startAt := match PartialRequest.startAt data with
                      | Some s => s
                      | None => startAt appointment
                      end;
           endAt := match PartialRequest.endAt data with
                    | Some e => e
                    | None => endAt appointment
                    end;
           type := match PartialRequest.type data with
                   | Some t => t
                   | None => type appointment
                   end;
           status := status appointment;
           reason := reason appointment;
           calendarEventId := calendarEventId appointment;
           createdAt := createdAt appointment;
           updatedAt := Some now;
           notes := notes appointment |} in
      let updatedAppointment :=
        AppointmentEntity_fromAppointment updatedAppointmentData in
      dbResult <- repo_update appointmentId updatedAppointment ;;
      (if truthy (calendarEventId appointment) then
         try_catch
           (let appointmentForCalendar := dbResult in
            cal_updateCalendarEvent
              (non_null (calendarEventId appointment))
              appointmentForCalendar)
           (fun calendarError => ret tt)
       else ret tt) ;;
      ret (Some dbResult)
  end.

Definition cancelAppointment (appointmentId : string) : M bool :=
  found <- repo_findById appointmentId ;;
  match found with
  | None =>
      throw (NotFoundError
               [Lit "Appointment with ID "; Lit appointmentId;
                Lit " not found"])
  | Some appointment =>
      validateAppointmentCanBeCancelled appointment ;;
      now <- new_Date ;;
      let appointment' :=
        set_updatedAt (Some now) (set_status CANCELLED appointment) in
      repo_update appointmentId appointment' ;;
      (if truthy (calendarEventId appointment') then
         try_catch
           (cal_deleteCalendarEvent
              (non_null (calendarEventId appointment')))
           (fun calendarError => ret tt)
       else ret tt) ;;
      ret true
  end.

End Service.

End AppointmentService.

(** The wiring of [buildApp]: the service over the Postgres repository. *)
Definition createAppointment (calendarService : ICalendarService.t) :=
  AppointmentService.createAppointment
    PostgresAppointmentRepository.repository calendarService.

Definition editAppointment (calendarService : ICalendarService.t) :=
  AppointmentService.editAppointment
    PostgresAppointmentRepository.repository calendarService.

Definition cancelAppointment (calendarService : ICalendarService.t) :=
  AppointmentService.cancelAppointment
    PostgresAppointmentRepository.repository calendarService.

(** * Specification vocabulary *)

Module Pg := PostgresAppointmentRepository.

(** ** The words of the specification *)

(** Active status: scheduled or confirmed. *)
Definition is_active (s : AppointmentStatus) : bool :=
  match s with
  | SCHEDULED | CONFIRMED => true
  | CANCELLED | COMPLETED => false
  end.

(** [overlaps(a, b) = a.start < b.end AND a.end > b.start] *)
Definition overlaps (a_start a_end b_start b_end : Date) : bool :=
  (a_start <? b_end) && (a_end >? b_start).

(** What [findConflicting(start, end, excludeId?)] is to return: the active
    records overlapping [[start, end)], without the excluded id if any. *)
Definition findConflicting_spec
    (start end_ : Date) (excludeId : option string) (table : list DbRow.t)
  : list DbRow.t :=
  filter (fun r =>
            is_active (DbRow.status r)
            && overlaps (DbRow.start_at r) (DbRow.end_at r) start end_
            && match excludeId with
               | Some x => negb (String.eqb (DbRow.id r) x)
               | None => true
               end)
         table.

(** Two hours, in milliseconds. *)
Definition two_hours : Z := 2 * (1000 * 60 * 60).

(** ** What one query leaves alone *)

(** [w'] differs from [w] at most in the fault schedule. *)
Definition only_faults_consumed (w w' : World) : Prop :=
  rows w' = rows w /\ clock w' = clock w
  /\ uuid_counter w' = uuid_counter w /\ calls w' = calls w.

(** [w'] differs from [w] at most in the table, counter and schedule. *)
Definition calls_and_clock_kept (w w' : World) : Prop :=
  clock w' = clock w /\ calls w' = calls w.

(** The connection is available for the next query of [w]. *)
Definition connected (w : World) : Prop := hd false (faults w) = false.

Definition is_storage_error (e : exn) : Prop :=
  match e with
  | DatabaseError _ | TypeError _ => True
  | _ => False
  end.

(** ** Sample data *)

Definition at_time (hours minutes : Z) : Date := (hours * 60 + minutes) * 60000.

Definition id_ann : string := "11111111-1111-4111-8111-111111111111".
Definition id_bob : string := "22222222-2222-4222-8222-222222222222".
Definition id_cy : string := "33333333-3333-4333-8333-333333333333".
Definition id_ann_later : string := "44444444-4444-4444-8444-444444444444".

Definition row_ann : DbRow.t :=
  {| DbRow.id := id_ann; DbRow.first_name := "Ann"; DbRow.last_name := "Lee";
     DbRow.email := Some "ann@example.com"; DbRow.phone_number := None;
     DbRow.start_at := at_time 10 0; DbRow.end_at := at_time 11 0;
     DbRow.type := CONSULTATION; DbRow.status := SCHEDULED; DbRow.notes := [];
     DbRow.reason := None; DbRow.calendar_event_id := Some "evt-a1";
     DbRow.created_at := 0; DbRow.updated_at := None |}.

Definition row_bob : DbRow.t :=
  {| DbRow.id := id_bob; DbRow.first_name := "Bob"; DbRow.last_name := "Ray";
     DbRow.email := None; DbRow.phone_number := Some "+15550100";
     DbRow.start_at := at_time 11 0; DbRow.end_at := at_time 12 0;
     DbRow.type := FOLLOW_UP; DbRow.status := CONFIRMED; DbRow.notes := [];
     DbRow.reason := Some "review"; DbRow.calendar_event_id := None;
     DbRow.created_at := 0; DbRow.updated_at := None |}.

Definition row_cy : DbRow.t :=
  {| DbRow.id := id_cy; DbRow.first_name := "Cy"; DbRow.last_name := "Orr";
     DbRow.email := Some "cy@example.com"; DbRow.phone_number := None;
     DbRow.start_at := at_time 14 0; DbRow.end_at := at_time 15 0;
     DbRow.type := CHECK_UP; DbRow.status := CANCELLED; DbRow.notes := [];
     DbRow.reason := None; DbRow.calendar_event_id := None;
     DbRow.created_at := 0; DbRow.updated_at := Some 1 |}.

Definition row_ann_later : DbRow.t :=
  {| DbRow.id := id_ann_later; DbRow.first_name := "Ann"; DbRow.last_name := "Lee";
     DbRow.email := Some "ann@example.com"; DbRow.phone_number := None;
     DbRow.start_at := at_time 16 0; DbRow.end_at := at_time 17 0;
     DbRow.type := FOLLOW_UP; DbRow.status := SCHEDULED; DbRow.notes := [];
     DbRow.reason := None; DbRow.calendar_event_id := None;
     DbRow.created_at := 0; DbRow.updated_at := None |}.

(** A table of four rows, read at time [now], connection up. *)
Definition sample_world (now : Date) : World :=
  {| rows := [row_ann; row_bob; row_cy; row_ann_later]; faults := [];
     clock := now; uuid_counter := 4; calls := [] |}.

Definition empty_world : World :=
  {| rows := []; faults := []; clock := at_time 8 0; uuid_counter := 0;
     calls := [] |}.

(** A calendar whose every operation resolves, and one whose every
    operation rejects. *)
Definition calendar_up : ICalendarService.t :=
  ICalendarService.mk (fun _ => inr "evt-new") (fun _ _ => inr tt)
                      (fun _ => inr tt).

Definition calendar_down : ICalendarService.t :=
  ICalendarService.mk (fun _ => inl (Error [Lit "Calendar API error"]))
                      (fun _ _ => inl (Error [Lit "Calendar API error"]))
                      (fun _ => inl (Error [Lit "Calendar API error"])).

Definition request (email' phone' : option string) (start end_ : Date)
  : ScheduleRequest.t :=
  ScheduleRequest.mk "Dee" "Fay" email' phone' start end_ CONSULTATION []
                     None None.

(** ** What [update] may and may not change *)

Definition immutable_columns_kept (r r' : DbRow.t) : Prop :=
  DbRow.id r' = DbRow.id r
  /\ DbRow.first_name r' = DbRow.first_name r
  /\ DbRow.last_name r' = DbRow.last_name r
  /\ DbRow.email r' = DbRow.email r
  /\ DbRow.phone_number r' = DbRow.phone_number r
  /\ DbRow.reason r' = DbRow.reason r
  /\ DbRow.created_at r' = DbRow.created_at r.

Definition mutable_columns_replaced
    (a : AppointmentEntity) (now : Date) (r' : DbRow.t) : Prop :=
  DbRow.start_at r' = startAt a
  /\ DbRow.end_at r' = endAt a
  /\ DbRow.type r' = type a
  /\ DbRow.notes r' = notes a
  /\ DbRow.calendar_event_id r' = calendarEventId a
  /\ DbRow.status r' = status a
  /\ DbRow.updated_at r' = Some now.

(** [table'] is [table] with the mutable columns of the rows of [id']
    replaced from [a], and everything else as it was. *)
Definition updated_table (id' : string) (a : AppointmentEntity) (now : Date)
    (table table' : list DbRow.t) : Prop :=
  Forall2 (fun r r' =>
             if Pg.has_id id' r
             then immutable_columns_kept r r' /\ mutable_columns_replaced a now r'
             else r' = r)
          table table'.

(** The SET clause of [update id' a] run at [now]. *)
Definition set_from (a : AppointmentEntity) (now : Date) : DbRow.t -> DbRow.t :=
  Pg.set_columns (startAt a) (endAt a) (type a) (notes a)
                 (calendarEventId a) (status a) now.

Definition map_rows_of (id' : string) (f : DbRow.t -> DbRow.t)
    (table : list DbRow.t) : list DbRow.t :=
  map (fun r => if Pg.has_id id' r then f r else r) table.

(** An id no row of the samples has. *)
Definition missing_id : string := "00000000-0000-0000-0000-000000000000".

(** [row_ann] moved to 12:00-13:00 as a check-up. *)
Definition ann_moved : AppointmentEntity :=
  {| id := Some id_ann; firstName := "Ann"; lastName := "Lee";
     email := Some "ann@example.com"; phoneNumber := None;
     startAt := at_time 12 0; endAt := at_time 13 0; type := CHECK_UP;
     status := SCHEDULED; reason := None; calendarEventId := Some "evt-a1";
     createdAt := Some 0; updatedAt := None; notes := [] |}.

(** Earliest start first. *)
Definition start_at_le (r r' : DbRow.t) : Prop :=
  DbRow.start_at r <= DbRow.start_at r'.

(** ** The engine's calls and messages *)

(** The world after the call [c] has been recorded. *)
Definition logged (c : Call) (w : World) : World :=
  set_calls (calls w ++ [c]) w.

Definition is_store_write (c : Call) : bool :=
  match c with
  | Repo_create _ | Repo_update _ _ | Repo_delete _ => true
  | _ => false
  end.

(** The requester-directed and the generic message of [createAppointment]. *)
Definition you_already_have_message (start end_ : Date) : message :=
  [Lit "You already have an appointment scheduled during this time slot from ";
   IsoString start; Lit " to "; IsoString end_].

Definition already_booked_message (start end_ : Date) : message :=
  [Lit "Time slot from "; IsoString start; Lit " to "; IsoString end_;
   Lit " is already booked"].

(** Some conflicting record carries the email or the phone number that the
    request carries. *)
Definition shares_contact (data : ScheduleRequest.t)
    (conflicting : list AppointmentEntity) : Prop :=
  exists apt,
    In apt conflicting
    /\ ((exists x, ScheduleRequest.email data = Some x /\ email apt = Some x)
        \/ (exists x, ScheduleRequest.phoneNumber data = Some x
                      /\ phoneNumber apt = Some x)).

(** The message of the error thrown when calendar creation fails. *)
Definition failed_to_create_message (calendarError : exn) : message :=
  Lit "Failed to create calendar event: "
  :: (if instanceof_Error calendarError
      then exn_message calendarError
      else [Lit "Unknown error"]).

(** Entities read from the table never carry an empty email or phone. *)
Definition contacts_normalised (apt : AppointmentEntity) : Prop :=
  email apt <> Some "" /\ phoneNumber apt <> Some "".

(** Ann again, asking for 10:30 to 11:30. *)
Definition request_ann_overlapping : ScheduleRequest.t :=
  request (Some "ann@example.com") None (at_time 10 30) (at_time 11 30).

(** A newcomer asking for the free slot 12:00 to 13:00. *)
Definition request_free_slot : ScheduleRequest.t :=
  request (Some "dee@example.com") None (at_time 12 0) (at_time 13 0).

(** A newcomer asking for 14:00 to 15:00, the slot of the cancelled
    [row_cy]. *)
Definition request_cancelled_slot : ScheduleRequest.t :=
  request (Some "dee@example.com") None (at_time 14 0) (at_time 15 0).

(** The sample table on a pool whose third query fails. *)
Definition sample_world_third_query_fails : World :=
  {| rows := [row_ann; row_bob; row_cy; row_ann_later];
     faults := [false; false; true];
     clock := 0; uuid_counter := 4; calls := [] |}.

(** What the store returns for [request_free_slot] created at time 0 as the
    fifth row. *)
Definition row_dee : DbRow.t :=
  {| DbRow.id := "00000000-0000-4000-8000-000000000004"; DbRow.first_name := "Dee"; DbRow.last_name := "Fay";
     DbRow.email := Some "dee@example.com"; DbRow.phone_number := None;
     DbRow.start_at := at_time 12 0; DbRow.end_at := at_time 13 0;
     DbRow.type := CONSULTATION; DbRow.status := SCHEDULED; DbRow.notes := [];
     DbRow.reason := None; DbRow.calendar_event_id := None;
     DbRow.created_at := 0; DbRow.updated_at := None |}.

(** ** The engine's intermediate values *)

(** The record [editAppointment] builds from the found [appointment] and the
    payload [data] at time [now], and hands to the store. *)
Definition rescheduled (appointment : AppointmentEntity)
    (data : PartialRequest.t) (now : Date) : AppointmentEntity :=
  AppointmentEntity_fromAppointment
    {| id := id appointment;
       firstName := firstName appointment;
       lastName := lastName appointment;
       email := email appointment;
       phoneNumber := phoneNumber appointment;
       startAt := match PartialRequest.startAt data with
                  | Some s => s
                  | None => startAt appointment
                  end;
       endAt := match PartialRequest.endAt data with
                | Some e => e
                | None => endAt appointment
                end;
       type := match PartialRequest.type data with
               | Some t => t
               | None => type appointment
               end;
       status := status appointment;
       reason := reason appointment;
       calendarEventId := calendarEventId appointment;
       createdAt := createdAt appointment;
       updatedAt := Some now;
       notes := notes appointment |}.

(** The record [cancelAppointment] hands to the store. *)
Definition cancelled_at (appointment : AppointmentEntity) (now : Date)
  : AppointmentEntity :=
  set_updatedAt (Some now) (set_status CANCELLED appointment).

(** The conflict check of [editAppointment] runs from [w1] to [w2] and
    finds nothing: either the payload lacks one end of the interval and no
    query is made, or the query returns no record. *)
Definition conflict_check_passes (appointmentId : string)
    (data : PartialRequest.t) (w1 w2 : World) : Prop :=
  match PartialRequest.startAt data, PartialRequest.endAt data with
  | Some startAt', Some endAt' =>
      AppointmentService.repo_getConflictingAppointments
        Pg.repository startAt' endAt' (Some appointmentId) w1
      = (inr [], w2)
  | _, _ => w2 = w1
  end.

(** What remains of [editAppointment] once the record is found and the
    conflict check has passed. *)
Definition editAppointment_write (cal : ICalendarService.t)
    (appointmentId : string) (appointment updatedAppointment : AppointmentEntity)
  : M (option AppointmentEntity) :=
  dbResult <- AppointmentService.repo_update Pg.repository appointmentId
                                             updatedAppointment ;;
  (if truthy (calendarEventId appointment) then
     try_catch
       (AppointmentService.cal_updateCalendarEvent cal
          (AppointmentService.non_null (calendarEventId appointment)) dbResult)
       (fun calendarError => ret tt)
   else ret tt) ;;
  ret (Some dbResult).

(** What remains of [cancelAppointment] once the record is found and has
    passed validation. *)
Definition cancelAppointment_write (cal : ICalendarService.t)
    (appointmentId : string) (appointment' : AppointmentEntity) : M bool :=
  AppointmentService.repo_update Pg.repository appointmentId appointment' ;;
  (if truthy (calendarEventId appointment') then
     try_catch
       (AppointmentService.cal_deleteCalendarEvent cal
          (AppointmentService.non_null (calendarEventId appointment')))
       (fun calendarError => ret tt)
   else ret tt) ;;
  ret true.

(** The rejection condition of cancellation, on the found appointment. *)
Definition cancellation_rejected (appointment : AppointmentEntity)
    (now : Date) : Prop :=
  status appointment = CANCELLED
  \/ status appointment = COMPLETED
  \/ startAt appointment - now < two_hours.

(** The calendar calls made after the store write of a reschedule and of a
    cancellation. *)
Definition calendar_update_calls (appointment dbResult : AppointmentEntity)
  : list Call :=
  if truthy (calendarEventId appointment)
  then [Cal_updateCalendarEvent
          (AppointmentService.non_null (calendarEventId appointment)) dbResult]
  else [].

Definition calendar_delete_calls (appointment : AppointmentEntity)
  : list Call :=
  if truthy (calendarEventId appointment)
  then [Cal_deleteCalendarEvent
          (AppointmentService.non_null (calendarEventId appointment))]
  else [].

(** What remains of [createAppointment] once the conflict query has found
    nothing: persist, synchronise, compensate. *)
Definition createAppointment_write (cal : ICalendarService.t)
    (data : ScheduleRequest.t) : M AppointmentEntity :=
  now <- new_Date ;;
  createdAppointment <-
    AppointmentService.repo_create Pg.repository
      (AppointmentEntity_fromRequest data now) ;;
  try_catch
    (eventId <- AppointmentService.cal_createCalendarEvent cal
                  createdAppointment ;;
     now' <- new_Date ;;
     let createdAppointment' :=
       set_updatedAt (Some now')
         (set_calendarEventId (Some eventId) createdAppointment) in
     updatedAppointment <-
       AppointmentService.repo_update Pg.repository
         (AppointmentService.non_null (id createdAppointment'))
         createdAppointment' ;;
     ret updatedAppointment)
    (fun calendarError =>
       try_catch
         (AppointmentService.repo_delete Pg.repository
            (AppointmentService.non_null (id createdAppointment)) ;;
          ret tt)
         (fun deleteError => ret tt) ;;
       throw (Error (failed_to_create_message calendarError))).

(** The calls in [new] write nothing to the store. *)
Definition no_store_write (new : list Call) : Prop :=
  Forall (fun c => is_store_write c = false) new.

(** [w'] has the rows of [w] and only calls that write nothing were added. *)
Definition store_untouched (w w' : World) : Prop :=
  rows w' = rows w
  /\ exists new, calls w' = (calls w ++ new)%list /\ no_store_write new.

(** Every row of [id'] in [table] carries the interval, type and status of
    the record [u]. *)
Definition holds_record (id' : string) (u : AppointmentEntity)
    (table : list DbRow.t) : Prop :=
  Forall (fun r =>
            Pg.has_id id' r = true ->
            DbRow.start_at r = startAt u /\ DbRow.end_at r = endAt u
            /\ DbRow.type r = type u /\ DbRow.status r = status u)
         table.

(** A table without the row of [id_ann]. *)
Definition world_without_ann : World :=
  {| rows := [row_bob; row_cy]; faults := []; clock := 0; uuid_counter := 4;
     calls := [] |}.

(** A reschedule payload that moves to 12:00-13:00 as a check-up and also
    tries to set the name, the email and the notes. *)
Definition payload_move_and_overpost : PartialRequest.t :=
  PartialRequest.mk (Some "Hacker") None (Some "hacker@evil.com") None
                    (Some (at_time 12 0)) (Some (at_time 13 0))
                    (Some CHECK_UP)
                    (Some [("description", JString "Malicious notes")])
                    None None.

(** A payload that moves to 16:30-17:30, into [row_ann_later]. *)
Definition payload_conflicting : PartialRequest.t :=
  PartialRequest.mk None None None None
                    (Some (at_time 16 30)) (Some (at_time 17 30))
                    None None None None.

(** A payload that moves to 14:00-15:00, the slot of the cancelled
    [row_cy]. *)
Definition payload_cancelled_slot : PartialRequest.t :=
  PartialRequest.mk None None None None
                    (Some (at_time 14 0)) (Some (at_time 15 0))
                    None None None None.

(** The translation asked of the engine: a constraint failure of the store
    create, met after the conflict query found nothing, would reach the
    caller as a [TimeSlotUnavailableError]. *)
Definition constraint_failure_surfaces_as_SlotConflict : Prop :=
  forall (cal : ICalendarService.t) (data : ScheduleRequest.t)
         (w w1 w2 : World) (constraint : string),
    AppointmentService.repo_getConflictingAppointments Pg.repository
      (ScheduleRequest.startAt data) (ScheduleRequest.endAt data) None w
    = (inr [], w1) ->
    AppointmentService.repo_create Pg.repository
      (AppointmentEntity_fromRequest data (clock w1)) w1
    = (inl (DatabaseError (UniqueViolation constraint)), w2) ->
    exists m,
      fst (createAppointment cal data w) = inl (TimeSlotUnavailableError m).

(** The properties of an appointment that a reschedule must keep: all but
    [startAt], [endAt], [type] and [updatedAt]. *)
Definition kept_fields (a : AppointmentEntity) :=
  (id a, firstName a, lastName a, email a, phoneNumber a, status a,
   reason a, calendarEventId a, createdAt a, notes a).

(** The same for a row, the calendar event id as the entity shows it. *)
Definition kept_columns (r : DbRow.t) :=
  (DbRow.id r, DbRow.first_name r, DbRow.last_name r, DbRow.email r,
   DbRow.phone_number r, DbRow.status r, DbRow.notes r, DbRow.reason r,
   or_null (DbRow.calendar_event_id r), DbRow.created_at r).

Module Svc := AppointmentService.

(** ** Further vocabulary: the store *)

(** No connection failure is scheduled: every query of [w] and of the
    worlds that follow it reaches the database. *)
Definition no_faults (w : World) : Prop := faults w = [].

(** The value fits a [varchar(150)] column, as it is or with its excess
    spaces cut. *)
Definition fits_varchar_150 (s : string) : Prop := Pg.varchar 150 s <> None.

(** No row of [table] has the slot [(start_at, end_at)]. *)
Definition slot_free (start_at end_at : Date) (table : list DbRow.t) : Prop :=
  forall r, In r table ->
            ~ (DbRow.start_at r = start_at /\ DbRow.end_at r = end_at).

(** No row of [table] has the id [id']. *)
Definition id_absent (id' : string) (table : list DbRow.t) : Prop :=
  forall r, In r table -> DbRow.id r <> id'.

(** A new appointment for Dee, 12:00 to 13:00, as [createAppointment] hands
    it to the store at time 0. *)
Definition entity_dee : AppointmentEntity :=
  AppointmentEntity_fromRequest request_free_slot 0.

(** Dee's appointment once more, this time handed to the store marked as
    cancelled. *)
Definition entity_dee_cancelled : AppointmentEntity :=
  set_status CANCELLED entity_dee.

(** The row of the appointment requested by [data], under the id [id'],
    created at [created_at], with the given calendar event id and
    modification time. *)
Definition row_for (data : ScheduleRequest.t) (id' : string)
    (created_at : Date) (calendar_event_id : option string)
    (updated_at : option Date) : DbRow.t :=
  {| DbRow.id := id';
     DbRow.first_name := ScheduleRequest.firstName data;
     DbRow.last_name := ScheduleRequest.lastName data;
     DbRow.email := or_null (ScheduleRequest.email data);
     DbRow.phone_number := or_null (ScheduleRequest.phoneNumber data);
     DbRow.start_at := ScheduleRequest.startAt data;
     DbRow.end_at := ScheduleRequest.endAt data;
     DbRow.type := ScheduleRequest.type data;
     DbRow.status := SCHEDULED;
     DbRow.notes := ScheduleRequest.notes data;
     DbRow.reason := or_null (ScheduleRequest.reason data);
     DbRow.calendar_event_id := calendar_event_id;
     DbRow.created_at := created_at;
     DbRow.updated_at := updated_at |}.

(** No active row of [table] overlaps [[start, end_)]. *)
Definition no_active_row_overlaps (start end_ : Date) (table : list DbRow.t)
  : Prop :=
  forall r, In r table ->
            is_active (DbRow.status r) = true ->
            overlaps (DbRow.start_at r) (DbRow.end_at r) start end_ = false.

(** [row_dee] once the calendar event "evt-new" is attached at time 0. *)
Definition row_dee_booked : DbRow.t :=
  row_for request_free_slot (Pg.gen_random_uuid 4) 0 (Some "evt-new") (Some 0).

(** A payload that only moves the end, to 11:30. *)
Definition payload_end_only : PartialRequest.t :=
  PartialRequest.mk None None None None None (Some (at_time 11 30))
                    None None None None.

(** ** Further vocabulary: the table's constraints *)

Definition slot (r : DbRow.t) : Date * Date := (DbRow.start_at r, DbRow.end_at r).

(** The constraints of the [appointments] table: primary key on [id],
    [appointments_time_range], [appointments_contact_required],
    [appointments_unique_slot]. *)
Definition satisfies_constraints (table : list DbRow.t) : Prop :=
  NoDup (map DbRow.id table)
  /\ (forall r, In r table ->
                DbRow.start_at r < DbRow.end_at r
                /\ (DbRow.email r <> None \/ DbRow.phone_number r <> None))
  /\ NoDup (map slot table).

(** The row [r] once cancelled at [now]. *)
Definition cancelled_row (now : Date) (r : DbRow.t) : DbRow.t :=
  {| DbRow.id := DbRow.id r;
     DbRow.first_name := DbRow.first_name r;
     DbRow.last_name := DbRow.last_name r;
     DbRow.email := DbRow.email r;
     DbRow.phone_number := DbRow.phone_number r;
     DbRow.start_at := DbRow.start_at r;
     DbRow.end_at := DbRow.end_at r;
     DbRow.type := DbRow.type r;
     DbRow.status := CANCELLED;
     DbRow.notes := DbRow.notes r;
     DbRow.reason := DbRow.reason r;
     DbRow.calendar_event_id := or_null (DbRow.calendar_event_id r);
     DbRow.created_at := DbRow.created_at r;
     DbRow.updated_at := Some now |}.

(** ** Further vocabulary: double booking *)

(** Two rows do not double-book: they are not both active with overlapping
    intervals. *)
Definition compatible (r r' : DbRow.t) : Prop :=
  is_active (DbRow.status r) = true ->
  is_active (DbRow.status r') = true ->
  overlaps (DbRow.start_at r) (DbRow.end_at r) (DbRow.start_at r') (DbRow.end_at r')
  = false.

(** No two rows of the table, at different places, double-book. *)
Definition no_double_booking (table : list DbRow.t) : Prop :=
  ForallOrdPairs compatible table.

(** A payload that changes the type only. *)
Definition payload_type_only : PartialRequest.t :=
  PartialRequest.mk None None None None None None (Some THERAPY) None None
                    None.

(** ** utils/errorHandler.ts

    What a handler passes to [reply.send]: [success] is [false] together
    with a code in a failure, and the string [true] otherwise. *)
Module FastifyReply.
Inductive payload : Type :=
| failure (code : string) (message : message)
| done (message : message).

(** A reply that has been sent; [reply.send] without [reply.code] leaves the
    status at 200. *)
Record t : Type := mk {
  statusCode : Z;
  sent : payload
}.
End FastifyReply.

Definition instanceof_ValidationError (e : exn) : bool :=
  match e with ValidationError _ => true | _ => false end.

Definition instanceof_ConflictError (e : exn) : bool :=
  match e with ConflictError _ => true | _ => false end.

Definition instanceof_NotFoundError (e : exn) : bool :=
  match e with NotFoundError _ => true | _ => false end.

Definition instanceof_AppointmentCancellationError (e : exn) : bool :=
  match e with AppointmentCancellationError _ => true | _ => false end.

Definition instanceof_TimeSlotUnavailableError (e : exn) : bool :=
  match e with TimeSlotUnavailableError _ => true | _ => false end.

Definition instanceof_PastDateError (e : exn) : bool :=
  match e with PastDateError _ => true | _ => false end.

(** [handleApiError(error, reply)]: [Some r] when the reply [r] is sent and
    [true] returned, [None] when nothing is sent and [false] returned. *)
Definition handleApiError (error : exn) : option FastifyReply.t :=
  let failed :=
    FastifyReply.mk 200
      (FastifyReply.failure (AppointmentService.non_null (code error))
                            (exn_message error)) in
  if instanceof_ValidationError error then Some failed
  else if instanceof_ConflictError error then Some failed
  else if instanceof_NotFoundError error then Some failed
  else if instanceof_AppointmentCancellationError error then Some failed
  else if instanceof_TimeSlotUnavailableError error then Some failed
  else if instanceof_PastDateError error then Some failed
  else None.

(** [withErrorHandling(handlerFn)], for a handler that sends its one reply
    as its last step: the reply sent is the result. *)
Definition withErrorHandling (handlerFn : M FastifyReply.t)
  : M FastifyReply.t :=
  try_catch handlerFn
    (fun error =>
       match handleApiError error with
       | Some r => ret r
       | None => throw error
       end).

(** ** handlers/ScheduleHandlers.ts

    [handleRetellWebhook], which [withErrorHandling] wraps, checks the
    signature, dispatches on the function name and awaits one of the
    handlers; an error thrown by a handler reaches the wrapper as it is.
    The two handlers that call the engine with plain arguments are
    embedded here; the signature check and the dispatch are not. *)

(** The string value of a member of the enum [AppointmentType]. *)
Definition AppointmentType_value (t : AppointmentType) : string :=
  match t with
  | CONSULTATION => "consultation"
  | FOLLOW_UP => "follow_up"
  | CHECK_UP => "check_up"
  | EMERGENCY => "emergency"
  | VACCINATION => "vaccination"
  | SCREENING => "screening"
  | THERAPY => "therapy"
  | SURGERY => "surgery"
  | DIAGNOSTIC => "diagnostic"
  | PREVENTIVE => "preventive"
  | SPECIALIST => "specialist"
  | ROUTINE => "routine"
  end.

Module ScheduleHandlers.
Section Handlers.

Variable calendarService : ICalendarService.t.

(** [new Date(s)] for a string [s]; [None] is an invalid date, whose
    [getTime()] is [NaN]. *)
Variable Date_parse : string -> option Date.

Definition reply_failure (code : string) (m : message) : FastifyReply.t :=
  FastifyReply.mk 200 (FastifyReply.failure code m).

Definition reply_done (m : message) : FastifyReply.t :=
  FastifyReply.mk 200 (FastifyReply.done m).

(** [handleRescheduleAppointment(call, args, reply)], for [args] whose
    [appointmentId], [startAt] and [endAt] are strings or absent and whose
    [type] is a member of the enum or absent. *)
Definition handleRescheduleAppointment
    (appointmentId startAt endAt : option string)
    (type : option AppointmentType) : M FastifyReply.t :=
  if negb (truthy appointmentId) then
    ret (reply_failure "MISSING_APPOINTMENT_ID"
                       [Lit "appointmentId is required"])
  else if negb (truthy startAt) || negb (truthy endAt) then
    ret (reply_failure "MISSING_DATES" [Lit "startAt and endAt are required"])
  else
    match Date_parse (AppointmentService.non_null startAt),
          Date_parse (AppointmentService.non_null endAt) with
    | Some startDate, Some endDate =>
        let updateData :=
          PartialRequest.mk None None None None
                            (Some startDate) (Some endDate) type
                            None None None in
        updatedAppointment <-
          editAppointment calendarService
            (AppointmentService.non_null appointmentId) updateData ;;
        match updatedAppointment with
        | None =>
            ret (reply_failure "APPOINTMENT_NOT_FOUND"
                   [Lit "Appointment ";
                    Lit (AppointmentService.non_null appointmentId);
                    Lit " not found"])
        | Some _ =>
            let message :=
              match type with
              | Some t =>
                  [Lit "Appointment ";
                   Lit (AppointmentService.non_null appointmentId);
                   Lit " rescheduled to "; IsoString startDate; Lit " - ";
                   IsoString endDate; Lit " and changed to ";
                   Lit (AppointmentType_value t)]
              | None =>
                  [Lit "Appointment ";
                   Lit (AppointmentService.non_null appointmentId);
                   Lit " rescheduled to "; IsoString startDate; Lit " - ";
                   IsoString endDate]
              end in
            ret (reply_done message)
        end
    | _, _ =>
        ret (reply_failure "INVALID_DATE"
               [Lit "startAt and endAt must be valid date strings"])
    end.

(** [handleCancelAppointment(call, args, reply)], for [args] whose
    [appointmentId] is a string or absent. *)
Definition handleCancelAppointment (appointmentId : option string)
  : M FastifyReply.t :=
  if negb (truthy appointmentId) then
    ret (reply_failure "MISSING_APPOINTMENT_ID"
                       [Lit "appointmentId is required"])
  else
    cancelAppointment calendarService
      (AppointmentService.non_null appointmentId) ;;
    ret (reply_done
           [Lit "Appointment ";
            Lit (AppointmentService.non_null appointmentId);
            Lit " cancelled successfully"]).

End Handlers.
End ScheduleHandlers.

(** The codes of the failures that a reschedule request can be answered
    with, and those of a cancellation request. *)
Definition reschedule_failure_codes : list string :=
  ["MISSING_APPOINTMENT_ID"; "MISSING_DATES"; "INVALID_DATE"; "NOT_FOUND";
   "TIME_SLOT_UNAVAILABLE"].

Definition cancel_failure_codes : list string :=
  ["MISSING_APPOINTMENT_ID"; "NOT_FOUND"; "APPOINTMENT_CANCELLATION_ERROR"].


(** * Properties *)

Lemma only_faults_consumed_refl (w : World) : only_faults_consumed w w.
Proof. repeat split. Qed.

Lemma only_faults_consumed_trans (w1 w2 w3 : World) :
  only_faults_consumed w1 w2 -> only_faults_consumed w2 w3 ->
  only_faults_consumed w1 w3.
Proof.
  intros (a & b & c & d) (a' & b' & c' & d').
  repeat split; congruence.
Qed.

Lemma pool_connect_cases (w : World) :
  exists w',
    only_faults_consumed w w'
    /\ ((connected w /\ Pg.pool_connect w = (inr tt, w'))
        \/ (~ connected w
            /\ Pg.pool_connect w = (inl (DatabaseError ConnectionError), w'))).
Proof.
  unfold Pg.pool_connect, connected.
  destruct (faults w) as [|[|] fs] eqn:E; simpl.
  - exists w. split; [apply only_faults_consumed_refl | left; auto].
  - exists (set_faults fs w). split; [repeat split | right; split; auto].
    discriminate.
  - exists (set_faults fs w). split; [repeat split | left; auto].
Qed.

Lemma query_select_cases (p : DbRow.t -> bool) (w : World) :
  exists w',
    only_faults_consumed w w'
    /\ ((connected w /\ Pg.query_select p w = (inr (filter p (rows w)), w'))
        \/ (~ connected w
            /\ Pg.query_select p w = (inl (DatabaseError ConnectionError), w'))).
Proof.
  destruct (pool_connect_cases w) as (w' & K & [[C E] | [C E]]);
    exists w'; (split; [exact K|]).
  - left. split; [exact C|].
    unfold Pg.query_select, bind. rewrite E.
    destruct K as (R & _). now rewrite R.
  - right. split; [exact C|].
    unfold Pg.query_select, bind. now rewrite E.
Qed.

(** ** The conflict query *)

(** Ids handed out by the store are never empty. *)
Lemma gen_random_uuid_not_empty (n : nat) : Pg.gen_random_uuid n <> "".
Proof. unfold Pg.gen_random_uuid. simpl. discriminate. Qed.

Lemma is_empty_true (s : string) : is_empty s = true <-> s = "".
Proof. destruct s; simpl; split; congruence. Qed.

Lemma conflicts_with_spec (startAt endAt : Date) (excludeId : option string)
    (r : DbRow.t) :
  DbRow.id r <> "" ->
  Pg.conflicts_with startAt endAt excludeId r
  = is_active (DbRow.status r)
    && overlaps (DbRow.start_at r) (DbRow.end_at r) startAt endAt
    && match excludeId with
       | Some x => negb (String.eqb (DbRow.id r) x)
       | None => true
       end.
Proof.
  intros Hid. unfold Pg.conflicts_with, overlaps.
  replace (Pg.status_in_scheduled_confirmed (DbRow.status r))
    with (is_active (DbRow.status r)) by (destruct (DbRow.status r); reflexivity).
  set (o := (DbRow.start_at r <? endAt) && (DbRow.end_at r >? startAt)).
  rewrite (andb_comm (is_active _) o).
  f_equal.
  destruct excludeId as [x|]; simpl; [|reflexivity].
  destruct (is_empty x) eqn:E; simpl; [|reflexivity].
  apply is_empty_true in E. subst x.
  symmetry. apply negb_true_iff. apply String.eqb_neq. exact Hid.
Qed.

Lemma mapRowToEntity_startAt (r : DbRow.t) :
  startAt (Pg.mapRowToEntity r) = DbRow.start_at r.
Proof. reflexivity. Qed.

Lemma mapRowToEntity_endAt (r : DbRow.t) :
  endAt (Pg.mapRowToEntity r) = DbRow.end_at r.
Proof. reflexivity. Qed.

(** C1.  On a table whose ids are not empty (they are uuids) and with the
    connection up, [getConflictingAppointments] returns exactly the entities
    of the active rows whose interval overlaps the queried one under
    [start_at < endAt AND end_at > startAt], the row of [excludeId] left out,
    and changes no row; no returned appointment ends where the queried
    interval starts or starts where it ends. *)
Theorem getConflictingAppointments_exact
    (w : World) (startAt' endAt' : Date) (excludeId : option string) :
  connected w ->
  Forall (fun r => DbRow.id r <> "") (rows w) ->
  exists w',
    Pg.getConflictingAppointments startAt' endAt' excludeId w
    = (inr (map Pg.mapRowToEntity
                (findConflicting_spec startAt' endAt' excludeId (rows w))),
       w')
    /\ rows w' = rows w
    /\ forall a,
         In a (map Pg.mapRowToEntity
                   (findConflicting_spec startAt' endAt' excludeId (rows w))) ->
         endAt a <> startAt' /\ startAt a <> endAt'.
Proof.
  intros Hc Hids.
  destruct (query_select_cases
              (Pg.conflicts_with startAt' endAt' excludeId) w)
    as (w' & K & [[_ E] | [C _]]); [|contradiction].
  exists w'. split; [|split].
  - unfold Pg.getConflictingAppointments, bind. rewrite E. unfold ret.
    do 3 f_equal. unfold findConflicting_spec.
    apply filter_ext_in. intros r Hr.
    apply conflicts_with_spec.
    rewrite Forall_forall in Hids. now apply Hids.
  - apply K.
  - intros a Ha. apply in_map_iff in Ha. destruct Ha as (r & <- & Hr).
    unfold findConflicting_spec in Hr. apply filter_In in Hr.
    destruct Hr as (_ & Hr).
    apply andb_true_iff in Hr. destruct Hr as (Hr & _).
    apply andb_true_iff in Hr. destruct Hr as (_ & Hr).
    unfold overlaps in Hr. apply andb_true_iff in Hr. destruct Hr as (H1 & H2).
    apply Z.ltb_lt in H1. rewrite Z.gtb_ltb in H2. apply Z.ltb_lt in H2.
    rewrite mapRowToEntity_startAt, mapRowToEntity_endAt. lia.
Qed.

Lemma getConflictingAppointments_exact_witness :
  exists w',
    Pg.getConflictingAppointments (at_time 11 0) (at_time 12 0) None
                                  (sample_world 0)
    = (inr (map Pg.mapRowToEntity
                (findConflicting_spec (at_time 11 0) (at_time 12 0) None
                                      (rows (sample_world 0)))),
       w')
    /\ rows w' = rows (sample_world 0)
    /\ forall a,
         In a (map Pg.mapRowToEntity
                   (findConflicting_spec (at_time 11 0) (at_time 12 0) None
                                         (rows (sample_world 0)))) ->
         endAt a <> at_time 11 0 /\ startAt a <> at_time 12 0.
Proof.
  apply getConflictingAppointments_exact.
  - reflexivity.
  - repeat constructor; discriminate.
Defined.

(** The touching neighbour [row_ann] (10:00 to 11:00) is not selected for
    11:00 to 12:00; [row_bob] is. *)
Example findConflicting_spec_sample :
  findConflicting_spec (at_time 11 0) (at_time 12 0) None
                       (rows (sample_world 0)) = [row_bob].
Proof. reflexivity. Qed.

(** ** Outcomes of the repository operations *)

Lemma getConflictingAppointments_cases
    (startAt' endAt' : Date) (excludeId : option string) (w : World) :
  exists w',
    only_faults_consumed w w'
    /\ ((connected w
         /\ Pg.getConflictingAppointments startAt' endAt' excludeId w
            = (inr (map Pg.mapRowToEntity
                        (filter (Pg.conflicts_with startAt' endAt' excludeId)
                                (rows w))), w'))
        \/ (~ connected w
            /\ Pg.getConflictingAppointments startAt' endAt' excludeId w
               = (inl (DatabaseError ConnectionError), w'))).
Proof.
  destruct (query_select_cases
              (Pg.conflicts_with startAt' endAt' excludeId) w)
    as (w' & K & [[C E] | [C E]]); exists w'; (split; [exact K|]);
    [left | right]; (split; [exact C|]);
    unfold Pg.getConflictingAppointments, bind; now rewrite E.
Qed.

Lemma findById_cases (id' : string) (w : World) :
  exists w',
    only_faults_consumed w w'
    /\ ((connected w
         /\ Pg.findById id' w
            = (inr (option_map Pg.mapRowToEntity
                               (hd_error (filter (Pg.has_id id') (rows w)))),
               w'))
        \/ (~ connected w
            /\ Pg.findById id' w = (inl (DatabaseError ConnectionError), w'))).
Proof.
  destruct (query_select_cases (Pg.has_id id') w)
    as (w' & K & [[C E] | [C E]]); exists w'; (split; [exact K|]);
    [left | right]; (split; [exact C|]);
    unfold Pg.findById, bind; rewrite E; [|reflexivity].
  now destruct (filter (Pg.has_id id') (rows w)).
Qed.

Lemma delete_cases (id' : string) (w : World) :
  exists w',
    calls_and_clock_kept w w'
    /\ ((Pg.delete id' w = (inl (DatabaseError ConnectionError), w')
         /\ rows w' = rows w)
        \/ (exists b, Pg.delete id' w = (inr b, w')
            /\ rows w' = filter (fun r => negb (Pg.has_id id' r)) (rows w))).
Proof.
  unfold Pg.delete, Pg.query_delete, bind.
  destruct (pool_connect_cases w) as (w1 & (R & T & U & C) & [[_ E] | [_ E]]);
    rewrite E.
  - eexists. split; [|right; eexists; split; [reflexivity|]].
    + split; simpl; assumption.
    + simpl. now rewrite R.
  - exists w1. split; [split; assumption | left; auto].
Qed.

Lemma create_cases (a : AppointmentEntity) (w : World) :
  exists w',
    calls_and_clock_kept w w'
    /\ ((exists e, Pg.create a w = (inl (DatabaseError e), w')
                   /\ rows w' = rows w)
        \/ (exists row, Pg.create a w = (inr (Pg.mapRowToEntity row), w')
                        /\ rows w' = (rows w ++ [row])%list)).
Proof.
  unfold Pg.create, try_catch, Pg.query_insert, bind.
  destruct (pool_connect_cases w) as (w1 & (R & T & U & C) & [[_ E] | [_ E]]);
    rewrite E.
  - destruct (Pg.varchar 150 (firstName a)) as [f|];
      [destruct (Pg.varchar 150 (lastName a)) as [l|]|];
      try (exists w1; split; [split; assumption|];
           left; eexists; split; [reflexivity | assumption]).
    destruct (Pg.is_none (or_null (email a))
              && Pg.is_none (or_null (phoneNumber a)));
      [|destruct (negb (startAt a <? endAt a));
        [|destruct (existsb (Pg.same_slot (startAt a) (endAt a)) (rows w1))]];
      try (exists w1; split; [split; assumption|];
           left; eexists; split; [reflexivity | assumption]).
    eexists. split; [|right; eexists; split; [reflexivity|]].
    + split; simpl; assumption.
    + simpl. now rewrite R.
  - exists w1. split; [split; assumption|].
    left; eexists; split; [reflexivity | assumption].
Qed.

Lemma update_cases (id' : string) (a : AppointmentEntity) (w : World) :
  exists w',
    calls_and_clock_kept w w'
    /\ ((exists e, Pg.update id' a w = (inl e, w')
                   /\ is_storage_error e /\ rows w' = rows w)
        \/ (exists r more,
               filter (Pg.has_id id') (rows w) = r :: more
               /\ Pg.update id' a w
                  = (inr (Pg.mapRowToEntity (set_from a (clock w) r)), w')
               /\ rows w' = map_rows_of id' (set_from a (clock w)) (rows w))).
Proof.
  unfold Pg.update, Pg.query_update, bind, new_Date.
  destruct (pool_connect_cases w) as (w1 & (R & T & U & C) & [[_ E] | [_ E]]);
    rewrite E; [|exists w1; split; [split; assumption|];
                 left; eexists; split; [reflexivity | split; [exact I | assumption]]].
  rewrite R.
  destruct (filter (Pg.has_id id') (rows w)) as [|r more] eqn:F.
  - exists w1. split; [split; assumption|].
    left; eexists; split; [reflexivity | split; [exact I | assumption]].
  - destruct (existsb (fun r0 => Pg.is_none (DbRow.email r0)
                                && Pg.is_none (DbRow.phone_number r0))
                      (r :: more));
      [|destruct (negb (startAt a <? endAt a));
        [|destruct (negb (Datatypes.length more =? 0)%nat
                    || existsb (Pg.same_slot (startAt a) (endAt a))
                         (filter (fun r0 => negb (Pg.has_id id' r0)) (rows w)))]];
      try (exists w1; split; [split; assumption|];
           left; eexists; split; [reflexivity | split; [exact I | assumption]]).
    eexists.
    split; [|right; exists r, more; split; [reflexivity|split; reflexivity]].
    split; simpl; assumption.
Qed.

Lemma map_rows_of_updated_table
    (id' : string) (a : AppointmentEntity) (now : Date) (table : list DbRow.t) :
  updated_table id' a now table (map_rows_of id' (set_from a now) table).
Proof.
  unfold updated_table, map_rows_of.
  induction table as [|r table IH]; simpl; constructor; [|exact IH].
  destruct (Pg.has_id id' r); [|reflexivity].
  split; repeat split.
Qed.

(** When [update] succeeds: the row of [id'] exists, is alone, has a
    contact, and the new interval is well-formed and free. *)
Lemma update_succeeds (id' : string) (a : AppointmentEntity) (w : World)
    (r : DbRow.t) :
  connected w ->
  filter (Pg.has_id id') (rows w) = [r] ->
  DbRow.email r <> None \/ DbRow.phone_number r <> None ->
  startAt a < endAt a ->
  (forall r', In r' (rows w) -> DbRow.id r' <> id' ->
              Pg.same_slot (startAt a) (endAt a) r' = false) ->
  exists w',
    Pg.update id' a w
    = (inr (Pg.mapRowToEntity (set_from a (clock w) r)), w')
    /\ rows w' = map_rows_of id' (set_from a (clock w)) (rows w)
    /\ calls_and_clock_kept w w'.
Proof.
  intros Hc Hf Hcontact Hlt Hfree.
  unfold Pg.update, Pg.query_update, bind, new_Date.
  destruct (pool_connect_cases w) as (w1 & (R & T & U & C) & [[_ E] | [N _]]);
    [|contradiction].
  rewrite E, R, Hf.
  assert (H1 : existsb (fun r0 => Pg.is_none (DbRow.email r0)
                                  && Pg.is_none (DbRow.phone_number r0)) [r]
               = false).
  { simpl. rewrite orb_false_r.
    destruct (DbRow.email r), (DbRow.phone_number r); simpl; try reflexivity.
    destruct Hcontact; congruence. }
  rewrite H1.
  assert (H2 : negb (startAt a <? endAt a) = false).
  { apply negb_false_iff. now apply Z.ltb_lt. }
  rewrite H2.
  assert (H3 : existsb (Pg.same_slot (startAt a) (endAt a))
                       (filter (fun r0 => negb (Pg.has_id id' r0)) (rows w))
               = false).
  { apply not_true_is_false. intros Hex.
    apply existsb_exists in Hex. destruct Hex as (r' & Hin & Hs).
    apply filter_In in Hin. destruct Hin as (Hin & Hn).
    rewrite (Hfree r' Hin) in Hs; [discriminate|].
    apply negb_true_iff in Hn. unfold Pg.has_id in Hn.
    now apply String.eqb_neq. }
  rewrite H3. simpl.
  eexists. split; [reflexivity|]. split; [reflexivity|].
  split; simpl; assumption.
Qed.

(** ** [update] *)

(** C8 (amended).  With the connection up, [update id' a] on a table with no
    row of [id'] fails with a [TypeError] (reading the first returned row),
    not with a not-found error, and changes no row; whenever it succeeds a
    row of [id'] exists and the table differs from the old one exactly in
    the mutable columns (interval, type, notes, calendar event id, status,
    [updated_at], the last set to the current time) of the rows of [id'];
    and it does succeed when that row is alone, has a contact and the new
    interval is well-formed and not the slot of another row. *)
Theorem update_replaces_mutable_columns
    (id' : string) (a : AppointmentEntity) (w : World) :
  connected w ->
  (filter (Pg.has_id id') (rows w) = [] ->
   exists m w', Pg.update id' a w = (inl (TypeError m), w')
                /\ rows w' = rows w)
  /\ (forall e w',
        Pg.update id' a w = (inr e, w') ->
        filter (Pg.has_id id') (rows w) <> []
        /\ updated_table id' a (clock w) (rows w) (rows w'))
  /\ (forall r,
        filter (Pg.has_id id') (rows w) = [r] ->
        DbRow.email r <> None \/ DbRow.phone_number r <> None ->
        startAt a < endAt a ->
        (forall r', In r' (rows w) -> DbRow.id r' <> id' ->
                    Pg.same_slot (startAt a) (endAt a) r' = false) ->
        exists e w',
          Pg.update id' a w = (inr e, w')
          /\ updated_table id' a (clock w) (rows w) (rows w')).
Proof.
  intros Hc. split; [|split].
  - intros Hnone.
    unfold Pg.update, Pg.query_update, bind, new_Date.
    destruct (pool_connect_cases w) as (w1 & (R & _) & [[_ E] | [N _]]);
      [|contradiction].
    rewrite E, R, Hnone. simpl. unfold throw. eauto.
  - intros e w' Hu.
    destruct (update_cases id' a w)
      as (w1 & _ & [(e' & E & _) | (r & more & F & E & R)]);
      rewrite E in Hu; [discriminate|].
    injection Hu as _ <-.
    split; [rewrite F; discriminate|].
    rewrite R. apply map_rows_of_updated_table.
  - intros r Hf Hcontact Hlt Hfree.
    destruct (update_succeeds id' a w r Hc Hf Hcontact Hlt Hfree)
      as (w' & E & R & _).
    exists (Pg.mapRowToEntity (set_from a (clock w) r)), w'.
    split; [exact E|]. rewrite R. apply map_rows_of_updated_table.
Qed.

Lemma update_replaces_mutable_columns_witness :
  exists e w',
    Pg.update id_ann ann_moved (sample_world 0) = (inr e, w')
    /\ updated_table id_ann ann_moved 0 (rows (sample_world 0)) (rows w').
Proof.
  destruct (update_replaces_mutable_columns id_ann ann_moved (sample_world 0)
              eq_refl) as (_ & _ & H).
  apply (H row_ann).
  - reflexivity.
  - left. discriminate.
  - reflexivity.
  - intros r' [<-|[<-|[<-|[<-|[]]]]] Hid; reflexivity.
Defined.

(** C8, as stated, fails: updating an id that no row has throws a
    [TypeError], which is no [NotFoundError]. *)
Lemma update_missing_id_not_NotFoundError :
  filter (Pg.has_id missing_id) (rows (sample_world 0)) = []
  /\ fst (Pg.update missing_id ann_moved (sample_world 0))
     = inl (TypeError
              [Lit "Cannot read properties of undefined (reading 'id')"])
  /\ ~ exists m,
         fst (Pg.update missing_id ann_moved (sample_world 0))
         = inl (NotFoundError m).
Proof.
  split; [reflexivity|]. split; [reflexivity|].
  intros (m & H). discriminate H.
Qed.

(** ** [getActiveAppointmentsByEmailOrPhone] *)

Lemma insert_by_start_at_perm (r : DbRow.t) (l : list DbRow.t) :
  Permutation (r :: l) (Pg.insert_by_start_at r l).
Proof.
  induction l as [|x l IH]; simpl; [reflexivity|].
  destruct (DbRow.start_at r <? DbRow.start_at x); [reflexivity|].
  rewrite perm_swap. now constructor.
Qed.

Lemma order_by_start_at_perm (l : list DbRow.t) :
  Permutation l (Pg.order_by_start_at l).
Proof.
  induction l as [|x l IH]; simpl; [constructor|].
  rewrite <- insert_by_start_at_perm. now constructor.
Qed.

Lemma insert_by_start_at_sorted (r : DbRow.t) (l : list DbRow.t) :
  Sorted start_at_le l -> Sorted start_at_le (Pg.insert_by_start_at r l).
Proof.
  induction l as [|x l IH]; simpl; intros Hs.
  - repeat constructor.
  - destruct (DbRow.start_at r <? DbRow.start_at x) eqn:E.
    + apply Z.ltb_lt in E. constructor; [exact Hs|].
      constructor. unfold start_at_le. lia.
    + apply Z.ltb_ge in E. inversion Hs as [|? ? Hs' Hhd]; subst.
      constructor; [now apply IH|].
      destruct l as [|y l]; simpl.
      * constructor. exact E.
      * destruct (DbRow.start_at r <? DbRow.start_at y); constructor;
          [exact E | now inversion Hhd].
Qed.

(** The active records of a contact come back earliest start first. *)
Lemma getActiveAppointmentsByEmailOrPhone_ascending
    (emailOrPhone : string) (w : World) :
  connected w ->
  exists selected w',
    Pg.getActiveAppointmentsByEmailOrPhone emailOrPhone w
    = (inr (map Pg.mapRowToEntity selected), w')
    /\ Permutation (filter (Pg.active_with_contact emailOrPhone) (rows w))
                   selected
    /\ Sorted start_at_le selected.
Proof.
  intros Hc.
  destruct (query_select_cases (Pg.active_with_contact emailOrPhone) w)
    as (w' & K & [[_ E] | [C _]]); [|contradiction].
  exists (Pg.order_by_start_at
            (filter (Pg.active_with_contact emailOrPhone) (rows w))), w'.
  split; [|split].
  - unfold Pg.getActiveAppointmentsByEmailOrPhone, bind. now rewrite E.
  - apply order_by_start_at_perm.
  - generalize (filter (Pg.active_with_contact emailOrPhone) (rows w)).
    intros l. induction l as [|x l IH]; simpl; [constructor|].
    now apply insert_by_start_at_sorted.
Qed.

(** C9.  On the sample table the two active appointments of
    ann@example.com come back with the 10:00 one before the 16:00 one:
    earliest start first, where most-recent-start-first would put the
    16:00 one first. *)
Theorem getActiveAppointmentsByEmailOrPhone_sample_order :
  fst (Pg.getActiveAppointmentsByEmailOrPhone "ann@example.com"
                                              (sample_world 0))
  = inr [Pg.mapRowToEntity row_ann; Pg.mapRowToEntity row_ann_later]
  /\ DbRow.start_at row_ann < DbRow.start_at row_ann_later.
Proof. split; reflexivity. Qed.

(** ** The engine's calls on the repository *)

Lemma repo_getConflictingAppointments_eq
    (startAt' endAt' : Date) (excludeId : option string) (w : World) :
  Svc.repo_getConflictingAppointments Pg.repository startAt' endAt' excludeId w
  = Pg.getConflictingAppointments startAt' endAt' excludeId
      (logged (Repo_getConflictingAppointments startAt' endAt' excludeId) w).
Proof. reflexivity. Qed.

Lemma repo_findById_eq (id' : string) (w : World) :
  Svc.repo_findById Pg.repository id' w
  = Pg.findById id' (logged (Repo_findById id') w).
Proof. reflexivity. Qed.

Lemma repo_create_eq (a : AppointmentEntity) (w : World) :
  Svc.repo_create Pg.repository a w = Pg.create a (logged (Repo_create a) w).
Proof. reflexivity. Qed.

Lemma repo_update_eq (id' : string) (a : AppointmentEntity) (w : World) :
  Svc.repo_update Pg.repository id' a w
  = Pg.update id' a (logged (Repo_update id' a) w).
Proof. reflexivity. Qed.

Lemma repo_delete_eq (id' : string) (w : World) :
  Svc.repo_delete Pg.repository id' w
  = Pg.delete id' (logged (Repo_delete id') w).
Proof. reflexivity. Qed.

(** A read through the repository: rows and clock stay, one call is
    recorded, and a failure is a database error. *)
Lemma repo_getConflictingAppointments_effect
    (startAt' endAt' : Date) (excludeId : option string) (w w1 : World)
    (r : exn + list AppointmentEntity) :
  Svc.repo_getConflictingAppointments Pg.repository startAt' endAt' excludeId w
  = (r, w1) ->
  rows w1 = rows w /\ clock w1 = clock w
  /\ calls w1
     = (calls w ++ [Repo_getConflictingAppointments startAt' endAt' excludeId])%list
  /\ match r with
     | inl e => e = DatabaseError ConnectionError
     | inr l =>
         l = map Pg.mapRowToEntity
                 (filter (Pg.conflicts_with startAt' endAt' excludeId) (rows w))
     end.
Proof.
  rewrite repo_getConflictingAppointments_eq. intros H.
  destruct (getConflictingAppointments_cases startAt' endAt' excludeId
              (logged (Repo_getConflictingAppointments startAt' endAt' excludeId) w))
    as (w' & (R & T & _ & C) & [[_ E] | [_ E]]);
    rewrite E in H; injection H as <- <-; auto.
Qed.

Lemma repo_findById_effect (id' : string) (w w1 : World)
    (r : exn + option AppointmentEntity) :
  Svc.repo_findById Pg.repository id' w = (r, w1) ->
  rows w1 = rows w /\ clock w1 = clock w
  /\ calls w1 = (calls w ++ [Repo_findById id'])%list
  /\ match r with
     | inl e => e = DatabaseError ConnectionError
     | inr found =>
         found = option_map Pg.mapRowToEntity
                            (hd_error (filter (Pg.has_id id') (rows w)))
     end.
Proof.
  rewrite repo_findById_eq. intros H.
  destruct (findById_cases id' (logged (Repo_findById id') w))
    as (w' & (R & T & _ & C) & [[_ E] | [_ E]]);
    rewrite E in H; injection H as <- <-; auto.
Qed.

Lemma repo_create_effect (a : AppointmentEntity) (w w1 : World)
    (r : exn + AppointmentEntity) :
  Svc.repo_create Pg.repository a w = (r, w1) ->
  clock w1 = clock w /\ calls w1 = (calls w ++ [Repo_create a])%list
  /\ match r with
     | inl e => (exists c, e = DatabaseError c) /\ rows w1 = rows w
     | inr created =>
         exists row, created = Pg.mapRowToEntity row
                     /\ rows w1 = (rows w ++ [row])%list
     end.
Proof.
  rewrite repo_create_eq. intros H.
  destruct (create_cases a (logged (Repo_create a) w))
    as (w' & (T & C) & [(e & E & R) | (row & E & R)]);
    rewrite E in H; injection H as <- <-; eauto.
Qed.

Lemma repo_update_effect (id' : string) (a : AppointmentEntity) (w w1 : World)
    (r : exn + AppointmentEntity) :
  Svc.repo_update Pg.repository id' a w = (r, w1) ->
  clock w1 = clock w /\ calls w1 = (calls w ++ [Repo_update id' a])%list
  /\ match r with
     | inl e => is_storage_error e /\ rows w1 = rows w
     | inr updated =>
         exists row more,
           filter (Pg.has_id id') (rows w) = row :: more
           /\ updated = Pg.mapRowToEntity (set_from a (clock w) row)
           /\ rows w1 = map_rows_of id' (set_from a (clock w)) (rows w)
     end.
Proof.
  rewrite repo_update_eq. intros H.
  destruct (update_cases id' a (logged (Repo_update id' a) w))
    as (w' & (T & C) & [(e & E & S & R) | (row & more & F & E & R)]);
    rewrite E in H; injection H as <- <-.
  - auto.
  - split; [exact T|]. split; [exact C|]. exists row, more. auto.
Qed.

Lemma repo_delete_effect (id' : string) (w w1 : World) (r : exn + bool) :
  Svc.repo_delete Pg.repository id' w = (r, w1) ->
  clock w1 = clock w /\ calls w1 = (calls w ++ [Repo_delete id'])%list
  /\ match r with
     | inl e => e = DatabaseError ConnectionError /\ rows w1 = rows w
     | inr _ => rows w1 = filter (fun r => negb (Pg.has_id id' r)) (rows w)
     end.
Proof.
  rewrite repo_delete_eq. intros H.
  destruct (delete_cases id' (logged (Repo_delete id') w))
    as (w' & (T & C) & [(E & R) | (b & E & R)]);
    rewrite E in H; injection H as <- <-; auto.
Qed.

(** ** [createAppointment]: the conflict messages *)

Lemma strict_eq_true (a b : option string) : strict_eq a b = true <-> a = b.
Proof.
  destruct a as [x|], b as [y|]; simpl; split; try congruence.
  - intros H. apply String.eqb_eq in H. congruence.
  - intros H. injection H as ->. apply String.eqb_refl.
Qed.

Lemma or_null_not_empty (x : option string) : or_null x <> Some "".
Proof.
  unfold or_null. destruct x as [[|c s]|]; simpl; discriminate.
Qed.

Lemma truthy_Some (x : string) : x <> "" -> truthy (Some x) = true.
Proof. destruct x; simpl; congruence. Qed.

Lemma mapRowToEntity_normalised (r : DbRow.t) :
  contacts_normalised (Pg.mapRowToEntity r).
Proof. split; apply or_null_not_empty. Qed.

Lemma same_person_iff (e p : option string) (apt : AppointmentEntity) :
  contacts_normalised apt ->
  Svc.same_person e p apt = true
  <-> (exists x, e = Some x /\ email apt = Some x)
      \/ (exists x, p = Some x /\ phoneNumber apt = Some x).
Proof.
  intros (He & Hp). unfold Svc.same_person.
  rewrite orb_true_iff, !andb_true_iff, !strict_eq_true.
  split.
  - intros [[T E] | [T E]]; [left | right];
      rewrite E in *; [destruct e as [x|] | destruct p as [x|]];
      try discriminate; eauto.
  - intros [(x & -> & E) | (x & -> & E)]; [left | right];
      (split; [|exact E]); apply truthy_Some; congruence.
Qed.

Lemma find_same_person (data : ScheduleRequest.t)
    (cs : list AppointmentEntity) :
  Forall contacts_normalised cs ->
  (exists apt, find (Svc.same_person (ScheduleRequest.email data)
                                     (ScheduleRequest.phoneNumber data)) cs
               = Some apt)
  <-> shares_contact data cs.
Proof.
  intros Hn. rewrite Forall_forall in Hn. unfold shares_contact. split.
  - intros (apt & F). apply find_some in F. destruct F as (Hin & Hs).
    exists apt. split; [exact Hin|].
    now apply same_person_iff; [apply Hn|].
  - intros (apt & Hin & Hs).
    destruct (find _ cs) as [apt'|] eqn:F; [eauto|].
    exfalso. apply (find_none _ _ F) in Hin as Hf.
    apply same_person_iff in Hs; [congruence | now apply Hn].
Qed.

(** C6.  When the conflict query of [createAppointment] returns at least one
    record, the call fails with a [TimeSlotUnavailableError] (code
    TIME_SLOT_UNAVAILABLE) in either case; its message is the
    you-already-have-an-appointment one exactly when some conflicting record
    has the email or the phone number present in the request, and the
    slot-already-booked one exactly when none has. *)
Theorem createAppointment_conflict_message
    (cal : ICalendarService.t) (data : ScheduleRequest.t) (w w1 : World)
    (conflicting : list AppointmentEntity) :
  Svc.repo_getConflictingAppointments Pg.repository
    (ScheduleRequest.startAt data) (ScheduleRequest.endAt data) None w
  = (inr conflicting, w1) ->
  conflicting <> [] ->
  exists m,
    createAppointment cal data w = (inl (TimeSlotUnavailableError m), w1)
    /\ code (TimeSlotUnavailableError m) = Some "TIME_SLOT_UNAVAILABLE"
    /\ (m = you_already_have_message (ScheduleRequest.startAt data)
                                     (ScheduleRequest.endAt data)
        <-> shares_contact data conflicting)
    /\ (m = already_booked_message (ScheduleRequest.startAt data)
                                   (ScheduleRequest.endAt data)
        <-> ~ shares_contact data conflicting).
Proof.
  intros H Hne.
  assert (Hn : Forall contacts_normalised conflicting).
  { apply repo_getConflictingAppointments_effect in H.
    destruct H as (_ & _ & _ & ->).
    apply Forall_forall. intros a Ha. apply in_map_iff in Ha.
    destruct Ha as (r & <- & _). apply mapRowToEntity_normalised. }
  pose proof (find_same_person data conflicting Hn) as Hfind.
  unfold createAppointment, Svc.createAppointment, bind.
  rewrite H.
  destruct conflicting as [|c cs]; [congruence|].
  change (0 <? Datatypes.length (c :: cs))%nat with true. cbv iota.
  destruct (find _ (c :: cs)) as [apt|] eqn:F; unfold throw;
    eexists; (split; [reflexivity|]); (split; [reflexivity|]); split.
  - split; [intros _; apply Hfind; eauto | reflexivity].
  - split; [discriminate|]. intros Hno. exfalso. apply Hno, Hfind. eauto.
  - split; [discriminate|]. intros Hs. apply Hfind in Hs.
    destruct Hs as (? & ?). discriminate.
  - split; [|reflexivity]. intros _ Hs. apply Hfind in Hs.
    destruct Hs as (? & ?). discriminate.
Qed.

Lemma createAppointment_conflict_message_witness :
  exists m,
    createAppointment calendar_up request_ann_overlapping (sample_world 0)
    = (inl (TimeSlotUnavailableError m),
       logged (Repo_getConflictingAppointments (at_time 10 30) (at_time 11 30)
                                               None)
              (sample_world 0))
    /\ code (TimeSlotUnavailableError m) = Some "TIME_SLOT_UNAVAILABLE"
    /\ (m = you_already_have_message (at_time 10 30) (at_time 11 30)
        <-> shares_contact request_ann_overlapping
              [Pg.mapRowToEntity row_ann; Pg.mapRowToEntity row_bob])
    /\ (m = already_booked_message (at_time 10 30) (at_time 11 30)
        <-> ~ shares_contact request_ann_overlapping
                [Pg.mapRowToEntity row_ann; Pg.mapRowToEntity row_bob]).
Proof.
  apply createAppointment_conflict_message; [reflexivity | discriminate].
Defined.

(** ** [createAppointment]: persist, synchronise, compensate *)

(** C2.  If the conflict query finds nothing, the store create returns
    [created] and the calendar rejects the event for [created], then
    [createAppointment] fails with the failed-to-create-calendar-event error
    (so nothing is reported as created); the calls it made are, in order,
    the conflict query, the store create, the calendar create and the
    compensating store delete of [created]'s id; and this holds whether the
    delete removed the row or itself failed and left the table as it was. *)
Theorem createAppointment_sync_failure
    (cal : ICalendarService.t) (data : ScheduleRequest.t)
    (w w1 w2 : World) (created : AppointmentEntity) (err : exn) :
  Svc.repo_getConflictingAppointments Pg.repository
    (ScheduleRequest.startAt data) (ScheduleRequest.endAt data) None w
  = (inr [], w1) ->
  Svc.repo_create Pg.repository
    (AppointmentEntity_fromRequest data (clock w1)) w1
  = (inr created, w2) ->
  ICalendarService.createCalendarEvent cal created = inl err ->
  exists w3,
    createAppointment cal data w
    = (inl (Error (failed_to_create_message err)), w3)
    /\ calls w3
       = (calls w
          ++ [Repo_getConflictingAppointments
                (ScheduleRequest.startAt data) (ScheduleRequest.endAt data) None;
              Repo_create (AppointmentEntity_fromRequest data (clock w1));
              Cal_createCalendarEvent created;
              Repo_delete (Svc.non_null (id created))])%list
    /\ (rows w3
        = filter (fun r => negb (Pg.has_id (Svc.non_null (id created)) r))
                 (rows w2)
        \/ rows w3 = rows w2).
Proof.
  intros H1 H2 H3.
  unfold createAppointment, Svc.createAppointment, bind.
  rewrite H1. change (0 <? Datatypes.length (@nil AppointmentEntity))%nat with false.
  cbv iota. unfold new_Date at 1. rewrite H2.
  unfold try_catch at 1. unfold Svc.cal_createCalendarEvent, bind, record_call, Svc.lift.
  rewrite H3.
  apply repo_getConflictingAppointments_effect in H1.
  destruct H1 as (_ & _ & C1 & _).
  apply repo_create_effect in H2. destruct H2 as (_ & C2 & _).
  set (w2' := set_calls _ w2).
  assert (C2' : calls w2'
                = (calls w
                   ++ [Repo_getConflictingAppointments
                         (ScheduleRequest.startAt data)
                         (ScheduleRequest.endAt data) None;
                       Repo_create (AppointmentEntity_fromRequest data (clock w1));
                       Cal_createCalendarEvent created])%list).
  { unfold w2'. simpl. rewrite C2, C1, <- !app_assoc. reflexivity. }
  unfold try_catch.
  destruct (Svc.repo_delete Pg.repository (Svc.non_null (id created)) w2')
    as [[e|b] w3] eqn:D;
    apply repo_delete_effect in D; destruct D as (_ & C3 & R);
    unfold ret, throw; exists w3; (split; [reflexivity|]); split.
  - rewrite C3, C2', <- app_assoc. reflexivity.
  - right. apply R.
  - rewrite C3, C2', <- app_assoc. reflexivity.
  - left. apply R.
Qed.

Lemma createAppointment_sync_failure_witness :
  exists w3,
    createAppointment calendar_down request_free_slot
                      sample_world_third_query_fails
    = (inl (Error (failed_to_create_message
                     (Error [Lit "Calendar API error"]))), w3)
    /\ calls w3
       = [Repo_getConflictingAppointments (at_time 12 0) (at_time 13 0) None;
          Repo_create (AppointmentEntity_fromRequest request_free_slot 0);
          Cal_createCalendarEvent (Pg.mapRowToEntity row_dee);
          Repo_delete "00000000-0000-4000-8000-000000000004"]
    /\ (rows w3
        = filter (fun r => negb (Pg.has_id "00000000-0000-4000-8000-000000000004" r))
                 [row_ann; row_bob; row_cy; row_ann_later; row_dee]
        \/ rows w3 = [row_ann; row_bob; row_cy; row_ann_later; row_dee]).
Proof.
  exact (createAppointment_sync_failure
           calendar_down request_free_slot sample_world_third_query_fails
           (snd (Svc.repo_getConflictingAppointments Pg.repository
                   (at_time 12 0) (at_time 13 0) None
                   sample_world_third_query_fails))
           (snd (Svc.repo_create Pg.repository
                   (AppointmentEntity_fromRequest request_free_slot 0)
                   (snd (Svc.repo_getConflictingAppointments Pg.repository
                           (at_time 12 0) (at_time 13 0) None
                           sample_world_third_query_fails))))
           (Pg.mapRowToEntity row_dee)
           (Error [Lit "Calendar API error"])
           eq_refl eq_refl eq_refl).
Defined.

(** On that pool the compensating delete itself fails, and the created row
    stays behind. *)
Example createAppointment_orphan_sample :
  rows (snd (createAppointment calendar_down request_free_slot
                               sample_world_third_query_fails))
  = [row_ann; row_bob; row_cy; row_ann_later; row_dee].
Proof. reflexivity. Qed.

(** ** The engine after its checks *)

Lemma editAppointment_after_checks
    (cal : ICalendarService.t) (appointmentId : string)
    (data : PartialRequest.t) (w w1 w2 : World)
    (appointment : AppointmentEntity) :
  Svc.repo_findById Pg.repository appointmentId w
  = (inr (Some appointment), w1) ->
  conflict_check_passes appointmentId data w1 w2 ->
  editAppointment cal appointmentId data w
  = editAppointment_write cal appointmentId appointment
      (rescheduled appointment data (clock w2)) w2.
Proof.
  intros H1 H2.
  unfold editAppointment, Svc.editAppointment.
  unfold bind at 1. rewrite H1. cbv iota.
  unfold bind at 1.
  unfold conflict_check_passes in H2.
  unfold editAppointment_write, rescheduled.
  destruct (PartialRequest.startAt data) as [s|],
           (PartialRequest.endAt data) as [e|];
    try (unfold ret at 1; subst w2; reflexivity).
  unfold bind at 1. rewrite H2. reflexivity.
Qed.

Lemma cancelAppointment_after_checks
    (cal : ICalendarService.t) (appointmentId : string) (w w1 : World)
    (appointment : AppointmentEntity) :
  Svc.repo_findById Pg.repository appointmentId w
  = (inr (Some appointment), w1) ->
  Svc.validateAppointmentCanBeCancelled appointment w1 = (inr tt, w1) ->
  cancelAppointment cal appointmentId w
  = cancelAppointment_write cal appointmentId
      (cancelled_at appointment (clock w1)) w1.
Proof.
  intros H1 H2.
  unfold cancelAppointment, Svc.cancelAppointment.
  unfold bind at 1. rewrite H1. cbv iota.
  unfold bind at 1. rewrite H2. reflexivity.
Qed.

(** ** [cancelAppointment]: the cancellation rules *)

Lemma hoursUntilAppointment_lt_2 (appointmentDateTime now : Date) :
  Svc.Qlt_bool (Svc.hoursUntilAppointment appointmentDateTime now) 2 = true
  <-> appointmentDateTime - now < two_hours.
Proof.
  unfold Svc.Qlt_bool, Svc.hoursUntilAppointment, two_hours.
  rewrite negb_true_iff, <- not_true_iff_false, Qle_bool_iff.
  unfold Qle, Qdiv, Qmult, Qinv, inject_Z. simpl.
  lia.
Qed.

Lemma validateAppointmentCanBeCancelled_cases
    (appointment : AppointmentEntity) (w : World) :
  (cancellation_rejected appointment (clock w)
   /\ exists m,
        Svc.validateAppointmentCanBeCancelled appointment w
        = (inl (AppointmentCancellationError m), w))
  \/ (~ cancellation_rejected appointment (clock w)
      /\ Svc.validateAppointmentCanBeCancelled appointment w = (inr tt, w)).
Proof.
  unfold Svc.validateAppointmentCanBeCancelled, cancellation_rejected.
  destruct (status appointment) eqn:S;
    try (left; split; [tauto | unfold throw; eauto]);
    unfold bind, new_Date;
    destruct (Svc.Qlt_bool _ 2) eqn:Q.
  1,3: apply hoursUntilAppointment_lt_2 in Q;
       left; split; [tauto | unfold throw; eauto].
  all: right; split; [|reflexivity];
       intros [H | [H | H]]; try discriminate;
       apply hoursUntilAppointment_lt_2 in H; congruence.
Qed.

Lemma editAppointment_write_cases
    (cal : ICalendarService.t) (appointmentId : string)
    (appointment updated : AppointmentEntity) (w : World) :
  match Svc.repo_update Pg.repository appointmentId updated w with
  | (inl e, w2) =>
      editAppointment_write cal appointmentId appointment updated w
      = (inl e, w2)
  | (inr dbResult, w2) =>
      exists w3,
        editAppointment_write cal appointmentId appointment updated w
        = (inr (Some dbResult), w3)
        /\ rows w3 = rows w2
        /\ calls w3
           = (calls w2 ++ calendar_update_calls appointment dbResult)%list
  end.
Proof.
  unfold editAppointment_write, calendar_update_calls, bind.
  destruct (Svc.repo_update Pg.repository appointmentId updated w)
    as [[e|db] w2]; [reflexivity|].
  destruct (truthy (calendarEventId appointment)).
  - unfold try_catch, Svc.cal_updateCalendarEvent, bind, record_call, Svc.lift.
    destruct (ICalendarService.updateCalendarEvent cal
                (Svc.non_null (calendarEventId appointment)) db) as [err|[]];
      unfold ret; eexists; (split; [reflexivity|]); split; reflexivity.
  - unfold ret. exists w2. rewrite app_nil_r. auto.
Qed.

Lemma cancelAppointment_write_cases
    (cal : ICalendarService.t) (appointmentId : string)
    (appointment' : AppointmentEntity) (w : World) :
  match Svc.repo_update Pg.repository appointmentId appointment' w with
  | (inl e, w2) =>
      cancelAppointment_write cal appointmentId appointment' w = (inl e, w2)
  | (inr _, w2) =>
      exists w3,
        cancelAppointment_write cal appointmentId appointment' w
        = (inr true, w3)
        /\ rows w3 = rows w2
        /\ calls w3 = (calls w2 ++ calendar_delete_calls appointment')%list
  end.
Proof.
  unfold cancelAppointment_write, calendar_delete_calls, bind.
  destruct (Svc.repo_update Pg.repository appointmentId appointment' w)
    as [[e|db] w2]; [reflexivity|].
  destruct (truthy (calendarEventId appointment')).
  - unfold try_catch, Svc.cal_deleteCalendarEvent, bind, record_call, Svc.lift.
    destruct (ICalendarService.deleteCalendarEvent cal
                (Svc.non_null (calendarEventId appointment'))) as [err|[]];
      unfold ret; eexists; (split; [reflexivity|]); split; reflexivity.
  - unfold ret. exists w2. rewrite app_nil_r. auto.
Qed.

(** C3.  For the appointment found by [cancelAppointment]: if its status is
    cancelled or completed, or its start is less than two hours after the
    current time, the call fails with an [AppointmentCancellationError] and
    the table is as before; otherwise validation passes, the call never
    fails with that error, and it returns [true] as soon as the store update
    goes through.  Two hours exactly is not rejected. *)
Theorem cancelAppointment_cancellation_rules
    (cal : ICalendarService.t) (appointmentId : string) (w w1 : World)
    (appointment : AppointmentEntity) :
  Svc.repo_findById Pg.repository appointmentId w
  = (inr (Some appointment), w1) ->
  (cancellation_rejected appointment (clock w) ->
   exists m,
     cancelAppointment cal appointmentId w
     = (inl (AppointmentCancellationError m), w1)
     /\ rows w1 = rows w)
  /\ (~ cancellation_rejected appointment (clock w) ->
      Svc.validateAppointmentCanBeCancelled appointment w1 = (inr tt, w1)
      /\ (forall m, fst (cancelAppointment cal appointmentId w)
                    <> inl (AppointmentCancellationError m))
      /\ (forall dbResult w2,
            Svc.repo_update Pg.repository appointmentId
                            (cancelled_at appointment (clock w)) w1
            = (inr dbResult, w2) ->
            fst (cancelAppointment cal appointmentId w) = inr true)).
Proof.
  intros H1.
  pose proof (repo_findById_effect _ _ _ _ H1) as (R & T & _ & _).
  rewrite <- T.
  destruct (validateAppointmentCanBeCancelled_cases appointment w1)
    as [(Hrej & m & V) | (Hok & V)]; (split; [|intros Hn]);
    try contradiction.
  - intros _. exists m. split; [|exact R].
    unfold cancelAppointment, Svc.cancelAppointment.
    unfold bind at 1. rewrite H1. cbv iota.
    unfold bind at 1. now rewrite V.
  - rewrite (cancelAppointment_after_checks cal _ _ _ _ H1 V).
    pose proof (cancelAppointment_write_cases cal appointmentId
                  (cancelled_at appointment (clock w1)) w1) as W.
    split; [exact V|]. split.
    + intros m.
      destruct (Svc.repo_update Pg.repository appointmentId
                  (cancelled_at appointment (clock w1)) w1)
        as [[e|db] w2] eqn:U.
      * rewrite W. simpl. apply repo_update_effect in U.
        destruct U as (_ & _ & S & _).
        intros Heq. injection Heq as ->. exact S.
      * destruct W as (w3 & -> & _). discriminate.
    + intros db w2 U. rewrite U in W. destruct W as (w3 & -> & _).
      reflexivity.
Qed.

Lemma cancelAppointment_cancellation_rules_witness :
  fst (cancelAppointment calendar_up id_ann (sample_world (at_time 8 0)))
  = inr true
  /\ exists m w1,
       cancelAppointment calendar_up id_ann (sample_world (at_time 8 1))
       = (inl (AppointmentCancellationError m), w1)
       /\ rows w1 = rows (sample_world (at_time 8 1)).
Proof.
  split.
  - destruct (cancelAppointment_cancellation_rules
                calendar_up id_ann (sample_world (at_time 8 0))
                (snd (Svc.repo_findById Pg.repository id_ann
                        (sample_world (at_time 8 0))))
                (Pg.mapRowToEntity row_ann) eq_refl) as (_ & H).
    destruct H as (_ & _ & H).
    + intros [H | [H | H]]; discriminate H.
    + eapply H. reflexivity.
  - destruct (cancelAppointment_cancellation_rules
                calendar_up id_ann (sample_world (at_time 8 1))
                (snd (Svc.repo_findById Pg.repository id_ann
                        (sample_world (at_time 8 1))))
                (Pg.mapRowToEntity row_ann) eq_refl) as (H & _).
    destruct H as (m & H).
    + right. right. reflexivity.
    + exists m. eexists. exact H.
Defined.

(** ** Paths through the engine *)

Lemma store_untouched_by_read (w w1 : World) (c : Call) :
  rows w1 = rows w -> calls w1 = (calls w ++ [c])%list ->
  is_store_write c = false -> store_untouched w w1.
Proof.
  intros R C S. split; [exact R|]. exists [c]. split; [exact C|].
  now constructor.
Qed.

Lemma store_untouched_trans (w w1 w2 : World) :
  store_untouched w w1 -> store_untouched w1 w2 -> store_untouched w w2.
Proof.
  intros (R1 & n1 & C1 & F1) (R2 & n2 & C2 & F2).
  split; [congruence|]. exists (n1 ++ n2)%list. split.
  - rewrite C2, C1, app_assoc. reflexivity.
  - apply Forall_app. now split.
Qed.

Lemma createAppointment_after_check
    (cal : ICalendarService.t) (data : ScheduleRequest.t) (w w1 : World) :
  Svc.repo_getConflictingAppointments Pg.repository
    (ScheduleRequest.startAt data) (ScheduleRequest.endAt data) None w
  = (inr [], w1) ->
  createAppointment cal data w = createAppointment_write cal data w1.
Proof.
  intros G. unfold createAppointment, Svc.createAppointment.
  unfold bind at 1. rewrite G. reflexivity.
Qed.

Lemma createAppointment_paths
    (cal : ICalendarService.t) (data : ScheduleRequest.t) (w : World) :
  (exists e w',
      createAppointment cal data w = (inl e, w')
      /\ store_untouched w w'
      /\ (e = DatabaseError ConnectionError
          \/ exists m, e = TimeSlotUnavailableError m))
  \/ (exists w1,
         Svc.repo_getConflictingAppointments Pg.repository
           (ScheduleRequest.startAt data) (ScheduleRequest.endAt data) None w
         = (inr [], w1)
         /\ store_untouched w w1
         /\ createAppointment cal data w = createAppointment_write cal data w1).
Proof.
  assert (E : forall r w1,
             Svc.repo_getConflictingAppointments Pg.repository
               (ScheduleRequest.startAt data) (ScheduleRequest.endAt data)
               None w = (r, w1) ->
             createAppointment cal data w
             = match r with
               | inl e => (inl e, w1)
               | inr [] => createAppointment_write cal data w1
               | inr (c :: cs) =>
                   match find (Svc.same_person (ScheduleRequest.email data)
                                 (ScheduleRequest.phoneNumber data)) (c :: cs)
                   with
                   | Some _ =>
                       (inl (TimeSlotUnavailableError
                               (you_already_have_message
                                  (ScheduleRequest.startAt data)
                                  (ScheduleRequest.endAt data))), w1)
                   | None =>
                       (inl (TimeSlotUnavailableError
                               (already_booked_message
                                  (ScheduleRequest.startAt data)
                                  (ScheduleRequest.endAt data))), w1)
                   end
               end).
  { intros r w1 G. unfold createAppointment, Svc.createAppointment.
    unfold bind at 1. rewrite G.
    destruct r as [e|[|c cs]]; try reflexivity.
    change (0 <? Datatypes.length (c :: cs))%nat with true. cbv iota.
    destruct (find _ (c :: cs)); reflexivity. }
  destruct (Svc.repo_getConflictingAppointments Pg.repository
              (ScheduleRequest.startAt data) (ScheduleRequest.endAt data)
              None w) as [r w1] eqn:G.
  pose proof (repo_getConflictingAppointments_effect _ _ _ _ _ _ G)
    as (R & _ & C & K).
  assert (U : store_untouched w w1)
    by (eapply store_untouched_by_read; eauto).
  rewrite (E r w1 eq_refl).
  destruct r as [e|[|c cs]].
  - left. exists e, w1. auto.
  - right. exists w1. auto.
  - left. destruct (find _ (c :: cs)); eauto 8.
Qed.

Lemma createAppointment_write_create_fails
    (cal : ICalendarService.t) (data : ScheduleRequest.t) (w1 w2 : World)
    (e : exn) :
  Svc.repo_create Pg.repository
    (AppointmentEntity_fromRequest data (clock w1)) w1 = (inl e, w2) ->
  createAppointment_write cal data w1 = (inl e, w2).
Proof.
  intros H. unfold createAppointment_write, bind, new_Date. now rewrite H.
Qed.

(** The compensation block always ends in the failed-to-create error. *)
Lemma compensate_cases (id' : string) (calendarError : exn) (w : World) :
  exists w',
    (try_catch (Svc.repo_delete Pg.repository id' ;; ret tt)
               (fun deleteError => ret tt) ;;
     throw (Error (failed_to_create_message calendarError))) w
    = (@inl exn AppointmentEntity
         (Error (failed_to_create_message calendarError)), w').
Proof.
  unfold bind, try_catch.
  destruct (Svc.repo_delete Pg.repository id' w) as [[e|b] w'];
    unfold ret, throw; eauto.
Qed.

Lemma createAppointment_write_errors
    (cal : ICalendarService.t) (data : ScheduleRequest.t) (w1 : World) :
  match fst (createAppointment_write cal data w1) with
  | inl e => (exists c, e = DatabaseError c) \/ (exists m, e = Error m)
  | inr _ => True
  end.
Proof.
  unfold createAppointment_write. unfold bind at 1, new_Date at 1.
  unfold bind at 1.
  destruct (Svc.repo_create Pg.repository
              (AppointmentEntity_fromRequest data (clock w1)) w1)
    as [[e|created] w2] eqn:Cr.
  - apply repo_create_effect in Cr. destruct Cr as (_ & _ & K & _).
    simpl. left. exact K.
  - unfold try_catch at 1.
    match goal with
    | |- context [match ?m w2 with _ => _ end] =>
        destruct (m w2) as [[err|updated] w3]
    end.
    + destruct (compensate_cases (Svc.non_null (id created)) err w3)
        as (w4 & ->).
      simpl. right. eauto.
    + exact I.
Qed.

Lemma conflict_check_effect (appointmentId : string)
    (data : PartialRequest.t) (w1 w2 : World) :
  conflict_check_passes appointmentId data w1 w2 ->
  rows w2 = rows w1 /\ clock w2 = clock w1 /\ store_untouched w1 w2.
Proof.
  unfold conflict_check_passes.
  destruct (PartialRequest.startAt data) as [s|],
           (PartialRequest.endAt data) as [e|];
    try (intros ->; split; [reflexivity|]; split; [reflexivity|];
         split; [reflexivity|]; exists []; split;
         [now rewrite app_nil_r | constructor]).
  intros G. apply repo_getConflictingAppointments_effect in G.
  destruct G as (R & T & C & _).
  split; [exact R|]. split; [exact T|].
  eapply store_untouched_by_read; eauto.
Qed.

Lemma editAppointment_paths
    (cal : ICalendarService.t) (appointmentId : string)
    (data : PartialRequest.t) (w : World) :
  (exists e w',
      editAppointment cal appointmentId data w = (inl e, w')
      /\ store_untouched w w'
      /\ (e = DatabaseError ConnectionError
          \/ (exists m, e = NotFoundError m)
          \/ (exists m, e = TimeSlotUnavailableError m)))
  \/ (exists appointment w1 w2,
         Svc.repo_findById Pg.repository appointmentId w
         = (inr (Some appointment), w1)
         /\ conflict_check_passes appointmentId data w1 w2
         /\ store_untouched w w2
         /\ editAppointment cal appointmentId data w
            = editAppointment_write cal appointmentId appointment
                (rescheduled appointment data (clock w2)) w2).
Proof.
  destruct (Svc.repo_findById Pg.repository appointmentId w)
    as [[e|[a|]] w1] eqn:F;
    pose proof (repo_findById_effect _ _ _ _ F) as (R & _ & C & K);
    assert (U : store_untouched w w1)
      by (eapply store_untouched_by_read; eauto).
  1,3: left; unfold editAppointment, Svc.editAppointment;
       unfold bind at 1; rewrite F; unfold throw; eauto 8.
  assert (P : forall w2,
             conflict_check_passes appointmentId data w1 w2 ->
             store_untouched w w2
             /\ editAppointment cal appointmentId data w
                = editAppointment_write cal appointmentId a
                    (rescheduled a data (clock w2)) w2).
  { intros w2 H2. split.
    - eapply store_untouched_trans; [exact U|].
      now apply conflict_check_effect in H2.
    - now apply editAppointment_after_checks with (w1 := w1). }
  assert (Q : forall w2,
             conflict_check_passes appointmentId data w1 w2 ->
             exists appointment w1' w2,
               (@inr exn _ (Some a), w1) = (inr (Some appointment), w1')
               /\ conflict_check_passes appointmentId data w1' w2
               /\ store_untouched w w2
               /\ editAppointment cal appointmentId data w
                  = editAppointment_write cal appointmentId appointment
                      (rescheduled appointment data (clock w2)) w2).
  { intros w2 H2. exists a, w1, w2. split; [reflexivity|]. split; [exact H2|].
    now apply P. }
  clear P.
  destruct (PartialRequest.startAt data) as [s|] eqn:Es.
  2:{ right. apply (Q w1). unfold conflict_check_passes. now rewrite Es. }
  destruct (PartialRequest.endAt data) as [e|] eqn:Ee.
  2:{ right. apply (Q w1). unfold conflict_check_passes. now rewrite Es, Ee. }
  destruct (Svc.repo_getConflictingAppointments Pg.repository s e
              (Some appointmentId) w1) as [[err|[|c cs]] w2] eqn:G.
  2:{ right. apply (Q w2). unfold conflict_check_passes. now rewrite Es, Ee. }
  all: pose proof (repo_getConflictingAppointments_effect _ _ _ _ _ _ G)
         as (R2 & _ & C2 & K2);
       assert (U2 : store_untouched w w2)
         by (eapply store_untouched_trans; [exact U|];
             eapply store_untouched_by_read; eauto);
       left; unfold editAppointment, Svc.editAppointment;
       unfold bind at 1; rewrite F; cbv iota; unfold bind at 1;
       rewrite Es, Ee; unfold bind at 1; rewrite G.
  - eauto 8.
  - change (0 <? Datatypes.length (c :: cs))%nat with true. cbv iota.
    destruct (find _ (c :: cs)); unfold throw; eauto 10.
Qed.

Lemma cancelAppointment_paths
    (cal : ICalendarService.t) (appointmentId : string) (w : World) :
  (exists e w',
      cancelAppointment cal appointmentId w = (inl e, w')
      /\ store_untouched w w'
      /\ (e = DatabaseError ConnectionError
          \/ (exists m, e = NotFoundError m)
          \/ (exists m, e = AppointmentCancellationError m)))
  \/ (exists appointment w1,
         Svc.repo_findById Pg.repository appointmentId w
         = (inr (Some appointment), w1)
         /\ Svc.validateAppointmentCanBeCancelled appointment w1
            = (inr tt, w1)
         /\ store_untouched w w1
         /\ cancelAppointment cal appointmentId w
            = cancelAppointment_write cal appointmentId
                (cancelled_at appointment (clock w1)) w1).
Proof.
  destruct (Svc.repo_findById Pg.repository appointmentId w)
    as [[e|[a|]] w1] eqn:F;
    pose proof (repo_findById_effect _ _ _ _ F) as (R & _ & C & K);
    assert (U : store_untouched w w1)
      by (eapply store_untouched_by_read; eauto).
  1,3: left; unfold cancelAppointment, Svc.cancelAppointment;
       unfold bind at 1; rewrite F; unfold throw; eauto 8.
  destruct (validateAppointmentCanBeCancelled_cases a w1)
    as [(_ & m & V) | (_ & V)].
  - left. unfold cancelAppointment, Svc.cancelAppointment.
    unfold bind at 1. rewrite F. cbv iota. unfold bind at 1. rewrite V.
    eauto 8.
  - right. exists a, w1. split; [reflexivity|]. split; [exact V|].
    split; [exact U|].
    now apply cancelAppointment_after_checks.
Qed.

Lemma editAppointment_write_errors
    (cal : ICalendarService.t) (appointmentId : string)
    (appointment updated : AppointmentEntity) (w : World) :
  match fst (editAppointment_write cal appointmentId appointment updated w)
  with
  | inl e => is_storage_error e
  | inr _ => True
  end.
Proof.
  pose proof (editAppointment_write_cases cal appointmentId appointment
                updated w) as W.
  destruct (Svc.repo_update Pg.repository appointmentId updated w)
    as [[e|db] w2] eqn:U.
  - rewrite W. simpl. apply repo_update_effect in U. tauto.
  - destruct W as (w3 & -> & _). exact I.
Qed.

Lemma cancelAppointment_write_errors
    (cal : ICalendarService.t) (appointmentId : string)
    (appointment' : AppointmentEntity) (w : World) :
  match fst (cancelAppointment_write cal appointmentId appointment' w) with
  | inl e => is_storage_error e
  | inr _ => True
  end.
Proof.
  pose proof (cancelAppointment_write_cases cal appointmentId appointment' w)
    as W.
  destruct (Svc.repo_update Pg.repository appointmentId appointment' w)
    as [[e|db] w2] eqn:U.
  - rewrite W. simpl. apply repo_update_effect in U. tauto.
  - destruct W as (w3 & -> & _). exact I.
Qed.

(** ** Validation failures *)

(** C10.  A [createAppointment] that fails with [TimeSlotUnavailableError],
    an [editAppointment] that fails with [NotFoundError] or
    [TimeSlotUnavailableError], and a [cancelAppointment] that fails with
    [NotFoundError] or [AppointmentCancellationError] leave the rows of the
    table exactly as they were, and none of the calls they made on the
    repository is a create, an update or a delete. *)
Theorem validation_failures_leave_store_untouched
    (cal : ICalendarService.t) :
  (forall data w m w',
      createAppointment cal data w = (inl (TimeSlotUnavailableError m), w') ->
      store_untouched w w')
  /\ (forall appointmentId data w e w',
        editAppointment cal appointmentId data w = (inl e, w') ->
        (exists m, e = NotFoundError m)
        \/ (exists m, e = TimeSlotUnavailableError m) ->
        store_untouched w w')
  /\ (forall appointmentId w e w',
        cancelAppointment cal appointmentId w = (inl e, w') ->
        (exists m, e = NotFoundError m)
        \/ (exists m, e = AppointmentCancellationError m) ->
        store_untouched w w').
Proof.
  split; [|split].
  - intros data w m w' H.
    destruct (createAppointment_paths cal data w)
      as [(e & w'' & E & U & _) | (w1 & _ & _ & E)]; rewrite E in H.
    + now injection H as _ <-.
    + pose proof (createAppointment_write_errors cal data w1) as K.
      rewrite H in K. simpl in K.
      destruct K as [(c & K) | (m' & K)]; discriminate K.
  - intros appointmentId data w e w' H Hk.
    destruct (editAppointment_paths cal appointmentId data w)
      as [(e' & w'' & E & U & _) | (a & w1 & w2 & _ & _ & _ & E)];
      rewrite E in H.
    + now injection H as _ <-.
    + pose proof (editAppointment_write_errors cal appointmentId a
                    (rescheduled a data (clock w2)) w2) as K.
      rewrite H in K. simpl in K.
      destruct Hk as [(m & ->) | (m & ->)]; contradiction.
  - intros appointmentId w e w' H Hk.
    destruct (cancelAppointment_paths cal appointmentId w)
      as [(e' & w'' & E & U & _) | (a & w1 & _ & _ & _ & E)];
      rewrite E in H.
    + now injection H as _ <-.
    + pose proof (cancelAppointment_write_errors cal appointmentId
                    (cancelled_at a (clock w1)) w1) as K.
      rewrite H in K. simpl in K.
      destruct Hk as [(m & ->) | (m & ->)]; contradiction.
Qed.

Lemma validation_failures_leave_store_untouched_witness :
  store_untouched (sample_world 0)
    (snd (createAppointment calendar_up request_ann_overlapping
                            (sample_world 0)))
  /\ store_untouched world_without_ann
       (snd (editAppointment calendar_up id_ann payload_move_and_overpost
                             world_without_ann))
  /\ store_untouched (sample_world 0)
       (snd (editAppointment calendar_up id_ann payload_conflicting
                             (sample_world 0)))
  /\ store_untouched world_without_ann
       (snd (cancelAppointment calendar_up id_ann world_without_ann))
  /\ store_untouched (sample_world (at_time 9 0))
       (snd (cancelAppointment calendar_up id_ann (sample_world (at_time 9 0)))).
Proof.
  destruct (validation_failures_leave_store_untouched calendar_up)
    as (Hc & He & Hx).
  split; [|split; [|split; [|split]]].
  - eapply (Hc request_ann_overlapping). reflexivity.
  - eapply (He id_ann payload_move_and_overpost);
      [reflexivity | left; eexists; reflexivity].
  - eapply (He id_ann payload_conflicting);
      [reflexivity | right; eexists; reflexivity].
  - eapply (Hx id_ann); [reflexivity | left; eexists; reflexivity].
  - eapply (Hx id_ann); [reflexivity | right; eexists; reflexivity].
Defined.

(** ** Storage failures *)

(** C4, as stated, fails: booking the slot of a cancelled appointment passes
    the conflict query, violates the unique index on [(start_at, end_at)],
    and the caller gets the database error itself. *)
Lemma constraint_failure_not_translated :
  ~ constraint_failure_surfaces_as_SlotConflict.
Proof.
  intros H.
  destruct (H calendar_up request_cancelled_slot (sample_world 0)
              (snd (Svc.repo_getConflictingAppointments Pg.repository
                      (at_time 14 0) (at_time 15 0) None (sample_world 0)))
              (snd (createAppointment calendar_up request_cancelled_slot
                                      (sample_world 0)))
              "appointments_unique_slot" eq_refl eq_refl) as (m & K).
  discriminate K.
Qed.

(** C4 (amended).  A failure of the store is not translated: when the store
    create of [createAppointment], the store update of [editAppointment] or
    the store update of [cancelAppointment] fails with [e], the caller gets
    that same [e], a database or type error and no
    [TimeSlotUnavailableError], and the rows of the table are as before the
    call. *)
Theorem storage_failure_propagates_unchanged (cal : ICalendarService.t) :
  (forall data w w1 w2 e,
      Svc.repo_getConflictingAppointments Pg.repository
        (ScheduleRequest.startAt data) (ScheduleRequest.endAt data) None w
      = (inr [], w1) ->
      Svc.repo_create Pg.repository
        (AppointmentEntity_fromRequest data (clock w1)) w1 = (inl e, w2) ->
      createAppointment cal data w = (inl e, w2)
      /\ is_storage_error e
      /\ (forall m, e <> TimeSlotUnavailableError m)
      /\ rows w2 = rows w)
  /\ (forall appointmentId data w w1 w2 w3 appointment e,
        Svc.repo_findById Pg.repository appointmentId w
        = (inr (Some appointment), w1) ->
        conflict_check_passes appointmentId data w1 w2 ->
        Svc.repo_update Pg.repository appointmentId
          (rescheduled appointment data (clock w2)) w2 = (inl e, w3) ->
        editAppointment cal appointmentId data w = (inl e, w3)
        /\ is_storage_error e
        /\ (forall m, e <> TimeSlotUnavailableError m)
        /\ rows w3 = rows w)
  /\ (forall appointmentId w w1 w2 appointment e,
        Svc.repo_findById Pg.repository appointmentId w
        = (inr (Some appointment), w1) ->
        Svc.validateAppointmentCanBeCancelled appointment w1 = (inr tt, w1) ->
        Svc.repo_update Pg.repository appointmentId
          (cancelled_at appointment (clock w1)) w1 = (inl e, w2) ->
        cancelAppointment cal appointmentId w = (inl e, w2)
        /\ is_storage_error e
        /\ (forall m, e <> TimeSlotUnavailableError m)
        /\ rows w2 = rows w).
Proof.
  assert (N : forall e, is_storage_error e ->
                        forall m, e <> TimeSlotUnavailableError m).
  { intros e S m ->. exact S. }
  split; [|split].
  - intros data w w1 w2 e G Cr.
    rewrite (createAppointment_after_check cal data w w1 G).
    rewrite (createAppointment_write_create_fails cal data w1 w2 e Cr).
    apply repo_create_effect in Cr. destruct Cr as (_ & _ & (c & ->) & R2).
    apply repo_getConflictingAppointments_effect in G.
    destruct G as (R1 & _).
    split; [reflexivity|]. split; [exact I|]. split; [now apply N|].
    congruence.
  - intros appointmentId data w w1 w2 w3 a e F P U.
    rewrite (editAppointment_after_checks cal _ _ _ _ _ _ F P).
    pose proof (editAppointment_write_cases cal appointmentId a
                  (rescheduled a data (clock w2)) w2) as W.
    rewrite U in W. rewrite W.
    apply repo_update_effect in U. destruct U as (_ & _ & S & R3).
    apply conflict_check_effect in P. destruct P as (R2 & _).
    apply repo_findById_effect in F. destruct F as (R1 & _).
    split; [reflexivity|]. split; [exact S|]. split; [now apply N|].
    congruence.
  - intros appointmentId w w1 w2 a e F V U.
    rewrite (cancelAppointment_after_checks cal _ _ _ _ F V).
    pose proof (cancelAppointment_write_cases cal appointmentId
                  (cancelled_at a (clock w1)) w1) as W.
    rewrite U in W. rewrite W.
    apply repo_update_effect in U. destruct U as (_ & _ & S & R2).
    apply repo_findById_effect in F. destruct F as (R1 & _).
    split; [reflexivity|]. split; [exact S|]. split; [now apply N|].
    congruence.
Qed.

Lemma storage_failure_propagates_unchanged_witness :
  fst (createAppointment calendar_up request_cancelled_slot (sample_world 0))
  = inl (DatabaseError (UniqueViolation "appointments_unique_slot"))
  /\ fst (editAppointment calendar_up id_ann payload_cancelled_slot
                          (sample_world 0))
     = inl (DatabaseError (UniqueViolation "appointments_unique_slot")).
Proof.
  destruct (storage_failure_propagates_unchanged calendar_up)
    as (Hc & He & _).
  split.
  - destruct (Hc request_cancelled_slot (sample_world 0)
                (snd (Svc.repo_getConflictingAppointments Pg.repository
                        (at_time 14 0) (at_time 15 0) None (sample_world 0)))
                (snd (createAppointment calendar_up request_cancelled_slot
                                        (sample_world 0)))
                (DatabaseError (UniqueViolation "appointments_unique_slot"))
                eq_refl eq_refl) as (E & _).
    rewrite E. reflexivity.
  - destruct (He id_ann payload_cancelled_slot (sample_world 0)
                (snd (Svc.repo_findById Pg.repository id_ann (sample_world 0)))
                (snd (Svc.repo_getConflictingAppointments Pg.repository
                        (at_time 14 0) (at_time 15 0) (Some id_ann)
                        (snd (Svc.repo_findById Pg.repository id_ann
                                (sample_world 0)))))
                (snd (editAppointment calendar_up id_ann payload_cancelled_slot
                                      (sample_world 0)))
                (Pg.mapRowToEntity row_ann)
                (DatabaseError (UniqueViolation "appointments_unique_slot"))
                eq_refl eq_refl eq_refl) as (E & _).
    rewrite E. reflexivity.
Defined.

(** ** Synchronisation failures after the store write *)

Lemma map_rows_of_holds (id' : string) (u : AppointmentEntity) (now : Date)
    (table : list DbRow.t) :
  holds_record id' u (map_rows_of id' (set_from u now) table).
Proof.
  unfold holds_record, map_rows_of.
  induction table as [|r table IH]; simpl; constructor; [|exact IH].
  destruct (Pg.has_id id' r) eqn:E.
  - intros _. repeat split.
  - intros H. congruence.
Qed.

(** C5.  Once the store update of [editAppointment] has returned
    [dbResult], a rejection by the calendar's update is swallowed: the call
    returns [dbResult], the calendar call was made after the store write,
    and the table is the one the store update left, its row of the id
    carrying the new interval and type.  Likewise once the store update of
    [cancelAppointment] has gone through, a rejection by the calendar's
    delete is swallowed: the call returns [true] and the row of the id is
    cancelled in the table. *)
Theorem sync_failure_after_store_write_is_swallowed
    (cal : ICalendarService.t) :
  (forall appointmentId data w w1 w2 w3 appointment dbResult err,
      Svc.repo_findById Pg.repository appointmentId w
      = (inr (Some appointment), w1) ->
      conflict_check_passes appointmentId data w1 w2 ->
      Svc.repo_update Pg.repository appointmentId
        (rescheduled appointment data (clock w2)) w2 = (inr dbResult, w3) ->
      truthy (calendarEventId appointment) = true ->
      ICalendarService.updateCalendarEvent cal
        (Svc.non_null (calendarEventId appointment)) dbResult = inl err ->
      exists w4,
        editAppointment cal appointmentId data w = (inr (Some dbResult), w4)
        /\ calls w4
           = (calls w3
              ++ [Cal_updateCalendarEvent
                    (Svc.non_null (calendarEventId appointment)) dbResult])%list
        /\ rows w4 = rows w3
        /\ holds_record appointmentId
             (rescheduled appointment data (clock w)) (rows w4))
  /\ (forall appointmentId w w1 w2 appointment dbResult err,
        Svc.repo_findById Pg.repository appointmentId w
        = (inr (Some appointment), w1) ->
        Svc.validateAppointmentCanBeCancelled appointment w1 = (inr tt, w1) ->
        Svc.repo_update Pg.repository appointmentId
          (cancelled_at appointment (clock w1)) w1 = (inr dbResult, w2) ->
        truthy (calendarEventId appointment) = true ->
        ICalendarService.deleteCalendarEvent cal
          (Svc.non_null (calendarEventId appointment)) = inl err ->
        exists w3,
          cancelAppointment cal appointmentId w = (inr true, w3)
          /\ calls w3
             = (calls w2
                ++ [Cal_deleteCalendarEvent
                      (Svc.non_null (calendarEventId appointment))])%list
          /\ rows w3 = rows w2
          /\ holds_record appointmentId
               (cancelled_at appointment (clock w)) (rows w3)
          /\ status (cancelled_at appointment (clock w)) = CANCELLED).
Proof.
  split.
  - intros appointmentId data w w1 w2 w3 a db err F P U T _.
    rewrite (editAppointment_after_checks cal _ _ _ _ _ _ F P).
    pose proof (editAppointment_write_cases cal appointmentId a
                  (rescheduled a data (clock w2)) w2) as W.
    rewrite U in W. destruct W as (w4 & E & R4 & C4).
    unfold calendar_update_calls in C4. rewrite T in C4.
    exists w4. split; [exact E|]. split; [exact C4|]. split; [exact R4|].
    apply repo_update_effect in U.
    destruct U as (_ & _ & row & more & _ & _ & R3).
    apply conflict_check_effect in P. destruct P as (R2 & T2 & _).
    apply repo_findById_effect in F. destruct F as (R1 & T1 & _).
    rewrite R4, R3, T2, T1. apply map_rows_of_holds.
  - intros appointmentId w w1 w2 a db err F V U T _.
    rewrite (cancelAppointment_after_checks cal _ _ _ _ F V).
    pose proof (cancelAppointment_write_cases cal appointmentId
                  (cancelled_at a (clock w1)) w1) as W.
    rewrite U in W. destruct W as (w3 & E & R3 & C3).
    unfold calendar_delete_calls in C3.
    change (calendarEventId (cancelled_at a (clock w1)))
      with (calendarEventId a) in C3.
    rewrite T in C3.
    exists w3. split; [exact E|]. split; [exact C3|]. split; [exact R3|].
    split; [|reflexivity].
    apply repo_update_effect in U.
    destruct U as (_ & _ & row & more & _ & _ & R2).
    apply repo_findById_effect in F. destruct F as (R1 & T1 & _).
    rewrite R3, R2, T1. apply map_rows_of_holds.
Qed.

Lemma sync_failure_after_store_write_is_swallowed_witness :
  (exists dbResult w4,
      editAppointment calendar_down id_ann payload_move_and_overpost
                      (sample_world 0)
      = (inr (Some dbResult), w4)
      /\ holds_record id_ann
           (rescheduled (Pg.mapRowToEntity row_ann)
                        payload_move_and_overpost 0)
           (rows w4))
  /\ (exists w3,
         cancelAppointment calendar_down id_ann (sample_world 0)
         = (inr true, w3)
         /\ holds_record id_ann (cancelled_at (Pg.mapRowToEntity row_ann) 0)
                         (rows w3)).
Proof.
  destruct (sync_failure_after_store_write_is_swallowed calendar_down)
    as (He & Hx).
  split.
  - edestruct (He id_ann payload_move_and_overpost (sample_world 0))
      as (w4 & E & _ & _ & H);
      [exact eq_refl | exact eq_refl | exact eq_refl | exact eq_refl
       | exact eq_refl |].
    eexists. exists w4. split; [exact E | exact H].
  - edestruct (Hx id_ann (sample_world 0))
      as (w3 & E & _ & _ & H & _);
      [exact eq_refl | exact eq_refl | exact eq_refl | exact eq_refl
       | exact eq_refl |].
    exists w3. split; [exact E | exact H].
Defined.

(** ** [editAppointment]: what a reschedule may change *)

Lemma row_of_id_unique (table : list DbRow.t) (r1 r2 : DbRow.t) :
  NoDup (map DbRow.id table) -> In r1 table -> In r2 table ->
  DbRow.id r1 = DbRow.id r2 -> r1 = r2.
Proof.
  induction table as [|x table IH]; simpl; [contradiction|].
  intros ND H1 H2 E. inversion ND as [|? ? Hnot ND']; subst.
  destruct H1 as [<-|H1], H2 as [<-|H2]; auto.
  - exfalso. apply Hnot. rewrite E. now apply in_map.
  - exfalso. apply Hnot. rewrite <- E. now apply in_map.
Qed.

Lemma Forall2_map_rows_of (P : DbRow.t -> DbRow.t -> Prop) (id' : string)
    (f : DbRow.t -> DbRow.t) (table : list DbRow.t) :
  (forall r, In r table -> P r (if Pg.has_id id' r then f r else r)) ->
  Forall2 P table (map_rows_of id' f table).
Proof.
  unfold map_rows_of.
  induction table as [|r table IH]; simpl; intros H; constructor.
  - apply H. now left.
  - apply IH. intros r' Hr'. apply H. now right.
Qed.

Lemma Forall2_same (P : DbRow.t -> DbRow.t -> Prop) (table : list DbRow.t) :
  (forall r, P r r) -> Forall2 P table table.
Proof. intros H. induction table; constructor; auto. Qed.

Lemma rescheduled_kept_fields (a : AppointmentEntity)
    (data : PartialRequest.t) (now : Date) :
  kept_fields (rescheduled a data now) = kept_fields a.
Proof. reflexivity. Qed.

Lemma set_from_rescheduled_kept_columns (row : DbRow.t)
    (data : PartialRequest.t) (now now' : Date) :
  kept_columns
    (set_from (rescheduled (Pg.mapRowToEntity row) data now) now' row)
  = kept_columns row.
Proof.
  unfold kept_columns. simpl.
  destruct (DbRow.calendar_event_id row) as [[|c s]|]; reflexivity.
Qed.

Lemma no_store_write_not_update (new : list Call) (id' : string)
    (u : AppointmentEntity) :
  no_store_write new -> ~ In (Repo_update id' u) new.
Proof.
  intros H Hin. unfold no_store_write in H. rewrite Forall_forall in H.
  apply H in Hin. discriminate Hin.
Qed.

(** C7.  For the appointment found by [editAppointment], on a table whose
    ids are distinct and whatever the payload carries: the only store update
    the call can make is for that id with the found record in which
    [startAt], [endAt], [type] (from the payload when given) and [updatedAt]
    are set and every other property is as found; and row by row the table
    afterwards agrees with the table before on every column other than
    [start_at], [end_at], [type] and [updated_at], rows of other ids being
    untouched. *)
Theorem editAppointment_changes_only_interval_and_type
    (cal : ICalendarService.t) (appointmentId : string)
    (data : PartialRequest.t) (w w1 : World) (appointment : AppointmentEntity) :
  NoDup (map DbRow.id (rows w)) ->
  Svc.repo_findById Pg.repository appointmentId w
  = (inr (Some appointment), w1) ->
  (exists new,
      calls (snd (editAppointment cal appointmentId data w))
      = (calls w ++ new)%list
      /\ forall id' u,
           In (Repo_update id' u) new ->
           id' = appointmentId
           /\ u = rescheduled appointment data (clock w)
           /\ kept_fields u = kept_fields appointment)
  /\ Forall2 (fun r r' =>
                kept_columns r' = kept_columns r
                /\ (Pg.has_id appointmentId r = false -> r' = r))
             (rows w)
             (rows (snd (editAppointment cal appointmentId data w))).
Proof.
  intros ND F.
  pose proof (repo_findById_effect _ _ _ _ F) as (R1 & T1 & _ & K).
  destruct (editAppointment_paths cal appointmentId data w)
    as [(e & w' & E & (R & new & C & S) & _)
       | (a' & w1' & w2 & F' & P & (R2 & new2 & C2 & S2) & E)];
    rewrite E.
  - simpl. split.
    + exists new. split; [exact C|]. intros id' u Hin.
      now apply no_store_write_not_update in Hin.
    + rewrite R. now apply Forall2_same.
  - rewrite F in F'. injection F' as <- <-.
    pose proof (conflict_check_effect _ _ _ _ P) as (_ & T2 & _).
    assert (T : clock w2 = clock w) by congruence.
    pose proof (editAppointment_write_cases cal appointmentId appointment
                  (rescheduled appointment data (clock w2)) w2) as W.
    destruct (Svc.repo_update Pg.repository appointmentId
                (rescheduled appointment data (clock w2)) w2)
      as [[e|db] w3] eqn:U;
      apply repo_update_effect in U; destruct U as (_ & C3 & K3).
    + rewrite W. simpl. destruct K3 as (_ & R3). split.
      * eexists. split; [rewrite C3, C2, <- app_assoc; reflexivity|].
        intros id' u Hin. apply in_app_or in Hin.
        destruct Hin as [Hin | [Hin | []]];
          [now apply no_store_write_not_update in Hin|].
        injection Hin as <- <-. rewrite T. auto.
      * rewrite R3, R2. now apply Forall2_same.
    + destruct W as (w4 & -> & R4 & C4). simpl.
      destruct K3 as (row & more & Frow & _ & R3). split.
      * eexists. split; [rewrite C4, C3, C2, <- !app_assoc; reflexivity|].
        intros id' u Hin. apply in_app_or in Hin.
        destruct Hin as [Hin | [Hin | Hin]];
          [now apply no_store_write_not_update in Hin | |].
        -- injection Hin as <- <-. rewrite T. auto.
        -- unfold calendar_update_calls in Hin.
           destruct (truthy (calendarEventId appointment));
             [destruct Hin as [Hin | []]; discriminate Hin | destruct Hin].
      * rewrite R4, R3, R2. apply Forall2_map_rows_of.
        intros r Hr. destruct (Pg.has_id appointmentId r) eqn:Hid;
          [|split; auto].
        split; [|discriminate].
        assert (Hrow : In row (rows w) /\ Pg.has_id appointmentId row = true).
        { apply filter_In. rewrite <- R2, Frow. now left. }
        destruct Hrow as (Hrow & Hrid).
        assert (r = row).
        { apply (row_of_id_unique (rows w)); auto.
          unfold Pg.has_id in Hid, Hrid.
          apply String.eqb_eq in Hid, Hrid. congruence. }
        subst r. rewrite R2 in Frow.
        rewrite Frow in K. simpl in K. injection K as ->.
        apply set_from_rescheduled_kept_columns.
Qed.

Lemma editAppointment_changes_only_interval_and_type_witness :
  (exists new,
      calls (snd (editAppointment calendar_up id_ann payload_move_and_overpost
                                  (sample_world 0)))
      = (calls (sample_world 0) ++ new)%list
      /\ forall id' u,
           In (Repo_update id' u) new ->
           id' = id_ann
           /\ u = rescheduled (Pg.mapRowToEntity row_ann)
                              payload_move_and_overpost
                              (clock (sample_world 0))
           /\ kept_fields u = kept_fields (Pg.mapRowToEntity row_ann))
  /\ Forall2 (fun r r' =>
                kept_columns r' = kept_columns r
                /\ (Pg.has_id id_ann r = false -> r' = r))
             (rows (sample_world 0))
             (rows (snd (editAppointment calendar_up id_ann
                                         payload_move_and_overpost
                                         (sample_world 0)))).
Proof.
  apply (editAppointment_changes_only_interval_and_type
           calendar_up id_ann payload_move_and_overpost (sample_world 0)
           (snd (Svc.repo_findById Pg.repository id_ann (sample_world 0)))
           (Pg.mapRowToEntity row_ann)).
  - repeat constructor; simpl; intuition discriminate.
  - reflexivity.
Defined.

(** The over-posting payload on the sample table: the row of [id_ann] moves to
    12:00-13:00 as a check-up and keeps its name, email and notes. *)
Example editAppointment_overposting_sample :
  rows (snd (editAppointment calendar_up id_ann payload_move_and_overpost
                             (sample_world 0)))
  = [ {| DbRow.id := id_ann; DbRow.first_name := "Ann"; DbRow.last_name := "Lee";
         DbRow.email := Some "ann@example.com"; DbRow.phone_number := None;
         DbRow.start_at := at_time 12 0; DbRow.end_at := at_time 13 0;
         DbRow.type := CHECK_UP; DbRow.status := SCHEDULED; DbRow.notes := [];
         DbRow.reason := None; DbRow.calendar_event_id := Some "evt-a1";
         DbRow.created_at := 0; DbRow.updated_at := Some 0 |};
      row_bob; row_cy; row_ann_later ].
Proof. reflexivity. Qed.

(** * Further properties of the store *)

Lemma has_id_true (id' : string) (r : DbRow.t) :
  Pg.has_id id' r = true <-> DbRow.id r = id'.
Proof. unfold Pg.has_id. apply String.eqb_eq. Qed.

Lemma has_id_false (id' : string) (r : DbRow.t) :
  Pg.has_id id' r = false <-> DbRow.id r <> id'.
Proof. unfold Pg.has_id. apply String.eqb_neq. Qed.

Lemma filter_has_id_nil (id' : string) (table : list DbRow.t) :
  filter (Pg.has_id id') table = [] <-> id_absent id' table.
Proof.
  unfold id_absent. split.
  - intros H r Hr E. apply has_id_true in E.
    assert (Hin : In r (filter (Pg.has_id id') table))
      by (apply filter_In; auto).
    rewrite H in Hin. destruct Hin.
  - intros H. induction table as [|x table IH]; simpl; [reflexivity|].
    destruct (Pg.has_id id' x) eqn:E.
    + apply has_id_true in E. exfalso. apply (H x); [now left | exact E].
    + apply IH. intros r Hr. apply H. now right.
Qed.


Lemma pool_connect_no_faults (w : World) :
  no_faults w -> Pg.pool_connect w = (inr tt, w).
Proof. unfold no_faults, Pg.pool_connect. now intros ->. Qed.

Lemma query_select_no_faults (p : DbRow.t -> bool) (w : World) :
  no_faults w -> Pg.query_select p w = (inr (filter p (rows w)), w).
Proof.
  intros H. unfold Pg.query_select, bind.
  now rewrite (pool_connect_no_faults w H).
Qed.

Lemma no_faults_connected (w : World) : no_faults w -> connected w.
Proof. unfold no_faults, connected. now intros ->. Qed.






Lemma findById_no_faults (id' : string) (w : World) :
  no_faults w ->
  Pg.findById id' w
  = (inr (option_map Pg.mapRowToEntity
                     (hd_error (filter (Pg.has_id id') (rows w)))), w).
Proof.
  intros H. unfold Pg.findById, bind.
  rewrite (query_select_no_faults _ w H).
  now destruct (filter (Pg.has_id id') (rows w)).
Qed.



(** ** [create] *)

Lemma is_none_or_null (x : option string) :
  Pg.is_none (or_null x) = negb (truthy x).
Proof. unfold or_null. destruct x as [[|c s]|]; reflexivity. Qed.

Lemma or_null_idempotent (x : option string) : or_null (or_null x) = or_null x.
Proof. unfold or_null. destruct x as [[|c s]|]; reflexivity. Qed.

Lemma existsb_same_slot_false (start_at end_at : Date) (table : list DbRow.t) :
  existsb (Pg.same_slot start_at end_at) table = false
  <-> slot_free start_at end_at table.
Proof.
  unfold slot_free. split.
  - intros H r Hr (E1 & E2).
    assert (Ht : existsb (Pg.same_slot start_at end_at) table = true).
    { apply existsb_exists. exists r. split; [exact Hr|].
      unfold Pg.same_slot. rewrite E1, E2, !Z.eqb_refl. reflexivity. }
    congruence.
  - intros H. apply not_true_is_false. intros Ht.
    apply existsb_exists in Ht. destruct Ht as (r & Hr & Hs).
    unfold Pg.same_slot in Hs. apply andb_true_iff in Hs.
    destruct Hs as (E1 & E2). apply Z.eqb_eq in E1, E2.
    now apply (H r Hr).
Qed.

(** X4.  With the connection up, [create] succeeds exactly when both names
    fit their [varchar(150)] column, the email or the phone number is
    present and not empty, the interval is not empty or inverted, and no
    row, whatever its status, has the same start and end; a failed create
    leaves the table as it was. *)
Theorem create_succeeds_iff (a : AppointmentEntity) (w : World) :
  connected w ->
  ((exists e w', Pg.create a w = (inr e, w'))
   <-> fits_varchar_150 (firstName a)
       /\ fits_varchar_150 (lastName a)
       /\ (truthy (email a) = true \/ truthy (phoneNumber a) = true)
       /\ startAt a < endAt a
       /\ slot_free (startAt a) (endAt a) (rows w))
  /\ (forall e w', Pg.create a w = (inl e, w') -> rows w' = rows w).
Proof.
  intros Hc. split.
  2:{ intros e w' H.
      destruct (create_cases a w) as (w1 & _ & [(c & E & R) | (r & E & _)]);
        rewrite E in H; [now injection H as _ <- | discriminate]. }
  unfold Pg.create, try_catch, Pg.query_insert, bind, fits_varchar_150.
  destruct (pool_connect_cases w) as (w1 & (R & _) & [[_ E] | [N _]]);
    [|contradiction].
  rewrite E, R, !is_none_or_null.
  destruct (Pg.varchar 150 (firstName a)) as [f|].
  2:{ split; [intros (e & w' & H); discriminate H | intros (H & _); congruence]. }
  destruct (Pg.varchar 150 (lastName a)) as [l|].
  2:{ split; [intros (e & w' & H); discriminate H
             | intros (_ & H & _); congruence]. }
  destruct (truthy (email a)), (truthy (phoneNumber a)); simpl negb;
    simpl andb; cbv iota beta;
    try (destruct (startAt a <? endAt a) eqn:L; simpl negb; cbv iota;
         [apply Z.ltb_lt in L
         | apply Z.ltb_ge in L;
           split; [intros (e & w' & H); discriminate H
                  | intros (_ & _ & _ & H & _); lia]];
         destruct (existsb (Pg.same_slot (startAt a) (endAt a)) (rows w))
           eqn:X;
         [ split; [intros (e & w' & H); discriminate H|];
           intros (_ & _ & _ & _ & H);
           apply existsb_same_slot_false in H; congruence
         | apply existsb_same_slot_false in X;
           split; [intros _; repeat split; auto; discriminate
                  | intros _; eexists; eexists; reflexivity] ]).
  split; [intros (e & w' & H); discriminate H|].
  intros (_ & _ & [H | H] & _); discriminate H.
Qed.

Lemma create_succeeds_iff_witness :
  ((exists e w', Pg.create entity_dee (sample_world 0) = (inr e, w'))
   <-> fits_varchar_150 (firstName entity_dee)
       /\ fits_varchar_150 (lastName entity_dee)
       /\ (truthy (email entity_dee) = true
           \/ truthy (phoneNumber entity_dee) = true)
       /\ startAt entity_dee < endAt entity_dee
       /\ slot_free (startAt entity_dee) (endAt entity_dee)
                    (rows (sample_world 0)))
  /\ (forall e w', Pg.create entity_dee (sample_world 0) = (inl e, w') ->
                   rows w' = rows (sample_world 0)).
Proof. apply create_succeeds_iff. reflexivity. Defined.

Lemma create_returns_row (a : AppointmentEntity) (w w' : World)
    (e : AppointmentEntity) :
  Pg.create a w = (inr e, w') ->
  exists f l,
    Pg.varchar 150 (firstName a) = Some f
    /\ Pg.varchar 150 (lastName a) = Some l
    /\ let row :=
         {| DbRow.id := Pg.gen_random_uuid (uuid_counter w);
            DbRow.first_name := f;
            DbRow.last_name := l;
            DbRow.email := or_null (email a);
            DbRow.phone_number := or_null (phoneNumber a);
            DbRow.start_at := startAt a;
            DbRow.end_at := endAt a;
            DbRow.type := type a;
            DbRow.status := SCHEDULED;
            DbRow.notes := notes a;
            DbRow.reason := or_null (reason a);
            DbRow.calendar_event_id := or_null (calendarEventId a);
            DbRow.created_at := clock w;
            DbRow.updated_at := None |} in
       e = Pg.mapRowToEntity row
       /\ rows w' = (rows w ++ [row])%list
       /\ faults w' = tl (faults w)
       /\ uuid_counter w' = S (uuid_counter w).
Proof.
  unfold Pg.create, try_catch, Pg.query_insert, bind.
  destruct (pool_connect_cases w)
    as (w1 & (R & T & U & C) & [[_ E] | [_ E]]); rewrite E;
    [|discriminate].
  assert (F : faults w1 = tl (faults w)).
  { unfold Pg.pool_connect in E.
    destruct (faults w) as [|[|] fs] eqn:Fw; inversion E; subst;
      [exact Fw | reflexivity]. }
  destruct (Pg.varchar 150 (firstName a)) as [f|]; [|discriminate].
  destruct (Pg.varchar 150 (lastName a)) as [l|]; [|discriminate].
  destruct (Pg.is_none (or_null (email a))
            && Pg.is_none (or_null (phoneNumber a))); [discriminate|].
  destruct (negb (startAt a <? endAt a)); [discriminate|].
  destruct (existsb (Pg.same_slot (startAt a) (endAt a)) (rows w1));
    [discriminate|].
  intros H. simpl in H. unfold ret in H. injection H as <- <-.
  exists f, l. split; [reflexivity|]. split; [reflexivity|].
  simpl. rewrite R, T, U. auto.
Qed.

(** X5.  Whatever the record handed to [create] says about its id, status,
    creation and modification times, the record a successful [create]
    returns has a fresh id, status scheduled, the current time as creation
    time and no modification time; interval, type and notes are those
    given, and email, phone, reason and calendar event id are those given
    with an empty string read as absent.  The table gains exactly one row,
    at its end. *)
Theorem create_result (a : AppointmentEntity) (w w' : World)
    (e : AppointmentEntity) :
  Pg.create a w = (inr e, w') ->
  id e = Some (Pg.gen_random_uuid (uuid_counter w))
  /\ status e = SCHEDULED
  /\ createdAt e = Some (clock w)
  /\ updatedAt e = None
  /\ startAt e = startAt a /\ endAt e = endAt a
  /\ type e = type a /\ notes e = notes a
  /\ email e = or_null (email a)
  /\ phoneNumber e = or_null (phoneNumber a)
  /\ reason e = or_null (reason a)
  /\ calendarEventId e = or_null (calendarEventId a)
  /\ Pg.varchar 150 (firstName a) = Some (firstName e)
  /\ Pg.varchar 150 (lastName a) = Some (lastName e)
  /\ exists row, e = Pg.mapRowToEntity row
                 /\ rows w' = (rows w ++ [row])%list.
Proof.
  intros H. apply create_returns_row in H.
  destruct H as (f & l & Hf & Hl & -> & R & _).
  simpl. rewrite !or_null_idempotent.
  repeat (split; [first [reflexivity | assumption]|]).
  eexists. split; [reflexivity | exact R].
Qed.

Lemma create_result_witness :
  id (Pg.mapRowToEntity row_dee) = Some (Pg.gen_random_uuid 4)
  /\ status (Pg.mapRowToEntity row_dee) = SCHEDULED
  /\ createdAt (Pg.mapRowToEntity row_dee) = Some 0
  /\ updatedAt (Pg.mapRowToEntity row_dee) = None
  /\ startAt (Pg.mapRowToEntity row_dee) = startAt entity_dee_cancelled
  /\ endAt (Pg.mapRowToEntity row_dee) = endAt entity_dee_cancelled
  /\ type (Pg.mapRowToEntity row_dee) = type entity_dee_cancelled
  /\ notes (Pg.mapRowToEntity row_dee) = notes entity_dee_cancelled
  /\ email (Pg.mapRowToEntity row_dee) = or_null (email entity_dee_cancelled)
  /\ phoneNumber (Pg.mapRowToEntity row_dee)
     = or_null (phoneNumber entity_dee_cancelled)
  /\ reason (Pg.mapRowToEntity row_dee) = or_null (reason entity_dee_cancelled)
  /\ calendarEventId (Pg.mapRowToEntity row_dee)
     = or_null (calendarEventId entity_dee_cancelled)
  /\ Pg.varchar 150 (firstName entity_dee_cancelled)
     = Some (firstName (Pg.mapRowToEntity row_dee))
  /\ Pg.varchar 150 (lastName entity_dee_cancelled)
     = Some (lastName (Pg.mapRowToEntity row_dee))
  /\ exists row, Pg.mapRowToEntity row_dee = Pg.mapRowToEntity row
                 /\ rows (snd (Pg.create entity_dee_cancelled (sample_world 0)))
                    = (rows (sample_world 0) ++ [row])%list.
Proof.
  exact (create_result entity_dee_cancelled (sample_world 0)
           (snd (Pg.create entity_dee_cancelled (sample_world 0)))
           (Pg.mapRowToEntity row_dee) eq_refl).
Defined.

(** X6.  Round trip: after a successful [create] whose new id no earlier
    row carries, and with the connection up, [findById] of the returned id
    gives back exactly the record that [create] returned. *)
Theorem create_then_findById (a : AppointmentEntity) (w w' : World)
    (e : AppointmentEntity) :
  Pg.create a w = (inr e, w') ->
  id_absent (Pg.gen_random_uuid (uuid_counter w)) (rows w) ->
  connected w' ->
  exists w'',
    Pg.findById (Pg.gen_random_uuid (uuid_counter w)) w' = (inr (Some e), w'')
    /\ rows w'' = rows w'.
Proof.
  intros H Hfresh Hc. apply create_returns_row in H.
  destruct H as (f & l & _ & _ & -> & R & _).
  destruct (findById_cases (Pg.gen_random_uuid (uuid_counter w)) w')
    as (w'' & (R' & _) & [[_ E] | [N _]]); [|contradiction].
  exists w''. split; [|exact R'].
  rewrite E, R. rewrite filter_app.
  rewrite (proj2 (filter_has_id_nil _ (rows w)) Hfresh). simpl.
  unfold Pg.has_id at 1. simpl DbRow.id. rewrite String.eqb_refl.
  reflexivity.
Qed.

Lemma create_then_findById_witness :
  exists w'',
    Pg.findById (Pg.gen_random_uuid 4)
                (snd (Pg.create entity_dee (sample_world 0)))
    = (inr (Some (Pg.mapRowToEntity row_dee)), w'')
    /\ rows w'' = rows (snd (Pg.create entity_dee (sample_world 0))).
Proof.
  apply (create_then_findById entity_dee (sample_world 0)
           (snd (Pg.create entity_dee (sample_world 0)))
           (Pg.mapRowToEntity row_dee) eq_refl).
  - intros r [<-|[<-|[<-|[<-|[]]]]]; discriminate.
  - reflexivity.
Defined.

(** ** [isAvailable] *)

Lemma getConflictingAppointments_connected
    (startAt' endAt' : Date) (excludeId : option string) (w : World) :
  connected w ->
  Forall (fun r => DbRow.id r <> "") (rows w) ->
  exists w',
    Pg.getConflictingAppointments startAt' endAt' excludeId w
    = (inr (map Pg.mapRowToEntity
                (findConflicting_spec startAt' endAt' excludeId (rows w))),
       w')
    /\ only_faults_consumed w w'.
Proof.
  intros Hc Hids.
  destruct (getConflictingAppointments_cases startAt' endAt' excludeId w)
    as (w' & K & [[_ E] | [N _]]); [|contradiction].
  exists w'. split; [|exact K]. rewrite E. do 3 f_equal.
  unfold findConflicting_spec. apply filter_ext_in. intros r Hr.
  apply conflicts_with_spec. rewrite Forall_forall in Hids. now apply Hids.
Qed.

(** X7.  With the connection up and on a table of non-empty ids,
    [isAvailable] answers [true] exactly when no active row overlaps the
    interval (the excluded id apart), and changes no row; rows that are
    cancelled or completed never make a slot unavailable. *)
Theorem isAvailable_iff_no_conflict
    (startAt' endAt' : Date) (excludeId : option string) (w : World) :
  connected w ->
  Forall (fun r => DbRow.id r <> "") (rows w) ->
  exists b w',
    Pg.isAvailable startAt' endAt' excludeId w = (inr b, w')
    /\ rows w' = rows w
    /\ (b = true
        <-> findConflicting_spec startAt' endAt' excludeId (rows w) = []).
Proof.
  intros Hc Hids.
  destruct (getConflictingAppointments_connected startAt' endAt' excludeId w
              Hc Hids) as (w' & E & (R & _)).
  unfold Pg.isAvailable, bind. rewrite E. unfold ret.
  eexists. exists w'. split; [reflexivity|]. split; [exact R|].
  destruct (findConflicting_spec startAt' endAt' excludeId (rows w));
    simpl; split; congruence.
Qed.

Lemma isAvailable_iff_no_conflict_witness :
  exists b w',
    Pg.isAvailable (at_time 14 30) (at_time 15 30) None (sample_world 0)
    = (inr b, w')
    /\ rows w' = rows (sample_world 0)
    /\ (b = true
        <-> findConflicting_spec (at_time 14 30) (at_time 15 30) None
                                 (rows (sample_world 0)) = []).
Proof.
  apply isAvailable_iff_no_conflict.
  - reflexivity.
  - repeat constructor; discriminate.
Defined.

(** Overlapping only the cancelled [row_cy], 14:30 to 15:30 is available. *)
Example isAvailable_over_cancelled_sample :
  fst (Pg.isAvailable (at_time 14 30) (at_time 15 30) None (sample_world 0))
  = inr true.
Proof. reflexivity. Qed.

Lemma createAppointment_by_conflicts
    (cal : ICalendarService.t) (data : ScheduleRequest.t) (w w1 : World)
    (r : exn + list AppointmentEntity) :
  Svc.repo_getConflictingAppointments Pg.repository
    (ScheduleRequest.startAt data) (ScheduleRequest.endAt data) None w
  = (r, w1) ->
  match r with
  | inl e => createAppointment cal data w = (inl e, w1)
  | inr [] => createAppointment cal data w = createAppointment_write cal data w1
  | inr (c :: cs) =>
      exists m, createAppointment cal data w
                = (inl (TimeSlotUnavailableError m), w1)
  end.
Proof.
  intros G.
  destruct r as [e|[|c cs]]; unfold createAppointment, Svc.createAppointment;
    unfold bind at 1; rewrite G; try reflexivity.
  change (0 <? Datatypes.length (c :: cs))%nat with true. cbv iota.
  destruct (find _ (c :: cs)); unfold throw; eauto.
Qed.

(** X8.  With the connection up and on a table of non-empty ids,
    [createAppointment] fails with [TimeSlotUnavailableError] exactly when
    [isAvailable] answers [false] for the requested interval on the same
    table. *)
Theorem createAppointment_unavailable_iff
    (cal : ICalendarService.t) (data : ScheduleRequest.t) (w : World) :
  connected w ->
  Forall (fun r => DbRow.id r <> "") (rows w) ->
  (exists m w',
      createAppointment cal data w = (inl (TimeSlotUnavailableError m), w'))
  <-> fst (Pg.isAvailable (ScheduleRequest.startAt data)
                          (ScheduleRequest.endAt data) None w)
      = inr false.
Proof.
  intros Hc Hids.
  set (s := ScheduleRequest.startAt data).
  set (e := ScheduleRequest.endAt data).
  destruct (getConflictingAppointments_connected s e None w Hc Hids)
    as (wa & Ea & _).
  unfold Pg.isAvailable, bind. rewrite Ea. unfold ret. simpl fst.
  destruct (getConflictingAppointments_connected s e None
              (logged (Repo_getConflictingAppointments s e None) w) Hc Hids)
    as (w1 & E1 & _).
  rewrite <- repo_getConflictingAppointments_eq in E1.
  pose proof (createAppointment_by_conflicts cal data w w1 _ E1) as P.
  simpl rows in P. fold s e in P.
  destruct (findConflicting_spec s e None (rows w)) as [|r rs]; simpl in *.
  - split; [|discriminate]. intros (m & w' & H). exfalso.
    rewrite P in H.
    pose proof (createAppointment_write_errors cal data w1) as K.
    rewrite H in K. simpl in K.
    destruct K as [(c & K) | (m' & K)]; discriminate K.
  - split; [reflexivity|]. intros _. destruct P as (m & P). eauto.
Qed.

Lemma createAppointment_unavailable_iff_witness :
  (exists m w',
      createAppointment calendar_up request_ann_overlapping (sample_world 0)
      = (inl (TimeSlotUnavailableError m), w'))
  <-> fst (Pg.isAvailable (ScheduleRequest.startAt request_ann_overlapping)
                          (ScheduleRequest.endAt request_ann_overlapping)
                          None (sample_world 0))
      = inr false.
Proof.
  apply createAppointment_unavailable_iff.
  - reflexivity.
  - repeat constructor; discriminate.
Defined.

(** ** [getActiveAppointmentsByEmailOrPhone]: what is selected *)

Lemma active_with_contact_iff (emailOrPhone : string) (r : DbRow.t) :
  Pg.active_with_contact emailOrPhone r = true
  <-> (DbRow.email r = Some emailOrPhone
       \/ DbRow.phone_number r = Some emailOrPhone)
      /\ is_active (DbRow.status r) = true.
Proof.
  unfold Pg.active_with_contact.
  rewrite andb_true_iff, orb_true_iff, !strict_eq_true.
  replace (Pg.status_in_scheduled_confirmed (DbRow.status r))
    with (is_active (DbRow.status r)) by (destruct (DbRow.status r); reflexivity).
  reflexivity.
Qed.

(** X9.  With the connection up, [getActiveAppointmentsByEmailOrPhone]
    returns the entities of exactly the rows whose email or phone column
    equals the given value and whose status is scheduled or confirmed, each
    as often as it occurs, in ascending order of start; no returned record
    is cancelled or completed, and no row changes. *)
Theorem getActiveAppointmentsByEmailOrPhone_selects
    (emailOrPhone : string) (w : World) :
  connected w ->
  exists selected w',
    Pg.getActiveAppointmentsByEmailOrPhone emailOrPhone w
    = (inr (map Pg.mapRowToEntity selected), w')
    /\ rows w' = rows w
    /\ Permutation (filter (Pg.active_with_contact emailOrPhone) (rows w))
                   selected
    /\ (forall r, In r selected
                  <-> In r (rows w)
                      /\ (DbRow.email r = Some emailOrPhone
                          \/ DbRow.phone_number r = Some emailOrPhone)
                      /\ is_active (DbRow.status r) = true)
    /\ Sorted start_at_le selected
    /\ (forall a, In a (map Pg.mapRowToEntity selected) ->
                  status a <> CANCELLED /\ status a <> COMPLETED).
Proof.
  intros Hc.
  destruct (query_select_cases (Pg.active_with_contact emailOrPhone) w)
    as (w' & (R & _) & [[_ E] | [C _]]); [|contradiction].
  set (sel := filter (Pg.active_with_contact emailOrPhone) (rows w)).
  assert (Hmem : forall r, In r (Pg.order_by_start_at sel)
                           <-> In r (rows w)
                               /\ (DbRow.email r = Some emailOrPhone
                                   \/ DbRow.phone_number r = Some emailOrPhone)
                               /\ is_active (DbRow.status r) = true).
  { intros r. rewrite <- active_with_contact_iff, <- filter_In. fold sel.
    split; apply Permutation_in;
      [symmetry|]; apply order_by_start_at_perm. }
  exists (Pg.order_by_start_at sel), w'.
  split; [|split; [exact R|split; [|split; [exact Hmem|split]]]].
  - unfold Pg.getActiveAppointmentsByEmailOrPhone, bind. now rewrite E.
  - apply order_by_start_at_perm.
  - generalize sel. intros l. induction l as [|x l IH]; simpl; [constructor|].
    now apply insert_by_start_at_sorted.
  - intros a Ha. apply in_map_iff in Ha. destruct Ha as (r & <- & Hr).
    apply Hmem in Hr. destruct Hr as (_ & _ & Hs).
    change (status (Pg.mapRowToEntity r)) with (DbRow.status r).
    destruct (DbRow.status r); split; discriminate.
Qed.

Lemma getActiveAppointmentsByEmailOrPhone_selects_witness :
  exists selected w',
    Pg.getActiveAppointmentsByEmailOrPhone "cy@example.com" (sample_world 0)
    = (inr (map Pg.mapRowToEntity selected), w')
    /\ rows w' = rows (sample_world 0)
    /\ Permutation (filter (Pg.active_with_contact "cy@example.com")
                           (rows (sample_world 0)))
                   selected
    /\ (forall r, In r selected
                  <-> In r (rows (sample_world 0))
                      /\ (DbRow.email r = Some "cy@example.com"
                          \/ DbRow.phone_number r = Some "cy@example.com")
                      /\ is_active (DbRow.status r) = true)
    /\ Sorted start_at_le selected
    /\ (forall a, In a (map Pg.mapRowToEntity selected) ->
                  status a <> CANCELLED /\ status a <> COMPLETED).
Proof.
  apply getActiveAppointmentsByEmailOrPhone_selects. reflexivity.
Defined.

(** * Further properties of the engine *)

(** ** [createAppointment]: the successful booking *)

Lemma varchar_short (s : string) :
  (String.length s <= 150)%nat -> Pg.varchar 150 s = Some s.
Proof.
  intros H. unfold Pg.varchar.
  now rewrite (proj2 (Nat.leb_le _ _) H).
Qed.

Lemma conflicts_with_none_false (start end_ : Date) (table : list DbRow.t) :
  no_active_row_overlaps start end_ table ->
  filter (Pg.conflicts_with start end_ None) table = [].
Proof.
  intros H. induction table as [|r table IH]; simpl; [reflexivity|].
  rewrite IH by (intros r' Hr'; apply H; now right).
  unfold Pg.conflicts_with. simpl. rewrite andb_true_r.
  replace (Pg.status_in_scheduled_confirmed (DbRow.status r))
    with (is_active (DbRow.status r)) by (destruct (DbRow.status r); reflexivity).
  destruct (is_active (DbRow.status r)) eqn:A; [|now rewrite andb_false_r].
  specialize (H r (or_introl eq_refl) A). unfold overlaps in H.
  now rewrite H.
Qed.

Lemma create_from_request_no_faults (data : ScheduleRequest.t) (w : World) :
  no_faults w ->
  (String.length (ScheduleRequest.firstName data) <= 150)%nat ->
  (String.length (ScheduleRequest.lastName data) <= 150)%nat ->
  truthy (ScheduleRequest.email data) = true
  \/ truthy (ScheduleRequest.phoneNumber data) = true ->
  ScheduleRequest.startAt data < ScheduleRequest.endAt data ->
  slot_free (ScheduleRequest.startAt data) (ScheduleRequest.endAt data)
            (rows w) ->
  Pg.create (AppointmentEntity_fromRequest data (clock w)) w
  = (inr (Pg.mapRowToEntity
            (row_for data (Pg.gen_random_uuid (uuid_counter w)) (clock w)
                     None None)),
     set_uuid_counter (S (uuid_counter w))
       (set_rows (rows w
                  ++ [row_for data (Pg.gen_random_uuid (uuid_counter w))
                              (clock w) None None])
                 w)).
Proof.
  intros Hf Hfn Hln Hcontact Hlt Hfree.
  unfold Pg.create, try_catch, Pg.query_insert, bind.
  rewrite (pool_connect_no_faults w Hf). simpl firstName. simpl lastName.
  rewrite (varchar_short _ Hfn), (varchar_short _ Hln).
  rewrite !is_none_or_null. simpl email. simpl phoneNumber.
  assert (H1 : negb (truthy (ScheduleRequest.email data))
               && negb (truthy (ScheduleRequest.phoneNumber data)) = false).
  { destruct Hcontact as [-> | ->]; simpl; [reflexivity|].
    apply andb_false_r. }
  rewrite H1. simpl startAt. simpl endAt.
  rewrite (proj2 (Z.ltb_lt _ _) Hlt). simpl negb. cbv iota.
  rewrite (proj2 (existsb_same_slot_false _ _ _) Hfree).
  reflexivity.
Qed.

(** X10.  On a pool without failures: if the names fit, a contact is
    present, the interval is well-formed, no active row overlaps it, no row
    at all has exactly its start and end, the next id is fresh and the
    calendar accepts the event with reference [eventId], then
    [createAppointment] returns the persisted record with status scheduled
    and that reference attached; the table is the old one followed by that
    row, and the engine called, in order, the conflict query, the store
    create, the calendar create and the store update. *)
Theorem createAppointment_books
    (cal : ICalendarService.t) (data : ScheduleRequest.t) (w : World)
    (eventId : string) :
  no_faults w ->
  (String.length (ScheduleRequest.firstName data) <= 150)%nat ->
  (String.length (ScheduleRequest.lastName data) <= 150)%nat ->
  truthy (ScheduleRequest.email data) = true
  \/ truthy (ScheduleRequest.phoneNumber data) = true ->
  ScheduleRequest.startAt data < ScheduleRequest.endAt data ->
  no_active_row_overlaps (ScheduleRequest.startAt data)
                         (ScheduleRequest.endAt data) (rows w) ->
  slot_free (ScheduleRequest.startAt data) (ScheduleRequest.endAt data)
            (rows w) ->
  id_absent (Pg.gen_random_uuid (uuid_counter w)) (rows w) ->
  ICalendarService.createCalendarEvent cal
    (Pg.mapRowToEntity
       (row_for data (Pg.gen_random_uuid (uuid_counter w)) (clock w)
                None None))
  = inr eventId ->
  let booked :=
    row_for data (Pg.gen_random_uuid (uuid_counter w)) (clock w)
            (Some eventId) (Some (clock w)) in
  exists w',
    createAppointment cal data w = (inr (Pg.mapRowToEntity booked), w')
    /\ rows w' = (rows w ++ [booked])%list
    /\ exists created updated,
         calls w'
         = (calls w
            ++ [Repo_getConflictingAppointments
                  (ScheduleRequest.startAt data) (ScheduleRequest.endAt data)
                  None;
                Repo_create (AppointmentEntity_fromRequest data (clock w));
                Cal_createCalendarEvent created;
                Repo_update (Pg.gen_random_uuid (uuid_counter w)) updated])%list.
Proof.
  intros Hf Hfn Hln Hcontact Hlt Hno Hfree Hfresh Hcal booked.
  set (s := ScheduleRequest.startAt data) in *.
  set (e := ScheduleRequest.endAt data) in *.
  set (newid := Pg.gen_random_uuid (uuid_counter w)) in *.
  set (w1 := logged (Repo_getConflictingAppointments s e None) w).
  assert (G : Svc.repo_getConflictingAppointments Pg.repository s e None w
              = (inr [], w1)).
  { rewrite repo_getConflictingAppointments_eq.
    unfold Pg.getConflictingAppointments, bind.
    rewrite (query_select_no_faults _ w1 Hf). simpl rows.
    now rewrite (conflicts_with_none_false s e (rows w) Hno). }
  rewrite (createAppointment_after_check cal data w w1 G).
  unfold createAppointment_write.
  unfold bind at 1. unfold new_Date at 1. unfold bind at 1.
  rewrite repo_create_eq.
  set (w1c := logged (Repo_create (AppointmentEntity_fromRequest data (clock w1))) w1).
  pose proof (create_from_request_no_faults data w1c Hf Hfn Hln Hcontact Hlt
                Hfree) as Cr.
  change (clock w1c) with (clock w) in Cr.
  change (clock w1) with (clock w) in *.
  change (uuid_counter w1c) with (uuid_counter w) in Cr.
  fold newid in Cr. rewrite Cr. clear Cr.
  set (row0 := row_for data newid (clock w) None None) in *.
  set (w2 := set_uuid_counter _ _).
  unfold try_catch at 1. unfold bind at 1.
  unfold Svc.cal_createCalendarEvent, bind, record_call, Svc.lift.
  rewrite Hcal. unfold new_Date.
  set (w2c := set_calls _ w2).
  set (upd := set_updatedAt _ _).
  change (Svc.non_null (id upd)) with newid.
  match goal with
  | |- context [Svc.repo_update Pg.repository newid upd w2c] =>
      rewrite (repo_update_eq newid upd w2c)
  end.
  set (w2u := logged (Repo_update newid upd) w2c).
  assert (Hrows : rows w2u = (rows w ++ [row0])%list) by reflexivity.
  assert (Hfilter : filter (Pg.has_id newid) (rows w2u) = [row0]).
  { rewrite Hrows, filter_app.
    rewrite (proj2 (filter_has_id_nil newid (rows w)) Hfresh). simpl.
    unfold Pg.has_id. simpl DbRow.id. now rewrite String.eqb_refl. }
  destruct (update_succeeds newid upd w2u row0) as (w3 & U & R3 & (_ & C3)).
  - apply no_faults_connected. exact Hf.
  - exact Hfilter.
  - simpl. destruct Hcontact as [H | H]; [left | right];
      unfold or_null; rewrite H; intros K;
      [destruct (ScheduleRequest.email data)
      | destruct (ScheduleRequest.phoneNumber data)]; discriminate.
  - exact Hlt.
  - intros r' Hr' Hid. rewrite Hrows in Hr'. apply in_app_or in Hr'.
    destruct Hr' as [Hr' | [<- | []]]; [|now elim Hid].
    apply not_true_is_false. intros Hs. unfold Pg.same_slot in Hs.
    apply andb_true_iff in Hs. destruct Hs as (E1 & E2).
    apply Z.eqb_eq in E1, E2. now apply (Hfree r' Hr').
  - rewrite U. unfold ret. exists w3.
    split; [reflexivity|]. split.
    + rewrite R3, Hrows. unfold map_rows_of. rewrite map_app. simpl.
      f_equal.
      * rewrite <- (map_id (rows w)) at 2. apply map_ext_in.
        intros r Hr. rewrite (proj2 (has_id_false newid r) (Hfresh r Hr)).
        reflexivity.
      * unfold Pg.has_id. simpl DbRow.id. rewrite String.eqb_refl.
        reflexivity.
    + eexists. eexists. rewrite C3. simpl.
      rewrite <- !app_assoc. reflexivity.
Qed.

Lemma createAppointment_books_witness :
  exists w',
    createAppointment calendar_up request_free_slot (sample_world 0)
    = (inr (Pg.mapRowToEntity row_dee_booked), w')
    /\ rows w' = (rows (sample_world 0) ++ [row_dee_booked])%list
    /\ exists created updated,
         calls w'
         = (calls (sample_world 0)
            ++ [Repo_getConflictingAppointments (at_time 12 0) (at_time 13 0)
                                                None;
                Repo_create (AppointmentEntity_fromRequest request_free_slot 0);
                Cal_createCalendarEvent created;
                Repo_update (Pg.gen_random_uuid 4) updated])%list.
Proof.
  apply (createAppointment_books calendar_up request_free_slot
           (sample_world 0) "evt-new").
  - reflexivity.
  - simpl. lia.
  - simpl. lia.
  - left. reflexivity.
  - reflexivity.
  - intros r [<-|[<-|[<-|[<-|[]]]]] _; reflexivity.
  - intros r [<-|[<-|[<-|[<-|[]]]]] (E1 & _); discriminate E1.
  - intros r [<-|[<-|[<-|[<-|[]]]]]; discriminate.
  - reflexivity.
Defined.



(** ** [editAppointment]: when the conflict query runs *)

Lemma editAppointment_write_calls
    (cal : ICalendarService.t) (appointmentId : string)
    (appointment updated : AppointmentEntity) (w : World) :
  exists new,
    calls (snd (editAppointment_write cal appointmentId appointment updated w))
    = (calls w ++ new)%list
    /\ forall s e x, ~ In (Repo_getConflictingAppointments s e x) new.
Proof.
  pose proof (editAppointment_write_cases cal appointmentId appointment
                updated w) as W.
  destruct (Svc.repo_update Pg.repository appointmentId updated w)
    as [[e|db] w2] eqn:U;
    apply repo_update_effect in U; destruct U as (_ & C & _).
  - rewrite W. simpl. exists [Repo_update appointmentId updated].
    split; [exact C|]. intros s e' x [H | []]. discriminate H.
  - destruct W as (w3 & -> & _ & C3). simpl.
    exists (Repo_update appointmentId updated
            :: calendar_update_calls appointment db).
    split.
    + rewrite C3, C, <- app_assoc. reflexivity.
    + intros s e x [H | H]; [discriminate H|].
      unfold calendar_update_calls in H.
      destruct (truthy (calendarEventId appointment));
        [destruct H as [H | []]; discriminate H | destruct H].
Qed.

(** X12.  [editAppointment] asks the store for conflicts exactly when the
    appointment is found and the payload carries both a start and an end,
    and then once, for that interval with the edited id excluded; a payload
    with only one end of the interval is written without any conflict
    query. *)
Theorem editAppointment_conflict_query_iff
    (cal : ICalendarService.t) (appointmentId : string)
    (data : PartialRequest.t) (w : World) :
  exists new,
    calls (snd (editAppointment cal appointmentId data w))
    = (calls w ++ new)%list
    /\ forall s e x,
         In (Repo_getConflictingAppointments s e x) new
         <-> PartialRequest.startAt data = Some s
             /\ PartialRequest.endAt data = Some e
             /\ x = Some appointmentId
             /\ exists appointment w1,
                  Svc.repo_findById Pg.repository appointmentId w
                  = (inr (Some appointment), w1).
Proof.
  destruct (Svc.repo_findById Pg.repository appointmentId w)
    as [[err|[a|]] w1] eqn:F;
    pose proof (repo_findById_effect _ _ _ _ F) as (_ & _ & C1 & _).
  1,3: exists [Repo_findById appointmentId];
       unfold editAppointment, Svc.editAppointment;
       unfold bind at 1; rewrite F; unfold throw; simpl;
       (split; [exact C1|]);
       intros s e x; (split; [intros [H | []]; discriminate H|]);
       intros (_ & _ & _ & a' & w1' & H); discriminate H.
  assert (Skip : PartialRequest.startAt data = None
                 \/ PartialRequest.endAt data = None ->
                 exists new,
                   calls (snd (editAppointment cal appointmentId data w))
                   = (calls w ++ new)%list
                   /\ forall s e x,
                        In (Repo_getConflictingAppointments s e x) new
                        <-> PartialRequest.startAt data = Some s
                            /\ PartialRequest.endAt data = Some e
                            /\ x = Some appointmentId
                            /\ exists appointment w1',
                                 (@inr exn _ (Some a), w1)
                                 = (inr (Some appointment), w1')).
  { intros Hnone.
    assert (P : conflict_check_passes appointmentId data w1 w1).
    { unfold conflict_check_passes.
      destruct Hnone as [-> | ->]; [reflexivity|].
      now destruct (PartialRequest.startAt data). }
    rewrite (editAppointment_after_checks cal _ _ _ _ _ _ F P).
    destruct (editAppointment_write_calls cal appointmentId a
                (rescheduled a data (clock w1)) w1) as (new & C & N).
    exists (Repo_findById appointmentId :: new). split.
    - rewrite C, C1, <- app_assoc. reflexivity.
    - intros s e x. split.
      + intros [H | H]; [discriminate H | now apply N in H].
      + intros (Hs & He & _). destruct Hnone; congruence. }
  destruct (PartialRequest.startAt data) as [s0|] eqn:Es; [|apply Skip; auto].
  destruct (PartialRequest.endAt data) as [e0|] eqn:Ee; [|apply Skip; auto].
  clear Skip.
  destruct (Svc.repo_getConflictingAppointments Pg.repository s0 e0
              (Some appointmentId) w1) as [[err|[|c cs]] w2] eqn:G;
    pose proof (repo_getConflictingAppointments_effect _ _ _ _ _ _ G)
      as (_ & _ & C2 & _).
  2:{ assert (P : conflict_check_passes appointmentId data w1 w2).
      { unfold conflict_check_passes. now rewrite Es, Ee. }
      rewrite (editAppointment_after_checks cal _ _ _ _ _ _ F P).
      destruct (editAppointment_write_calls cal appointmentId a
                  (rescheduled a data (clock w2)) w2) as (new & C & N).
      exists (Repo_findById appointmentId
              :: Repo_getConflictingAppointments s0 e0 (Some appointmentId)
              :: new).
      split.
      - rewrite C, C2, C1, <- !app_assoc. reflexivity.
      - intros s e x. split.
        + intros [H | [H | H]]; [discriminate H | | now apply N in H].
          injection H as <- <- <-. eauto 8.
        + intros (Hs & He & -> & _). injection Hs as <-. injection He as <-.
          right. now left. }
  all: exists [Repo_findById appointmentId;
               Repo_getConflictingAppointments s0 e0 (Some appointmentId)];
       unfold editAppointment, Svc.editAppointment;
       unfold bind at 1; rewrite F; cbv iota; unfold bind at 1;
       rewrite Es, Ee; unfold bind at 1; rewrite G.
  2: change (0 <? Datatypes.length (c :: cs))%nat with true; cbv iota;
     destruct (find _ (c :: cs)); unfold throw.
  all: simpl; (split; [rewrite C2, C1, <- app_assoc; reflexivity|]);
       intros s e x; split;
       [ intros [H | [H | []]]; [discriminate H|];
         injection H as <- <- <-; eauto 8
       | intros (Hs & He & -> & _); injection Hs as <-; injection He as <-;
         right; now left ].
Qed.

(** Moving only the end of [row_ann] to 11:30 goes through although
    [row_bob] is active from 11:00 to 12:00. *)
Example editAppointment_end_only_overlaps_sample :
  fst (editAppointment calendar_up id_ann payload_end_only (sample_world 0))
  = inr (Some (Pg.mapRowToEntity
                 (set_from (rescheduled (Pg.mapRowToEntity row_ann)
                                        payload_end_only 0) 0 row_ann)))
  /\ overlaps (at_time 10 0) (at_time 11 30)
              (DbRow.start_at row_bob) (DbRow.end_at row_bob) = true.
Proof. split; reflexivity. Qed.

(** ** [cancelAppointment]: the successful cancellation and what follows *)

Lemma NoDup_map_injective_on {A B : Type} (f : A -> B) (l : list A)
    (x y : A) :
  NoDup (map f l) -> In x l -> In y l -> f x = f y -> x = y.
Proof.
  induction l as [|z l IH]; simpl; [contradiction|].
  intros ND Hx Hy E. inversion ND as [|? ? Hnot ND']; subst.
  destruct Hx as [<-|Hx], Hy as [<-|Hy]; auto.
  - exfalso. apply Hnot. rewrite E. now apply in_map.
  - exfalso. apply Hnot. rewrite <- E. now apply in_map.
Qed.

Lemma filter_has_id_single (table : list DbRow.t) (r : DbRow.t) :
  NoDup (map DbRow.id table) -> In r table ->
  filter (Pg.has_id (DbRow.id r)) table = [r].
Proof.
  induction table as [|x table IH]; simpl; [contradiction|].
  intros ND Hr. inversion ND as [|? ? Hnot ND']; subst.
  destruct Hr as [-> | Hr].
  - unfold Pg.has_id at 1. rewrite String.eqb_refl. f_equal.
    apply filter_has_id_nil. intros r' Hr' E. apply Hnot.
    rewrite <- E. now apply in_map.
  - assert (Hx : Pg.has_id (DbRow.id r) x = false).
    { apply has_id_false. intros E. apply Hnot. rewrite E. now apply in_map. }
    rewrite Hx. now apply IH.
Qed.

Lemma findById_found (id' : string) (w : World) (r : DbRow.t)
    (more : list DbRow.t) :
  no_faults w ->
  filter (Pg.has_id id') (rows w) = r :: more ->
  Svc.repo_findById Pg.repository id' w
  = (inr (Some (Pg.mapRowToEntity r)), logged (Repo_findById id') w).
Proof.
  intros Hf F. rewrite repo_findById_eq.
  rewrite (findById_no_faults id' (logged (Repo_findById id') w) Hf).
  simpl rows. now rewrite F.
Qed.

(** X13.  On a pool without failures and a table satisfying its
    constraints: cancelling the id of a row that is scheduled or confirmed
    and starts at least two hours from now returns [true], whatever the
    calendar answers; afterwards that row is cancelled with the current
    time as modification time and every other row and column is as before
    (an empty calendar event id being stored as absent). *)
Theorem cancelAppointment_cancels
    (cal : ICalendarService.t) (w : World) (r : DbRow.t) :
  no_faults w ->
  satisfies_constraints (rows w) ->
  In r (rows w) ->
  is_active (DbRow.status r) = true ->
  two_hours <= DbRow.start_at r - clock w ->
  exists w',
    cancelAppointment cal (DbRow.id r) w = (inr true, w')
    /\ rows w' = map_rows_of (DbRow.id r) (cancelled_row (clock w)) (rows w).
Proof.
  intros Hf (NDid & Hok & NDslot) Hr Hact H2h.
  pose proof (filter_has_id_single (rows w) r NDid Hr) as F.
  pose proof (findById_found (DbRow.id r) w r [] Hf F) as Fd.
  set (w1 := logged (Repo_findById (DbRow.id r)) w) in *.
  assert (V : Svc.validateAppointmentCanBeCancelled (Pg.mapRowToEntity r) w1
              = (inr tt, w1)).
  { destruct (validateAppointmentCanBeCancelled_cases (Pg.mapRowToEntity r) w1)
      as [(Hrej & _) | (_ & V)]; [|exact V].
    exfalso. unfold cancellation_rejected in Hrej.
    change (status (Pg.mapRowToEntity r)) with (DbRow.status r) in Hrej.
    change (startAt (Pg.mapRowToEntity r)) with (DbRow.start_at r) in Hrej.
    change (clock w1) with (clock w) in Hrej.
    destruct Hrej as [H | [H | H]];
      try (rewrite H in Hact; discriminate Hact).
    lia. }
  rewrite (cancelAppointment_after_checks cal _ _ _ _ Fd V).
  pose proof (cancelAppointment_write_cases cal (DbRow.id r)
                (cancelled_at (Pg.mapRowToEntity r) (clock w1)) w1) as W.
  rewrite repo_update_eq in W.
  set (u := cancelled_at (Pg.mapRowToEntity r) (clock w1)) in *.
  set (w1u := logged (Repo_update (DbRow.id r) u) w1) in *.
  destruct (update_succeeds (DbRow.id r) u w1u r) as (w2 & U & R2 & _).
  - apply no_faults_connected. exact Hf.
  - exact F.
  - apply (Hok r Hr).
  - apply (Hok r Hr).
  - intros r' Hr' Hid. apply not_true_is_false. intros Hs.
    unfold Pg.same_slot in Hs. apply andb_true_iff in Hs.
    destruct Hs as (E1 & E2). apply Z.eqb_eq in E1, E2.
    apply Hid. f_equal.
    apply (NoDup_map_injective_on slot (rows w)); auto.
    unfold slot. simpl in E1, E2. congruence.
  - rewrite U in W. destruct W as (w3 & E & R3 & _).
    exists w3. split; [exact E|].
    rewrite R3, R2. unfold map_rows_of. apply map_ext_in.
    intros r' Hr'. destruct (Pg.has_id (DbRow.id r) r') eqn:Hid;
      [|reflexivity].
    assert (r' = r).
    { apply (NoDup_map_injective_on DbRow.id (rows w)); auto.
      now apply has_id_true. }
    subst r'. reflexivity.
Qed.

Lemma sample_table_satisfies_constraints (now : Date) :
  satisfies_constraints (rows (sample_world now)).
Proof.
  split; [|split].
  - repeat constructor; simpl; intuition discriminate.
  - intros r [<-|[<-|[<-|[<-|[]]]]]; split;
      first [reflexivity | left; discriminate | right; discriminate].
  - repeat constructor; cbv; intuition discriminate.
Qed.

Lemma cancelAppointment_cancels_witness :
  exists w',
    cancelAppointment calendar_down (DbRow.id row_ann)
                      (sample_world (at_time 7 0))
    = (inr true, w')
    /\ rows w'
       = map_rows_of (DbRow.id row_ann) (cancelled_row (at_time 7 0))
                     (rows (sample_world (at_time 7 0))).
Proof.
  apply (cancelAppointment_cancels calendar_down (sample_world (at_time 7 0))
           row_ann).
  - reflexivity.
  - apply sample_table_satisfies_constraints.
  - left. reflexivity.
  - reflexivity.
  - unfold two_hours. simpl. lia.
Defined.

Lemma filter_has_id_map_rows_of (id' : string) (f : DbRow.t -> DbRow.t)
    (table : list DbRow.t) :
  (forall r, DbRow.id (f r) = DbRow.id r) ->
  filter (Pg.has_id id') (map_rows_of id' f table)
  = map f (filter (Pg.has_id id') table).
Proof.
  intros Hf. unfold map_rows_of.
  induction table as [|r table IH]; simpl; [reflexivity|].
  destruct (Pg.has_id id' r) eqn:E; simpl.
  - unfold Pg.has_id at 1. rewrite Hf. fold (Pg.has_id id' r).
    rewrite E. simpl. now f_equal.
  - rewrite E. exact IH.
Qed.

(** What a successful [cancelAppointment] has done to the table. *)
Lemma cancelAppointment_true_effect
    (cal : ICalendarService.t) (appointmentId : string) (w w' : World) :
  cancelAppointment cal appointmentId w = (inr true, w') ->
  exists a row more,
    filter (Pg.has_id appointmentId) (rows w) = row :: more
    /\ rows w'
       = map_rows_of appointmentId
           (set_from (cancelled_at a (clock w)) (clock w)) (rows w).
Proof.
  intros H.
  destruct (cancelAppointment_paths cal appointmentId w)
    as [(e & w'' & E & _) | (a & w1 & F & V & _ & E)];
    rewrite E in H; [discriminate H|].
  pose proof (repo_findById_effect _ _ _ _ F) as (R1 & T1 & _ & _).
  pose proof (cancelAppointment_write_cases cal appointmentId
                (cancelled_at a (clock w1)) w1) as W.
  destruct (Svc.repo_update Pg.repository appointmentId
              (cancelled_at a (clock w1)) w1) as [[e|db] w2] eqn:U.
  - rewrite W in H. discriminate H.
  - destruct W as (w3 & E3 & R3 & _). rewrite E3 in H. injection H as <-.
    apply repo_update_effect in U.
    destruct U as (_ & _ & row & more & Frow & _ & R2).
    exists a, row, more. rewrite <- R1, <- T1. split; [exact Frow|].
    now rewrite R3.
Qed.

(** X14.  Cancelling twice: after a [cancelAppointment] that returned
    [true], and with the connection up, a second [cancelAppointment] of the
    same id fails with the already-cancelled
    [AppointmentCancellationError], whatever the time and the calendar, and
    changes no row. *)
Theorem cancelAppointment_twice
    (cal cal' : ICalendarService.t) (appointmentId : string) (w w' : World) :
  cancelAppointment cal appointmentId w = (inr true, w') ->
  connected w' ->
  exists w'',
    cancelAppointment cal' appointmentId w'
    = (inl (AppointmentCancellationError
              [Lit "Appointment is already cancelled"]), w'')
    /\ rows w'' = rows w'.
Proof.
  intros H Hc.
  destruct (cancelAppointment_true_effect cal appointmentId w w' H)
    as (a & row & more & Frow & R).
  destruct (findById_cases appointmentId (logged (Repo_findById appointmentId) w'))
    as (w1 & (R1 & _) & [[_ E] | [N _]]); [|contradiction].
  rewrite <- repo_findById_eq in E. simpl rows in E.
  rewrite R in E.
  rewrite filter_has_id_map_rows_of in E by reflexivity.
  rewrite Frow in E. simpl in E.
  exists w1. split; [|exact R1].
  unfold cancelAppointment, Svc.cancelAppointment.
  unfold bind at 1. rewrite E. cbv iota. unfold bind at 1.
  reflexivity.
Qed.

Lemma cancelAppointment_twice_witness :
  exists w'',
    cancelAppointment calendar_up id_ann
      (snd (cancelAppointment calendar_down id_ann
                              (sample_world (at_time 7 0))))
    = (inl (AppointmentCancellationError
              [Lit "Appointment is already cancelled"]), w'')
    /\ rows w''
       = rows (snd (cancelAppointment calendar_down id_ann
                                      (sample_world (at_time 7 0)))).
Proof.
  apply (cancelAppointment_twice calendar_down calendar_up id_ann
           (sample_world (at_time 7 0))).
  - reflexivity.
  - reflexivity.
Defined.

(** X15.  A cancelled appointment is out of both queries: after a
    [cancelAppointment] that returned [true], no record returned by
    [getActiveAppointmentsByEmailOrPhone] or by
    [getConflictingAppointments] on the resulting table carries the
    cancelled id. *)
Theorem cancelled_appointment_is_not_listed
    (cal : ICalendarService.t) (appointmentId : string) (w w' : World) :
  cancelAppointment cal appointmentId w = (inr true, w') ->
  (forall emailOrPhone l w'',
      Pg.getActiveAppointmentsByEmailOrPhone emailOrPhone w' = (inr l, w'') ->
      forall a, In a l -> id a <> Some appointmentId)
  /\ (forall startAt' endAt' excludeId l w'',
        Pg.getConflictingAppointments startAt' endAt' excludeId w'
        = (inr l, w'') ->
        forall a, In a l -> id a <> Some appointmentId).
Proof.
  intros H.
  destruct (cancelAppointment_true_effect cal appointmentId w w' H)
    as (a0 & row & more & _ & R).
  assert (Hc : forall r, In r (rows w') -> DbRow.id r = appointmentId ->
                         DbRow.status r = CANCELLED).
  { intros r Hr Hid. rewrite R in Hr. unfold map_rows_of in Hr.
    apply in_map_iff in Hr. destruct Hr as (r0 & <- & _).
    destruct (Pg.has_id appointmentId r0) eqn:E; [reflexivity|].
    apply has_id_false in E. contradiction. }
  split.
  - intros x l w'' G a Ha Hid.
    unfold Pg.getActiveAppointmentsByEmailOrPhone, bind in G.
    destruct (query_select_cases (Pg.active_with_contact x) w')
      as (w1 & _ & [[_ E] | [_ E]]); rewrite E in G; [|discriminate G].
    unfold ret in G. injection G as <- _.
    apply in_map_iff in Ha. destruct Ha as (r & <- & Hr).
    apply (Permutation_in _ (Permutation_sym (order_by_start_at_perm _))) in Hr.
    apply filter_In in Hr. destruct Hr as (Hr & Hp).
    apply active_with_contact_iff in Hp. destruct Hp as (_ & Hact).
    simpl in Hid. injection Hid as Hid.
    rewrite (Hc r Hr Hid) in Hact. discriminate Hact.
  - intros s e x l w'' G a Ha Hid.
    destruct (getConflictingAppointments_cases s e x w')
      as (w1 & _ & [[_ E] | [_ E]]); rewrite E in G; [|discriminate G].
    injection G as <- _.
    apply in_map_iff in Ha. destruct Ha as (r & <- & Hr).
    apply filter_In in Hr. destruct Hr as (Hr & Hp).
    simpl in Hid. injection Hid as Hid.
    unfold Pg.conflicts_with in Hp. rewrite (Hc r Hr Hid) in Hp.
    simpl in Hp. rewrite andb_false_r in Hp. discriminate Hp.
Qed.

Lemma cancelled_appointment_is_not_listed_witness :
  (forall emailOrPhone l w'',
      Pg.getActiveAppointmentsByEmailOrPhone emailOrPhone
        (snd (cancelAppointment calendar_up id_ann
                                (sample_world (at_time 7 0))))
      = (inr l, w'') ->
      forall a, In a l -> id a <> Some id_ann)
  /\ (forall startAt' endAt' excludeId l w'',
        Pg.getConflictingAppointments startAt' endAt' excludeId
          (snd (cancelAppointment calendar_up id_ann
                                  (sample_world (at_time 7 0))))
        = (inr l, w'') ->
        forall a, In a l -> id a <> Some id_ann).
Proof.
  apply (cancelled_appointment_is_not_listed calendar_up id_ann
           (sample_world (at_time 7 0))).
  reflexivity.
Defined.

(** * No double booking *)



















(** * The reschedule and cancel handlers *)

(** X19.  [editAppointment] never resolves to [null]: when it returns, it
    returns the updated record, so the handler's reply for a missing
    result is never chosen. *)
Theorem editAppointment_never_resolves_to_null
    (cal : ICalendarService.t) (appointmentId : string)
    (data : PartialRequest.t) (w : World) :
  fst (editAppointment cal appointmentId data w) <> inr None.
Proof.
  destruct (editAppointment_paths cal appointmentId data w)
    as [(e & w' & E & _) | (a & w1 & w2 & _ & _ & _ & E)]; rewrite E.
  - discriminate.
  - pose proof (editAppointment_write_cases cal appointmentId a
                  (rescheduled a data (clock w2)) w2) as W.
    destruct (Svc.repo_update Pg.repository appointmentId
                (rescheduled a data (clock w2)) w2) as [[e|db] w3].
    + rewrite W. discriminate.
    + destruct W as (w4 & -> & _). discriminate.
Qed.

(** X20.  [handleApiError] answers exactly the errors that carry a code,
    except [AppointmentReschedulingError]: the reply has status 200 and
    holds the error's code and message.  Every other thrown value is left
    to the caller. *)
Theorem handleApiError_handles (error : exn) :
  match handleApiError error with
  | Some r =>
      FastifyReply.statusCode r = 200
      /\ (exists c, code error = Some c
                    /\ FastifyReply.sent r
                       = FastifyReply.failure c (exn_message error))
      /\ forall m, error <> AppointmentReschedulingError m
  | None =>
      code error = None \/ exists m, error = AppointmentReschedulingError m
  end.
Proof.
  destruct error; simpl; eauto;
    (split; [reflexivity|]); (split; [eauto|]); discriminate.
Qed.


Lemma store_untouched_refl (w : World) : store_untouched w w.
Proof.
  split; [reflexivity|]. exists []. split; [now rewrite app_nil_r|].
  constructor.
Qed.

Lemma storage_error_rethrown (e : exn) :
  is_storage_error e -> handleApiError e = None.
Proof. destruct e; simpl; try contradiction; reflexivity. Qed.

(** X21.  A cancellation request through the error-handling wrapper ends
    in one of three ways: a failure reply with one of three codes, the
    store untouched; the success reply, the engine having returned [true];
    or a storage failure thrown on, the rows as they were.  Every reply has
    status 200. *)
Theorem handleCancelAppointment_outcomes
    (cal : ICalendarService.t) (appointmentId : option string) (w : World) :
  match withErrorHandling
          (ScheduleHandlers.handleCancelAppointment cal appointmentId) w with
  | (inr r, w') =>
      FastifyReply.statusCode r = 200
      /\ match FastifyReply.sent r with
         | FastifyReply.failure c _ =>
             In c cancel_failure_codes /\ store_untouched w w'
         | FastifyReply.done _ =>
             truthy appointmentId = true
             /\ fst (cancelAppointment cal (Svc.non_null appointmentId) w)
                = inr true
         end
  | (inl e, w') => is_storage_error e /\ rows w' = rows w
  end.
Proof.
  unfold ScheduleHandlers.handleCancelAppointment, cancel_failure_codes.
  destruct (truthy appointmentId) eqn:T; simpl negb; cbv iota.
  2:{ unfold withErrorHandling, try_catch, ret. simpl.
      split; [reflexivity|]. split; [auto|]. apply store_untouched_refl. }
  unfold withErrorHandling, try_catch, bind.
  destruct (cancelAppointment_paths cal (Svc.non_null appointmentId) w)
    as [(e & w' & E & SU & K) | (a & w1 & _ & _ & SU & E)]; rewrite E.
  - destruct K as [-> | [(m & ->) | (m & ->)]]; simpl.
    + split; [exact I | apply SU].
    + split; [reflexivity|]. split; [auto|exact SU].
    + split; [reflexivity|]. split; [auto|exact SU].
  - pose proof (cancelAppointment_write_cases cal (Svc.non_null appointmentId)
                  (cancelled_at a (clock w1)) w1) as W.
    destruct (Svc.repo_update Pg.repository (Svc.non_null appointmentId)
                (cancelled_at a (clock w1)) w1) as [[e|db] w2] eqn:U.
    + rewrite W. apply repo_update_effect in U.
      destruct U as (_ & _ & S & R).
      rewrite (storage_error_rethrown e S). unfold throw.
      split; [exact S|]. destruct SU as (R1 & _). congruence.
    + destruct W as (w3 & -> & _). unfold ret. simpl. auto.
Qed.

(** X22.  A reschedule request through the error-handling wrapper ends in
    one of three ways: a failure reply with one of five codes, the store
    untouched; the success reply, the engine having returned the updated
    record; or a storage failure thrown on, the rows as they were.  The
    code [APPOINTMENT_NOT_FOUND] is never sent. *)
Theorem handleRescheduleAppointment_outcomes
    (cal : ICalendarService.t) (Date_parse : string -> option Date)
    (appointmentId startAt' endAt' : option string)
    (type' : option AppointmentType) (w : World) :
  match withErrorHandling
          (ScheduleHandlers.handleRescheduleAppointment cal Date_parse
             appointmentId startAt' endAt' type') w with
  | (inr r, w') =>
      FastifyReply.statusCode r = 200
      /\ match FastifyReply.sent r with
         | FastifyReply.failure c _ =>
             In c reschedule_failure_codes /\ store_untouched w w'
         | FastifyReply.done _ =>
             exists startDate endDate updated,
               Date_parse (Svc.non_null startAt') = Some startDate
               /\ Date_parse (Svc.non_null endAt') = Some endDate
               /\ fst (editAppointment cal (Svc.non_null appointmentId)
                         (PartialRequest.mk None None None None
                            (Some startDate) (Some endDate) type'
                            None None None) w)
                  = inr (Some updated)
         end
  | (inl e, w') => is_storage_error e /\ rows w' = rows w
  end.
Proof.
  unfold ScheduleHandlers.handleRescheduleAppointment,
    reschedule_failure_codes.
  destruct (truthy appointmentId); simpl negb; cbv iota.
  2:{ unfold withErrorHandling, try_catch, ret. simpl.
      split; [reflexivity|]. split; [auto|]. apply store_untouched_refl. }
  destruct (negb (truthy startAt') || negb (truthy endAt')).
  { unfold withErrorHandling, try_catch, ret. simpl.
    split; [reflexivity|]. split; [auto|]. apply store_untouched_refl. }
  destruct (Date_parse (Svc.non_null startAt')) as [startDate|];
    [destruct (Date_parse (Svc.non_null endAt')) as [endDate|]|].
  2,3: unfold withErrorHandling, try_catch, ret; simpl;
       (split; [reflexivity|]); (split; [auto|]); apply store_untouched_refl.
  set (data := PartialRequest.mk None None None None (Some startDate)
                                 (Some endDate) type' None None None).
  unfold withErrorHandling, try_catch, bind.
  destruct (editAppointment_paths cal (Svc.non_null appointmentId) data w)
    as [(e & w' & E & SU & K) | (a & w1 & w2 & _ & _ & SU & E)]; rewrite E.
  - destruct K as [-> | [(m & ->) | (m & ->)]]; simpl.
    + split; [exact I | apply SU].
    + split; [reflexivity|]. split; [auto|exact SU].
    + split; [reflexivity|]. split; [auto 6|exact SU].
  - pose proof (editAppointment_write_cases cal (Svc.non_null appointmentId) a
                  (rescheduled a data (clock w2)) w2) as W.
    destruct (Svc.repo_update Pg.repository (Svc.non_null appointmentId)
                (rescheduled a data (clock w2)) w2) as [[e|db] w3] eqn:U.
    + rewrite W. apply repo_update_effect in U.
      destruct U as (_ & _ & S & R).
      rewrite (storage_error_rethrown e S). unfold throw.
      split; [exact S|]. destruct SU as (R2 & _). congruence.
    + destruct W as (w4 & W & _). rewrite W. unfold ret. simpl.
      split; [reflexivity|]. exists startDate, endDate, db.
      split; [reflexivity|]. split; [reflexivity|].
      fold data. now rewrite E, W.
Qed.



(** X24.  [editAppointment] with one end of the interval only can
    introduce a double booking: no conflict query is made, and the other
    end is taken from the stored record. *)
Theorem editAppointment_one_end_can_double_book :
  exists (cal : ICalendarService.t) (appointmentId : string)
         (data : PartialRequest.t) (w : World),
    PartialRequest.startAt data = None
    /\ no_double_booking (rows w)
    /\ ~ no_double_booking
           (rows (snd (editAppointment cal appointmentId data w))).
Proof.
  exists calendar_up, id_ann, payload_end_only, (sample_world 0).
  split; [reflexivity|]. split.
  - repeat constructor; intros A A'; try reflexivity; discriminate.
  - intros H.
    change (rows (snd (editAppointment calendar_up id_ann payload_end_only
                                       (sample_world 0))))
      with [set_from (rescheduled (Pg.mapRowToEntity row_ann)
                                  payload_end_only 0) 0 row_ann;
            row_bob; row_cy; row_ann_later] in H.
    inversion H as [|? ? Ha _]; subst.
    inversion Ha as [|? ? C _]; subst.
    discriminate (C eq_refl eq_refl).
Qed.

(** X25.  Of the failures of [createAppointment], the error handler
    answers the taken slot only; the store is then untouched.  Storage
    failures and the failure after compensation are thrown on. *)
Theorem createAppointment_failure_answered_iff
    (cal : ICalendarService.t) (data : ScheduleRequest.t) (w : World)
    (e : exn) :
  fst (createAppointment cal data w) = inl e ->
  (handleApiError e <> None <-> exists m, e = TimeSlotUnavailableError m)
  /\ (handleApiError e <> None ->
      store_untouched w (snd (createAppointment cal data w))).
Proof.
  intros F.
  destruct (createAppointment_paths cal data w)
    as [(e' & w' & E & SU & K) | (w1 & _ & _ & E)]; rewrite E in *;
    simpl in F.
  - injection F as ->. destruct K as [-> | (m & ->)].
    + split; [split|]; [| intros (m & Hm); discriminate Hm |];
        intros H; exfalso; apply H; reflexivity.
    + split; [split; [eauto | discriminate]|]. intros _. exact SU.
  - pose proof (createAppointment_write_errors cal data w1) as W.
    rewrite F in W. destruct W as [(c & ->) | (m & ->)];
      (split; [split|]; [| intros (m' & Hm); discriminate Hm |];
       intros H; exfalso; apply H; reflexivity).
Qed.

Lemma createAppointment_failure_answered_iff_witness :
  exists e,
    fst (createAppointment calendar_up request_ann_overlapping
                           (sample_world 0)) = inl e
    /\ (handleApiError e <> None <-> exists m, e = TimeSlotUnavailableError m)
    /\ (handleApiError e <> None ->
        store_untouched (sample_world 0)
          (snd (createAppointment calendar_up request_ann_overlapping
                                  (sample_world 0)))).
Proof.
  eexists. split; [reflexivity|].
  apply createAppointment_failure_answered_iff. reflexivity.
Defined.
